(** * A shallow embedding of the chatbot backend's conversation store,
      response orchestrator, rate limiter, sessions and authentication.

    Sources embedded here:
      - src/models/thread.py, src/models/message.py   (tables and constraints)
      - src/chatkit_server/postgres_store.py          (PostgresStore)
      - src/chatkit_server/chatkit_server.py          (RoboticsChatbotServer.respond)
      - src/middleware/rate_limit.py                  (rate_limit_middleware)
      - src/routers/chatkit_session.py                (the session store and its endpoints)
      - src/middleware/auth.py                        (validate_session and the two middlewares)
      - src/main.py                                   (chatkit_endpoint)
      - src/config.py                                 (Settings.cors_origins_list)

    Conventions.  A Python [str] is a [string]; every [ascii] stands for one
    character.  Timestamps ([datetime]) and durations ([timedelta]) are
    integers counting microseconds.  Python integers are [Z].  The database
    is a pair of tables kept as lists of rows in insertion order; a
    statement sent to it is a storage round trip that may raise.  Row
    identifiers are compared as strings.  An operation of the store is a
    function from the world it runs in to its result (a value or an
    exception) and the world it leaves.

    The first part of the file holds the embedding, the second part
    (Properties) what is proved of it. *)

From Stdlib Require Import ZArith List String Ascii Bool Lia Sorted Permutation.
From stdpp Require Import base option list gmap strings.

Local Open Scope string_scope.
Local Open Scope Z_scope.

(* ===================================================================== *)
(** ** Python built-ins used by the sources *)
(* ===================================================================== *)

Module Py.

(** [len(s)] *)
Definition len (s : string) : Z := Z.of_nat (String.length s).

(** [c.isspace()] for the characters below U+0100: TAB..CR, FS..US,
    SPACE, NEL and NBSP. *)
Definition isspace (c : ascii) : bool :=
  let n := Z.of_N (N_of_ascii c) in
  ((9 <=? n) && (n <=? 13)) || ((28 <=? n) && (n <=? 32))
  || (n =? 133) || (n =? 160).

Fixpoint lstrip (s : string) : string :=
  match s with
  | EmptyString => EmptyString
  | String c rest => if isspace c then lstrip rest else s
  end.

Fixpoint rstrip (s : string) : string :=
  match s with
  | EmptyString => EmptyString
  | String c rest =>
      match rstrip rest with
      | EmptyString => if isspace c then EmptyString else String c EmptyString
      | kept => String c kept
      end
  end.

(** [s.strip()] *)
Definition strip (s : string) : string := rstrip (lstrip s).

(** [s[:n]] for a non-negative literal [n]. *)
Definition prefix (n : nat) (s : string) : string := substring 0 n s.

(** [l[:n]] on a list, for any integer [n]: a negative bound counts from
    the end. *)
Definition slice_to {A} (n : Z) (l : list A) : list A :=
  if 0 <=? n then take (Z.to_nat n) l
  else take (Z.to_nat (Z.of_nat (length l) + n)) l.

(** Truthiness of an optional string: [None] and [""] are falsy. *)
Definition truthy (o : option string) : bool :=
  match o with
  | Some s => negb (s =? "")%string
  | None => false
  end.

Definition isdigit (c : ascii) : bool :=
  let n := Z.of_N (N_of_ascii c) in (48 <=? n) && (n <=? 57).

Definition digit_value (c : ascii) : Z := Z.of_N (N_of_ascii c) - 48.

(** Decimal digits, single underscores allowed between two digits. *)
Fixpoint digits (s : string) (acc : Z) (after_digit : bool) : option Z :=
  match s with
  | EmptyString => if after_digit then Some acc else None
  | String c rest =>
      if isdigit c then digits rest (10 * acc + digit_value c) true
      else if Ascii.eqb c "_" && after_digit then digits rest acc false
      else None
  end.

(** [int(s)] on a string: surrounding whitespace, an optional sign, then
    decimal digits.  [None] stands for [ValueError]. *)
Definition int (s : string) : option Z :=
  match strip s with
  | EmptyString => None
  | String c rest =>
      if Ascii.eqb c "-" then Z.opp <$> digits rest 0 false
      else if Ascii.eqb c "+" then digits rest 0 false
      else digits (String c rest) 0 false
  end.

Definition lower_char (c : ascii) : ascii :=
  let n := N_of_ascii c in
  if ((65 <=? n) && (n <=? 90))%N then ascii_of_N (n + 32) else c.

(** [s.lower()] *)
Fixpoint lower (s : string) : string :=
  match s with
  | EmptyString => EmptyString
  | String c rest => String (lower_char c) (lower rest)
  end.

(** [sub in s] *)
Fixpoint contains (sub s : string) : bool :=
  String.prefix sub s ||
  match s with
  | EmptyString => false
  | String _ rest => contains sub rest
  end.

(** The rendering [str(u)] of a [uuid.UUID]: 8-4-4-4-12 lower-case
    hexadecimal digits. *)
Definition ishex (c : ascii) : bool :=
  let n := Z.of_N (N_of_ascii c) in
  isdigit c || ((97 <=? n) && (n <=? 102)).

Fixpoint hex_run (n : nat) (s : string) : option string :=
  match n, s with
  | O, _ => Some s
  | S k, String c rest => if ishex c then hex_run k rest else None
  | S _, EmptyString => None
  end.

Definition dash (o : option string) : option string :=
  match o with
  | Some (String "-" rest) => Some rest
  | _ => None
  end.

Definition hex_group (n : nat) (o : option string) : option string :=
  match o with
  | Some s => hex_run n s
  | None => None
  end.

Definition is_uuid (s : string) : bool :=
  match hex_group 12 (dash (hex_group 4 (dash (hex_group 4 (dash
          (hex_group 4 (dash (hex_run 8 s)))))))) with
  | Some EmptyString => true
  | _ => false
  end.

(** [s.startswith(p)] *)
Definition startswith (p s : string) : bool := String.prefix p s.

(** [s.replace(old, new)] for a non-empty [old]: every occurrence, left to
    right, without overlaps.  [skip] counts the characters of a matched
    occurrence that are still to be passed over. *)
Fixpoint replace_from (old new s : string) (skip : nat) : string :=
  match s with
  | EmptyString => EmptyString
  | String c rest =>
      match skip with
      | S k => replace_from old new rest k
      | O =>
          if String.prefix old s
          then (new ++ replace_from old new rest (String.length old - 1))%string
          else String c (replace_from old new rest 0)
      end
  end.

Definition replace (old new s : string) : string := replace_from old new s 0.

(** [s.split(sep)] for a separator of one character. *)
Fixpoint split (sep : ascii) (s : string) : list string :=
  match s with
  | EmptyString => [EmptyString]
  | String c rest =>
      if Ascii.eqb c sep then EmptyString :: split sep rest
      else match split sep rest with
           | first :: others => String c first :: others
           | [] => [String c EmptyString]
           end
  end.

(** [sep.join(l)] *)
Fixpoint join (sep : string) (l : list string) : string :=
  match l with
  | [] => EmptyString
  | [x] => x
  | x :: rest => (x ++ sep ++ join sep rest)%string
  end.

End Py.

(* ===================================================================== *)
(** ** The persisted schema (src/models) *)
(* ===================================================================== *)

(** Row of table [threads] (class [Thread]); [thread_metadata] is the JSON
    object column, with its values kept as strings. *)
Module Thread.
Record t := mk {
  thread_id : string;
  user_id : string;
  title : option string;
  thread_metadata : gmap string string;
  created_at : Z;
  updated_at : Z
}.
End Thread.

(** Row of table [messages] (class [Message]). *)
Module Message.
Record t := mk {
  message_id : string;
  thread_id : string;
  role : string;
  content : string;
  sequence_number : Z;
  created_at : Z
}.
End Message.

Record database := mk_database {
  threads : list Thread.t;
  messages : list Message.t
}.

(** Exceptions the embedded code raises or lets through. *)
Inductive exn :=
| OperationalError                       (* the storage connection failed *)
| IntegrityError (constraint : string)   (* a table constraint rejected a row *)
| DataError (detail : string)            (* the server rejected a statement *)
| MultipleResultsFound                   (* scalar_one_or_none on two rows *)
| ValueError (msg : string)
| PermissionError (msg : string)
| UnboundLocalError (name : string).

Inductive level := DEBUG | INFO | WARNING | ERROR.

(** What one store operation runs against: the committed tables, how many
    storage round trips still succeed before the connection fails ([None]:
    it never does), the log written so far, the values [uuid4()] draws and
    the two clocks ([datetime.utcnow()] of the process, [now()] of the
    database server). *)
Record world := mk_world {
  db : database;
  faults : option nat;
  log : list (level * string);
  uuid4_draws : nat -> string;
  uuid4_count : nat;
  utcnow : Z;
  db_now : Z
}.

Definition set_db (d : database) (w : world) : world :=
  mk_world d (faults w) (log w) (uuid4_draws w) (uuid4_count w) (utcnow w) (db_now w).
Definition set_faults (f : option nat) (w : world) : world :=
  mk_world (db w) f (log w) (uuid4_draws w) (uuid4_count w) (utcnow w) (db_now w).
Definition add_log (r : level * string) (w : world) : world :=
  mk_world (db w) (faults w) (log w ++ [r]) (uuid4_draws w) (uuid4_count w)
           (utcnow w) (db_now w).
Definition next_uuid (w : world) : world :=
  mk_world (db w) (faults w) (log w) (uuid4_draws w) (S (uuid4_count w))
           (utcnow w) (db_now w).
(** The same tables and randomness at a later instant. *)
Definition at_time (t : Z) (w : world) : world :=
  mk_world (db w) (faults w) (log w) (uuid4_draws w) (uuid4_count w) t t.

(* ===================================================================== *)
(** ** State and exceptions *)
(* ===================================================================== *)

Definition M (A : Type) : Type := world -> (exn + A) * world.

Definition ret {A} (a : A) : M A := fun w => (inr a, w).

Definition bind {A B} (m : M A) (k : A -> M B) : M B :=
  fun w =>
    match m w with
    | (inl e, w') => (inl e, w')
    | (inr a, w') => k a w'
    end.

Definition raise {A} (e : exn) : M A := fun w => (inl e, w).

(** [try: body  except Exception as e: handler e] *)
Definition try_except {A} (body : M A) (handler : exn -> M A) : M A :=
  fun w =>
    match body w with
    | (inl e, w') => handler e w'
    | (inr a, w') => (inr a, w')
    end.

Declare Scope store_scope.
Delimit Scope store_scope with store.
Notation "x <- c ;; k" := (bind c (fun x => k))
  (at level 100, c at next level, right associativity) : store_scope.
Notation "c ;; k" := (bind c (fun _ => k))
  (at level 100, right associativity) : store_scope.
Local Open Scope store_scope.

Definition logger (l : level) (msg : string) : M unit :=
  fun w => (inr tt, add_log (l, msg) w).

Definition uuid4 : M string :=
  fun w => (inr (uuid4_draws w (uuid4_count w)), next_uuid w).

Definition datetime_utcnow : M Z := fun w => (inr (utcnow w), w).

(** One round trip to the storage server. *)
Definition round_trip : M unit :=
  fun w =>
    match faults w with
    | None => (inr tt, w)
    | Some (S k) => (inr tt, set_faults (Some k) w)
    | Some O => (inl OperationalError, w)
    end.

(** [await session.execute(select(...))] *)
Definition execute {A} (q : database -> A) : M A :=
  round_trip ;; fun w => (inr (q (db w)), w).

(** [result.scalar_one_or_none()] *)
Definition scalar_one_or_none {A} (rows : list A) : M (option A) :=
  match rows with
  | [] => ret None
  | [x] => ret (Some x)
  | _ => raise MultipleResultsFound
  end.

(** [ORDER BY]: a stable insertion sort, so rows with equal keys stay in
    table order. *)
Fixpoint insert_by {A} (le : A -> A -> bool) (x : A) (l : list A) : list A :=
  match l with
  | [] => [x]
  | y :: rest => if le x y then x :: l else y :: insert_by le x rest
  end.

Definition order_by {A} (key : A -> Z) (desc : bool) (l : list A) : list A :=
  foldr (insert_by (fun x y => if desc then key y <=? key x
                               else key x <=? key y)) [] l.

(** [LIMIT n]: the server refuses a negative bound. *)
Definition sql_limit {A} (n : Z) (rows : list A) : M (list A) :=
  if n <? 0 then raise (DataError "LIMIT must not be negative")
  else ret (take (Z.to_nat n) rows).

(* ===================================================================== *)
(** ** Table constraints and the unit of work *)
(* ===================================================================== *)

(** [CheckConstraint]s of src/models/message.py and src/models/thread.py. *)
Definition chk_messages_role (role : string) : bool :=
  (role =? "user")%string || (role =? "assistant")%string.
Definition chk_messages_content_length (content : string) : bool :=
  (0 <? Py.len content) && (Py.len content <=? 100000).
Definition chk_messages_sequence_positive (n : Z) : bool := 1 <=? n.
Definition chk_threads_timestamps (t : Thread.t) : bool :=
  Thread.created_at t <=? Thread.updated_at t.
(** [title = Column(String(255))] *)
Definition title_fits (t : Thread.t) : bool :=
  match Thread.title t with
  | Some s => Py.len s <=? 255
  | None => true
  end.

(** What a session holds when it commits. *)
Inductive change :=
| InsertThread (t : Thread.t)
| UpdateThread (thread_id : string) (metadata : gmap string string) (updated_at : Z)
| SetTitle (thread_id : string) (title : string)
| InsertMessage (message_id thread_id role content : string) (sequence_number : Z)
| UpdateMessage (message_id role content : string)
| DeleteThread (thread_id : string)
| DeleteMessage (thread_id message_id : string).

Definition has_thread (tid : string) (d : database) : bool :=
  existsb (fun t => (Thread.thread_id t =? tid)%string) (threads d).

Definition check_threads (touched : list Thread.t) (d : database) : exn + database :=
  if negb (forallb chk_threads_timestamps touched)
  then inl (IntegrityError "chk_threads_timestamps")
  else if negb (forallb title_fits touched)
  then inl (DataError "value too long for type character varying(255)")
  else inr d.

Definition with_title (title : string) (now : Z) (t : Thread.t) : Thread.t :=
  Thread.mk (Thread.thread_id t) (Thread.user_id t) (Some title)
            (Thread.thread_metadata t) (Thread.created_at t) now.

Definition with_metadata (md : gmap string string) (ts : Z) (t : Thread.t) : Thread.t :=
  Thread.mk (Thread.thread_id t) (Thread.user_id t) (Thread.title t)
            md (Thread.created_at t) ts.

Definition with_body (role content : string) (m : Message.t) : Message.t :=
  Message.mk (Message.message_id m) (Message.thread_id m) role content
             (Message.sequence_number m) (Message.created_at m).

Definition same_title (o : option string) (s : string) : bool :=
  match o with
  | Some s' => (s' =? s)%string
  | None => false
  end.

(** One statement of the flush, at server time [now].  An [UPDATE] of a
    thread that sets [title] also fires [onupdate=func.now()] on
    [updated_at]; setting an attribute to the value it has emits nothing.
    Deleting a thread cascades to its messages. *)
Definition flush_change (now : Z) (d : database) (c : change) : exn + database :=
  match c with
  | InsertThread t =>
      if has_thread (Thread.thread_id t) d
      then inl (IntegrityError "threads_pkey")
      else check_threads [t] (mk_database (threads d ++ [t]) (messages d))
  | UpdateThread tid md ts =>
      let hit t := (Thread.thread_id t =? tid)%string in
      check_threads
        (map (with_metadata md ts) (List.filter hit (threads d)))
        (mk_database
           (map (fun t => if hit t then with_metadata md ts t else t) (threads d))
           (messages d))
  | SetTitle tid title =>
      let hit t := (Thread.thread_id t =? tid)%string
                   && negb (same_title (Thread.title t) title) in
      check_threads
        (map (with_title title now) (List.filter hit (threads d)))
        (mk_database
           (map (fun t => if hit t then with_title title now t else t) (threads d))
           (messages d))
  | InsertMessage mid tid role content seq =>
      if negb (chk_messages_role role)
      then inl (IntegrityError "chk_messages_role")
      else if negb (chk_messages_content_length content)
      then inl (IntegrityError "chk_messages_content_length")
      else if negb (chk_messages_sequence_positive seq)
      then inl (IntegrityError "chk_messages_sequence_positive")
      else if existsb (fun m => (Message.message_id m =? mid)%string) (messages d)
      then inl (IntegrityError "messages_pkey")
      else if negb (has_thread tid d)
      then inl (IntegrityError "messages_thread_id_fkey")
      else if existsb (fun m => (Message.thread_id m =? tid)%string
                                && (Message.sequence_number m =? seq)) (messages d)
      then inl (IntegrityError "uq_messages_thread_sequence")
      else inr (mk_database (threads d)
                  (messages d ++ [Message.mk mid tid role content seq now]))
  | UpdateMessage mid role content =>
      if negb (chk_messages_role role)
      then inl (IntegrityError "chk_messages_role")
      else if negb (chk_messages_content_length content)
      then inl (IntegrityError "chk_messages_content_length")
      else inr (mk_database (threads d)
                  (map (fun m => if (Message.message_id m =? mid)%string
                                 then with_body role content m else m)
                       (messages d)))
  | DeleteThread tid =>
      inr (mk_database
             (List.filter (fun t => negb (Thread.thread_id t =? tid)%string) (threads d))
             (List.filter (fun m => negb (Message.thread_id m =? tid)%string) (messages d)))
  | DeleteMessage tid mid =>
      inr (mk_database (threads d)
             (List.filter (fun m => negb ((Message.thread_id m =? tid)%string
                                           && (Message.message_id m =? mid)%string))
                          (messages d)))
  end.

Fixpoint flush (now : Z) (d : database) (cs : list change) : exn + database :=
  match cs with
  | [] => inr d
  | c :: rest =>
      match flush_change now d c with
      | inl e => inl e
      | inr d' => flush now d' rest
      end
  end.

(** [await session.commit()]: the pending changes reach the tables
    together or not at all. *)
Definition commit (pending : list change) : M unit :=
  round_trip ;;
  fun w =>
    match flush (db_now w) (db w) pending with
    | inl e => (inl e, w)
    | inr d => (inr tt, set_db d w)
    end.

(* ===================================================================== *)
(** ** Items handed to the store (chatkit.types.ThreadItem) *)
(* ===================================================================== *)

(** One element of an item's [content] list. *)
Inductive content_block :=
| TextBlock (text : string)          (* an object with a [text] attribute *)
| DictBlock (text : option string)   (* a dict, with or without key "text" *)
| OpaqueBlock.                       (* anything else *)

(** The [content] attribute; [repr] is what [str()] renders it as. *)
Inductive raw_content :=
| RawStr (s : string)
| RawList (blocks : list content_block) (repr : string)
| RawOther (is_true : bool) (repr : string).

(** The class of an item; [OtherItem] carries its [role] attribute if it
    has one. *)
Inductive item_class :=
| AssistantMessageItem
| UserMessageItem
| OtherItem (role : option string).

Module Item.
Record t := mk {
  class : item_class;
  id : string;
  content : option raw_content     (* [None]: no such attribute *)
}.
End Item.

Definition extract_role (item : Item.t) : string :=
  match Item.class item with
  | AssistantMessageItem => "assistant"
  | UserMessageItem => "user"
  | OtherItem r => default "user" r
  end.

Definition block_text (b : content_block) : string :=
  match b with
  | TextBlock t => t
  | DictBlock (Some t) => t
  | _ => ""
  end.

Definition join_text (blocks : list content_block) : string :=
  fold_left (fun acc b => acc ++ block_text b)%string blocks "".

Definition raw_truthy (r : raw_content) : bool :=
  match r with
  | RawStr s => negb (s =? "")%string
  | RawList bs _ => match bs with [] => false | _ => true end
  | RawOther b _ => b
  end.

Definition py_str (r : raw_content) : string :=
  match r with
  | RawStr s => s
  | RawList _ repr => repr
  | RawOther _ repr => repr
  end.

(** The text extraction shared by [add_thread_item] and [save_item]; they
    differ in the placeholder. *)
Definition extract_content (item : Item.t) (placeholder : string) : string :=
  let raw := default (RawStr "") (Item.content item) in
  let extracted :=
    match raw with
    | RawStr s => s
    | RawList bs _ => join_text bs
    | RawOther _ _ => ""
    end in
  if (extracted =? "")%string
  then (if raw_truthy raw then py_str raw else placeholder)
  else extracted.

(** [final_item_id]: the placeholder of the agent stream is replaced. *)
Definition final_item_id (item : Item.t) : M string :=
  if (Item.id item =? "__fake_id__")%string then uuid4 else ret (Item.id item).

(* ===================================================================== *)
(** ** PostgresStore (src/chatkit_server/postgres_store.py) *)
(* ===================================================================== *)

Module ThreadMetadata.
Record t := mk {
  id : string;
  created_at : Z;
  metadata : gmap string string
}.
End ThreadMetadata.

Definition to_metadata (t : Thread.t) : ThreadMetadata.t :=
  ThreadMetadata.mk (Thread.thread_id t) (Thread.created_at t)
                    (Thread.thread_metadata t).

(** [Page(items=..., next_cursor=...)] as [load_threads] builds it. *)
Record ThreadPage := mk_ThreadPage {
  items : list ThreadMetadata.t;
  next_cursor : option string
}.

(** Items rebuilt from rows by [load_thread_items] and [load_item]. *)
Inductive loaded_item :=
| LoadedUserMessage (id thread_id : string) (created_at : Z) (text : string)
| LoadedAssistantMessage (id thread_id : string) (created_at : Z) (text : string).

(** [Page(data=..., has_more=..., after=...)] as [load_thread_items]
    builds it. *)
Record ItemPage := mk_ItemPage {
  data : list loaded_item;
  has_more : bool;
  after : option string
}.

(** The [after] argument of [load_thread_items]: annotated as a string,
    tested for being an [int]. *)
Inductive cursor :=
| CursorInt (n : Z)
| CursorStr (s : string).

Definition cursor_truthy (c : option cursor) : bool :=
  match c with
  | Some (CursorInt n) => negb (n =? 0)
  | Some (CursorStr s) => negb (s =? "")%string
  | None => false
  end.

(** Request context: a dict. *)
Definition context := option (gmap string string).

Definition load_thread_try (thread_id : string) (user_id : option string)
  : M (option ThreadMetadata.t) :=
  logger INFO "[LOAD_THREAD] Loading thread metadata" ;;
  rows <- execute (fun d =>
    List.filter (fun t =>
      (Thread.thread_id t =? thread_id)%string
      && (if Py.truthy user_id
          then (Thread.user_id t =? default "" user_id)%string
          else true)) (threads d)) ;;
  thread <- scalar_one_or_none rows ;;
  match thread with
  | None =>
      (if Py.truthy user_id
       then logger WARNING "[LOAD_THREAD] Thread not found or unauthorized"
       else logger WARNING "[LOAD_THREAD] Thread not found") ;;
      ret None
  | Some t =>
      logger INFO "[LOAD_THREAD] Successfully loaded thread" ;;
      ret (Some (to_metadata t))
  end.

Definition load_thread (thread_id : string) (user_id : option string)
  : M (option ThreadMetadata.t) :=
  try_except
    (load_thread_try thread_id user_id)
    (fun e =>
       logger ERROR "[LOAD_THREAD] Error loading thread" ;;
       ret None).

(** In the branch that updates an existing thread the local [user_id] is
    never bound, and the f-string of the closing [logger.debug] reads it:
    that call raises after the commit. *)
Definition save_thread_try (thread : ThreadMetadata.t) (ctx : context) : M unit :=
  rows <- execute (fun d =>
    List.filter (fun t => (Thread.thread_id t =? ThreadMetadata.id thread)%string)
                (threads d)) ;;
  existing <- scalar_one_or_none rows ;;
  match existing with
  | Some e =>
      now <- datetime_utcnow ;;
      commit [UpdateThread (Thread.thread_id e) (ThreadMetadata.metadata thread) now] ;;
      raise (UnboundLocalError "user_id")
  | None =>
      let user_id := ThreadMetadata.metadata thread !! "user_id" in
      let user_id :=
        if negb (Py.truthy user_id)
           && match ctx with Some c => negb (bool_decide (c = ∅)) | None => false end
        then (default ∅ ctx) !! "user_id"
        else user_id in
      if negb (Py.truthy user_id)
      then raise (ValueError "user_id required in thread metadata or context")
      else
        let uid := default "" user_id in
        let metadata := <["user_id" := uid]> (ThreadMetadata.metadata thread) in
        now <- datetime_utcnow ;;
        commit [InsertThread
                  (Thread.mk (ThreadMetadata.id thread) uid
                             (metadata !! "title") metadata
                             (ThreadMetadata.created_at thread) now)] ;;
        logger DEBUG "Saved thread"
  end.

Definition save_thread (thread : ThreadMetadata.t) (ctx : context) : M unit :=
  try_except
    (save_thread_try thread ctx)
    (fun e =>
       logger ERROR "Error saving thread" ;;
       raise e).

Definition delete_thread_try (thread_id : string) (user_id : option string) : M unit :=
  (if Py.truthy user_id
   then
     rows <- execute (fun d =>
       List.filter (fun t =>
         (Thread.thread_id t =? thread_id)%string
         && (Thread.user_id t =? default "" user_id)%string) (threads d)) ;;
     thread <- scalar_one_or_none rows ;;
     match thread with
     | None =>
         logger WARNING "Thread not found or unauthorized" ;;
         raise (PermissionError "Thread not found or access denied")
     | Some _ => ret tt
     end
   else ret tt) ;;
  execute (fun _ => tt) ;;
  commit [DeleteThread thread_id] ;;
  logger INFO "Deleted thread".

Definition delete_thread (thread_id : string) (user_id : option string) : M unit :=
  try_except
    (delete_thread_try thread_id user_id)
    (fun e =>
       match e with
       | PermissionError _ => raise e
       | _ => logger ERROR "Error deleting thread" ;; raise e
       end).

Definition load_threads_try (user_id : option string) (limit : Z)
    (after : option string) (order : string) (ctx : context) : M ThreadPage :=
  let user_id :=
    match user_id, ctx with
    | None, Some c => c !! "user_id"
    | _, _ => user_id
    end in
  if negb (Py.truthy user_id)
  then
    logger ERROR "load_threads called without user_id" ;;
    ret (mk_ThreadPage [] None)
  else
    let uid := default "" user_id in
    let desc := (order =? "desc")%string in
    after_timestamp <-
      (if Py.truthy after
       then
         rows <- execute (fun d =>
           map Thread.updated_at
             (List.filter (fun t => (Thread.thread_id t =? default "" after)%string)
                          (threads d))) ;;
         scalar_one_or_none rows
       else ret None) ;;
    rows <- execute (fun d =>
      order_by Thread.updated_at desc
        (List.filter (fun t =>
           (Thread.user_id t =? uid)%string
           && match after_timestamp with
              | Some ts => if desc then Thread.updated_at t <? ts
                           else ts <? Thread.updated_at t
              | None => true
              end) (threads d))) ;;
    found <- sql_limit (limit + 1) rows ;;
    let more := limit <? Z.of_nat (length found) in
    let page := if more then Py.slice_to limit found else found in
    ret (mk_ThreadPage
           (map to_metadata page)
           (if more then Thread.thread_id <$> last page else None)).

Definition load_threads (user_id : option string) (limit : Z)
    (after : option string) (order : string) (ctx : context) : M ThreadPage :=
  try_except
    (load_threads_try user_id limit after order ctx)
    (fun e =>
       logger ERROR "Error loading threads for user" ;;
       ret (mk_ThreadPage [] None)).

Definition last_sequence (thread_id : string) (d : database) : list Z :=
  take 1 (order_by (fun n => n) true
            (map Message.sequence_number
               (List.filter (fun m => (Message.thread_id m =? thread_id)%string)
                            (messages d)))).

(** [next_seq = (last_seq + 1) if last_seq else 1] *)
Definition next_sequence (last_seq : option Z) : Z :=
  match last_seq with
  | Some n => if n =? 0 then 1 else n + 1
  | None => 1
  end.

(** [title = extracted_content[:50].strip()], then the ellipsis when the
    content is longer than 50 characters. *)
Definition derive_title (extracted_content : string) : string :=
  let title := Py.strip (Py.prefix 50 extracted_content) in
  if 50 <? Py.len extracted_content then (title ++ "...")%string else title.

Definition add_thread_item_try (thread_id : string) (item : Item.t) : M unit :=
  rows <- execute (last_sequence thread_id) ;;
  last_seq <- scalar_one_or_none rows ;;
  let next_seq := next_sequence last_seq in
  let role := extract_role item in
  let extracted_content := extract_content item "Attribute content missing" in
  item_id <- final_item_id item ;;
  let message := InsertMessage item_id thread_id role extracted_content next_seq in
  title_change <-
    (if (next_seq =? 1) && (role =? "user")%string
     then
       found <- execute (fun d =>
         List.filter (fun t => (Thread.thread_id t =? thread_id)%string)
                     (threads d)) ;;
       thread <- scalar_one_or_none found ;;
       match thread with
       | Some t =>
           if negb (Py.truthy (Thread.title t))
           then
             logger DEBUG "Auto-generated thread title" ;;
             ret [SetTitle (Thread.thread_id t) (derive_title extracted_content)]
           else ret []
       | None => ret []
       end
     else ret []) ;;
  commit (message :: title_change) ;;
  logger INFO "[SAVED MESSAGE]" ;;
  logger DEBUG "   Content preview".

Definition add_thread_item (thread_id : string) (item : Item.t) : M unit :=
  try_except
    (add_thread_item_try thread_id item)
    (fun e =>
       logger ERROR "Error adding item to thread" ;;
       raise e).

Definition to_item (m : Message.t) : list loaded_item :=
  if (Message.role m =? "user")%string
  then [LoadedUserMessage (Message.message_id m) (Message.thread_id m)
                          (Message.created_at m) (Message.content m)]
  else if (Message.role m =? "assistant")%string
  then [LoadedAssistantMessage (Message.message_id m) (Message.thread_id m)
                               (Message.created_at m) (Message.content m)]
  else [].

Fixpoint log_each {A} (l : list A) : M unit :=
  match l with
  | [] => ret tt
  | _ :: rest => logger INFO "  seq, role, id, content" ;; log_each rest
  end.

Definition load_thread_items_try (thread_id : string) (limit : option Z)
    (after : option cursor) (order : string) : M ItemPage :=
  logger INFO "[LOAD_THREAD_ITEMS] Loading items for thread" ;;
  let limit := default 100 limit in
  let asc := (order =? "asc")%string in
  after_seq <-
    (if cursor_truthy after
     then
       match after with
       | Some (CursorInt n) => ret (Some n)
       | Some (CursorStr s) =>
           match Py.int s with
           | Some n => ret (Some n)
           | None =>
               rows <- execute (fun d =>
                 map Message.sequence_number
                   (List.filter (fun m => (Message.message_id m =? s)%string)
                                (messages d))) ;;
               scalar_one_or_none rows
           end
       | None => ret None
       end
     else ret None) ;;
  rows <- execute (fun d =>
    order_by Message.sequence_number (negb asc)
      (List.filter (fun m =>
         (Message.thread_id m =? thread_id)%string
         && match after_seq with
            | Some n =>
                if n =? 0 then true
                else if asc then n <? Message.sequence_number m
                     else Message.sequence_number m <? n
            | None => true
            end) (messages d))) ;;
  found <- sql_limit (limit + 1) rows ;;
  let more := limit <? Z.of_nat (length found) in
  let page := if more then Py.slice_to limit found else found in
  logger INFO "[LOAD_THREAD_ITEMS] Found messages for thread" ;;
  log_each page ;;
  let next_after := if more then Message.message_id <$> last page else None in
  logger INFO "[LOAD_THREAD_ITEMS] Returning items" ;;
  ret (mk_ItemPage (concat (map to_item page)) more next_after).

Definition load_thread_items (thread_id : string) (limit : option Z)
    (after : option cursor) (order : string) : M ItemPage :=
  try_except
    (load_thread_items_try thread_id limit after order)
    (fun e =>
       logger ERROR "[LOAD_THREAD_ITEMS] Error loading items from thread" ;;
       ret (mk_ItemPage [] false None)).

Definition save_item_try (thread_id : string) (item : Item.t) : M unit :=
  let role := extract_role item in
  let extracted_content := extract_content item "No content" in
  item_id <- final_item_id item ;;
  found <- execute (fun d =>
    List.filter (fun m =>
      (Message.thread_id m =? thread_id)%string
      && (Message.message_id m =? item_id)%string) (messages d)) ;;
  existing_message <- scalar_one_or_none found ;;
  match existing_message with
  | Some m =>
      logger INFO "UPDATED MESSAGE" ;;
      logger DEBUG "   Updated content" ;;
      commit [UpdateMessage (Message.message_id m) role extracted_content]
  | None =>
      rows <- execute (last_sequence thread_id) ;;
      last_seq <- scalar_one_or_none rows ;;
      let next_seq := next_sequence last_seq in
      logger INFO "[INSERTED MESSAGE]" ;;
      logger DEBUG "   Content" ;;
      commit [InsertMessage item_id thread_id role extracted_content next_seq]
  end.

Definition save_item (thread_id : string) (item : Item.t) : M unit :=
  try_except
    (save_item_try thread_id item)
    (fun e =>
       logger ERROR "Error in save_item for thread" ;;
       raise e).

Definition load_item_try (thread_id item_id : string) : M (option loaded_item) :=
  found <- execute (fun d =>
    List.filter (fun m =>
      (Message.thread_id m =? thread_id)%string
      && (Message.message_id m =? item_id)%string) (messages d)) ;;
  message <- scalar_one_or_none found ;;
  ret (match message with
       | Some m => head (to_item m)
       | None => None
       end).

Definition load_item (thread_id item_id : string) : M (option loaded_item) :=
  try_except
    (load_item_try thread_id item_id)
    (fun e =>
       logger ERROR "Error loading item from thread" ;;
       ret None).

Definition delete_thread_item_try (thread_id item_id : string) : M unit :=
  execute (fun _ => tt) ;;
  commit [DeleteMessage thread_id item_id] ;;
  logger DEBUG "Deleted message from thread".

Definition delete_thread_item (thread_id item_id : string) : M unit :=
  try_except
    (delete_thread_item_try thread_id item_id)
    (fun e =>
       logger ERROR "Error deleting item from thread" ;;
       raise e).

(* ===================================================================== *)
(** ** RoboticsChatbotServer.respond (src/chatkit_server/chatkit_server.py) *)
(* ===================================================================== *)

Inductive ThreadStreamEvent :=
| ErrorEvent (message : string) (allow_retry : bool)
| AgentEvent (payload : string).          (* an event relayed from the agent *)

(** How the agent stream ends. *)
Inductive agent_end :=
| Completed
| InputGuardrailTripwireTriggered
| OutputGuardrailTripwireTriggered
| Raised (text : string).

(** One run of the agent: the events it produced before it ended, how it
    ended, and the world it left (it writes to the store as it streams). *)
Record agent_run := mk_agent_run {
  relayed : list ThreadStreamEvent;
  ending : agent_end;
  after_run : world
}.

(** The catch-all of [respond]: classification by fragments of the
    lower-cased exception text. *)
Definition classify (text : string) : ThreadStreamEvent :=
  let error_str := Py.lower text in
  if Py.contains "quota" error_str || Py.contains "insufficient_quota" error_str
  then ErrorEvent "AI quota exceeded. Please try again later." false
  else if Py.contains "rate limit" error_str || Py.contains "429" error_str
  then ErrorEvent "Too many requests. Please wait a moment." true
  else if Py.contains "timeout" error_str || Py.contains "connection" error_str
  then ErrorEvent "Network error. Please check your connection." true
  else ErrorEvent "Something went wrong. Please try again." true.

(** Text of the blocks that have a [text] attribute. *)
Definition attr_text (b : content_block) : string :=
  match b with
  | TextBlock t => t
  | _ => ""
  end.

Definition message_text (blocks : list content_block) : string :=
  fold_left (fun acc b => acc ++ attr_text b)%string blocks "".

Section Respond.

(** The agent runtime ([simple_to_agent_input], [Runner.run_streamed],
    [stream_agent_response]) is an external collaborator. *)
Variable run_agent : ThreadMetadata.t -> list loaded_item -> world -> agent_run.

(** [input] is the [content] of the [UserMessageItem], or [None].  The
    result is the event stream and the world the call leaves. *)
Definition respond (thread : ThreadMetadata.t)
    (input : option (list content_block)) (w : world)
  : list ThreadStreamEvent * world :=
  let w := add_log (INFO, "Processing message") w in
  match input with
  | None =>
      ([ErrorEvent "No message received" false],
       add_log (WARNING, "No input message provided in respond()") w)
  | Some blocks =>
      let message_content := message_text blocks in
      if (message_content =? "")%string
         || (Py.strip message_content =? "")%string
      then ([ErrorEvent "Message content cannot be empty" false],
            add_log (WARNING, "Empty message content received") w)
      else if 100000 <? Py.len message_content
      then ([ErrorEvent
               "Message content exceeds maximum length of 100,000 characters"
               false],
            add_log (WARNING, "Message too long") w)
      else
        match load_thread_items (ThreadMetadata.id thread) (Some 20) None "asc" w with
        | (inl _, w1) =>
            ([ErrorEvent "Something went wrong. Please try again." true],
             add_log (ERROR, "[CRITICAL ERROR] in respond()") w1)
        | (inr items_page, w1) =>
            let run := run_agent thread (data items_page)
                         (add_log (INFO, "[LOADED HISTORY]") w1) in
            match ending run with
            | Completed =>
                (relayed run, add_log (INFO, "[SUCCESS] Completed response") (after_run run))
            | InputGuardrailTripwireTriggered =>
                ((relayed run ++ [ErrorEvent "We blocked that message for safety." false])%list,
                 add_log (WARNING, "Input guardrail triggered") (after_run run))
            | OutputGuardrailTripwireTriggered =>
                ((relayed run ++ [ErrorEvent "The assistant response was blocked." false])%list,
                 add_log (WARNING, "Output guardrail triggered") (after_run run))
            | Raised text =>
                ((relayed run ++ [classify text])%list,
                 add_log (ERROR, "[CRITICAL ERROR] in respond()") (after_run run))
            end
        end
  end.

End Respond.

(* ===================================================================== *)
(** ** rate_limit_middleware (src/middleware/rate_limit.py) *)
(* ===================================================================== *)

Module RateLimit.

Definition RATE_LIMIT_REQUESTS : Z := 60.
(** [timedelta(minutes=1)] *)
Definition RATE_LIMIT_WINDOW : Z := 60000000.

Inductive outcome :=
| Passed
| HTTPException (status_code : Z) (retry_after : Z).

(** [int(delta.total_seconds())]: whole seconds, truncated towards zero. *)
Definition whole_seconds (delta : Z) : Z := Z.quot delta 1000000.

(** [store] is [rate_limit_store]; [now] is the clock read by the
    middleware and [fresh_now] the clock read by the default factory of
    the [defaultdict], used when the user has no entry yet. *)
Definition rate_limit_middleware (user_id : option string) (now fresh_now : Z)
    (store : gmap string (Z * Z)) : outcome * gmap string (Z * Z) :=
  if negb (Py.truthy user_id) then (Passed, store)
  else
    let uid := default "" user_id in
    let store :=
      match store !! uid with
      | Some _ => store
      | None => <[uid := (0, fresh_now)]> store
      end in
    let '(request_count, window_start) := default (0, fresh_now) (store !! uid) in
    if RATE_LIMIT_WINDOW <=? now - window_start
    then (Passed, <[uid := (1, now)]> store)
    else
      let request_count := request_count + 1 in
      let store := <[uid := (request_count, window_start)]> store in
      if RATE_LIMIT_REQUESTS <? request_count
      then
        let window_end := window_start + RATE_LIMIT_WINDOW in
        let retry_after := whole_seconds (window_end - now) in
        (HTTPException 429 retry_after, store)
      else (Passed, store).

(** Requests of one user, one after the other, each at its own time. *)
Fixpoint serve (user_id : string) (times : list Z) (store : gmap string (Z * Z))
  : list outcome * gmap string (Z * Z) :=
  match times with
  | [] => ([], store)
  | t :: rest =>
      let '(o, store') := rate_limit_middleware (Some user_id) t t store in
      let '(os, store'') := serve user_id rest store' in
      (o :: os, store'')
  end.

(** How a request opens the window that starts at [ws]: the user had no
    entry (the default factory read [f], not before [t]), or the previous
    window had run out. *)
Definition opens_window (u : string) (s : gmap string (Z * Z)) (t f ws : Z) : Prop :=
  (s !! u = None /\ t <= f /\ ws = f)
  \/ (exists c w0, s !! u = Some (c, w0)
                   /\ RATE_LIMIT_WINDOW <= t - w0 /\ ws = t).

End RateLimit.


(* ===================================================================== *)
(** ** ChatKit sessions (src/routers/chatkit_session.py) *)
(* ===================================================================== *)

(** The module state is threaded through the calls; the clock and the
    token source are inputs.  Log lines are left out. *)
Module Session.

(** A value of [_session_store]. *)
Record session := mk_session {
  user_id : string;
  created_at : Z;
  expires_at : Z
}.

(** A Python [dict] with string keys: its entries in insertion order. *)
Definition dict (V : Type) : Type := list (string * V).

(** [d.get(k)] *)
Fixpoint dict_get {V} (k : string) (d : dict V) : option V :=
  match d with
  | [] => None
  | (k', v) :: rest => if (k' =? k)%string then Some v else dict_get k rest
  end.

(** [d[k] = v]: a key that is present keeps its place, a new one goes last. *)
Fixpoint dict_set {V} (k : string) (v : V) (d : dict V) : dict V :=
  match d with
  | [] => [(k, v)]
  | (k', v') :: rest =>
      if (k' =? k)%string then (k, v) :: rest else (k', v') :: dict_set k v rest
  end.

(** [del d[k]]; [None] stands for [KeyError]. *)
Fixpoint dict_del {V} (k : string) (d : dict V) : option (dict V) :=
  match d with
  | [] => None
  | (k', v) :: rest =>
      if (k' =? k)%string then Some rest else cons (k', v) <$> dict_del k rest
  end.

(** The module state and its surroundings: [_session_store], what the
    successive calls of [datetime.utcnow()] return (microseconds) and what
    the successive calls of [secrets.token_urlsafe(32)] return. *)
Record state := mk_state {
  session_store : dict session;
  clock : nat -> Z;
  ticks : nat;
  tokens : nat -> string;
  drawn : nat
}.

Definition set_store (d : dict session) (s : state) : state :=
  mk_state d (clock s) (ticks s) (tokens s) (drawn s).

Inductive error :=
| KeyError (key : string)
| HTTPException (status_code : Z) (detail : string).

(** Bodies of the three successful answers ([JSONResponse] with status
    200): of [create_session] and [refresh_session], of [delete_session]
    and of [get_session_info]. *)
Inductive content :=
| Issued (client_secret : string) (expires_in : Z) (user_id : string) (stamp : Z)
| Deleted (user_id : string)
| Info (user_id : string) (active_sessions : Z) (sessions : list (string * Z * Z)).

Definition op (A : Type) : Type := state -> (error + A) * state.

Definition ret {A} (a : A) : op A := fun s => (inr a, s).

Definition bind {A B} (m : op A) (k : A -> op B) : op B :=
  fun s =>
    match m s with
    | (inl e, s') => (inl e, s')
    | (inr a, s') => k a s'
    end.

Definition raise {A} (e : error) : op A := fun s => (inl e, s).

Definition try_except {A} (body : op A) (handler : error -> op A) : op A :=
  fun s =>
    match body s with
    | (inl e, s') => handler e s'
    | (inr a, s') => (inr a, s')
    end.

Declare Scope session_scope.
Delimit Scope session_scope with session.
Notation "x <- c ;; k" := (bind c (fun x => k))
  (at level 100, c at next level, right associativity) : session_scope.
Notation "c ;; k" := (bind c (fun _ => k))
  (at level 100, right associativity) : session_scope.
Local Open Scope session_scope.

(** [datetime.utcnow()] *)
Definition utcnow : op Z :=
  fun s => (inr (clock s (ticks s)),
            mk_state (session_store s) (clock s) (S (ticks s)) (tokens s) (drawn s)).

(** [secrets.token_urlsafe(32)] *)
Definition token_urlsafe : op string :=
  fun s => (inr (tokens s (drawn s)),
            mk_state (session_store s) (clock s) (ticks s) (tokens s) (S (drawn s))).

Definition read_store : op (dict session) := fun s => (inr (session_store s), s).

(** [_session_store[k] = v] *)
Definition store_set (k : string) (v : session) : op unit :=
  fun s => (inr tt, set_store (dict_set k v (session_store s)) s).

(** [del _session_store[k]] *)
Definition store_del (k : string) : op unit :=
  fun s =>
    match dict_del k (session_store s) with
    | Some d => (inr tt, set_store d s)
    | None => (inl (KeyError k), s)
    end.

(** [for key in keys: del _session_store[key]] *)
Fixpoint del_each (keys : list string) : op unit :=
  match keys with
  | [] => ret tt
  | k :: rest => store_del k ;; del_each rest
  end.

(** [timedelta(hours=h)] *)
Definition hours (h : Z) : Z := h * 3600000000.

Definition cleanup_expired_sessions : op unit :=
  now <- utcnow ;;
  d <- read_store ;;
  let expired := map fst (List.filter (fun kv => expires_at (snd kv) <? now) d) in
  del_each expired.

Definition generate_client_secret (user_id : string) (ttl_hours : Z) : op string :=
  cleanup_expired_sessions ;;
  token <- token_urlsafe ;;
  let client_secret := ("cs_" ++ token)%string in
  created <- utcnow ;;
  now <- utcnow ;;
  store_set client_secret (mk_session user_id created (now + hours ttl_hours)) ;;
  ret client_secret.

Definition validate_client_secret (client_secret : string) : op (option string) :=
  cleanup_expired_sessions ;;
  d <- read_store ;;
  match dict_get client_secret d with
  | None => ret None
  | Some session =>
      now <- utcnow ;;
      if expires_at session <? now
      then store_del client_secret ;; ret None
      else ret (Some (user_id session))
  end.

(** [user_id] is what [optional_auth_middleware] resolved. *)
Definition create_session (user_id : string) : op content :=
  try_except
    (client_secret <- generate_client_secret user_id 24 ;;
     stamp <- utcnow ;;
     ret (Issued client_secret 86400 user_id stamp))
    (fun _ => raise (HTTPException 500 "Failed to create ChatKit session")).

(** [user_id] is what [auth_middleware] resolved. *)
Definition refresh_session (client_secret user_id : string) : op content :=
  try_except
    (session_user_id <- validate_client_secret client_secret ;;
     if negb (Py.truthy session_user_id)
        || negb (default "" session_user_id =? user_id)%string
     then raise (HTTPException 401 "Invalid or expired client secret")
     else
       store_del client_secret ;;
       new_client_secret <- generate_client_secret user_id 24 ;;
       stamp <- utcnow ;;
       ret (Issued new_client_secret 86400 user_id stamp))
    (fun e =>
       match e with
       | HTTPException _ _ => raise e
       | _ => raise (HTTPException 500 "Failed to refresh ChatKit session")
       end).

Definition delete_session (client_secret user_id : string) : op content :=
  try_except
    (session_user_id <- validate_client_secret client_secret ;;
     if negb (Py.truthy session_user_id)
        || negb (default "" session_user_id =? user_id)%string
     then raise (HTTPException 401 "Invalid or expired client secret")
     else
       store_del client_secret ;;
       ret (Deleted user_id))
    (fun e =>
       match e with
       | HTTPException _ _ => raise e
       | _ => raise (HTTPException 500 "Failed to delete ChatKit session")
       end).

Definition get_session_info (user_id : string) : op content :=
  try_except
    (cleanup_expired_sessions ;;
     d <- read_store ;;
     let active_sessions :=
       map (fun kv => ((Py.prefix 10 (fst kv) ++ "...")%string,
                       created_at (snd kv), expires_at (snd kv)))
           (List.filter (fun kv => (Session.user_id (snd kv) =? user_id)%string) d) in
     ret (Info user_id (Z.of_nat (length active_sessions)) active_sessions))
    (fun _ => raise (HTTPException 500 "Failed to get session info")).

(** The entries of [d] that have not expired at [now], in their order. *)
Definition alive (now : Z) (d : dict session) : dict session :=
  List.filter (fun kv => negb (expires_at (snd kv) <? now)) d.

(** The same module state observed later: the clock and the token source
    have moved on. *)
Definition later (ticks' drawn' : nat) (s : state) : state :=
  mk_state (session_store s) (clock s) ticks' (tokens s) drawn'.

End Session.


(* ===================================================================== *)
(** ** Authentication (src/middleware/auth.py) and the ChatKit endpoint
       (src/main.py) *)
(* ===================================================================== *)

(** The authentication service is an input of the model: a function from
    the token it is sent to the way the request ends.  Log lines are left
    out. *)
Module Auth.

(** What [response.json()] gives, as far as [validate_session] looks at
    it: a falsy value, a value without "user", a dict whose "user" has an
    "id" or has none ([session_data["user"]["id"]] raises), or no value at
    all ([json()] or the membership test raises). *)
Inductive body :=
| Falsy
| NoUser
| User (id : option string)
| Unreadable.

(** How the request to the authentication service ends. *)
Inductive reply :=
| Answered (status_code : Z) (session_data : body)
| TimeoutException
| OtherException.

Inductive error := HTTPException (status_code : Z) (detail : string).

(** [request.state] *)
Record state := mk_state {
  user_id : option string;
  is_authenticated : option bool
}.

(** [authority] is the authentication service: the reply it gives to a
    session token. *)
Definition validate_session (authority : string -> reply) (session_token : string)
  : error + string :=
  match authority session_token with
  | Answered status_code session_data =>
      if negb (status_code =? 200)
      then inl (HTTPException 401 "Invalid or expired session token")
      else
        match session_data with
        | Unreadable => inl (HTTPException 500 "Session validation failed")
        | Falsy | NoUser => inl (HTTPException 401 "Invalid session data")
        | User None => inl (HTTPException 500 "Session validation failed")
        | User (Some id) => inr id
        end
  | TimeoutException => inl (HTTPException 503 "Authentication service unavailable")
  | OtherException => inl (HTTPException 500 "Session validation failed")
  end.

(** [credentials] is [credentials.credentials]; the result is what the
    dependency returns and the request state it leaves. *)
Definition auth_middleware (authority : string -> reply) (credentials : string)
    (st : state) : (error + string) * state :=
  match validate_session authority credentials with
  | inl e => (inl e, st)
  | inr uid => (inr uid, mk_state (Some uid) (is_authenticated st))
  end.

Definition optional_auth_middleware (authority : string -> reply)
    (credentials : option string) (st : state) : string * state :=
  let anonymous_id := "anonymous_demo_user" in
  match credentials with
  | Some session_token =>
      match validate_session authority session_token with
      | inr uid => (uid, mk_state (Some uid) (Some true))
      | inl _ => (anonymous_id, mk_state (Some anonymous_id) (Some false))
      end
  | None => (anonymous_id, mk_state (Some anonymous_id) (Some false))
  end.

End Auth.

Module Endpoint.

(** How a call of [chatkit_endpoint] ends: a [JSONResponse] with status 401
    and its "type", the [HTTPException] of the rate limiter, the response
    made of the result of [robotics_chatbot_server.process], or a
    [JSONResponse] with status 500 and the text of the exception. *)
Inductive outcome (R : Type) :=
| Unauthorized (type : string)
| TooManyRequests (retry_after : Z)
| Processed (result : R)
| InternalError (message : string).
Arguments Unauthorized {R}.
Arguments TooManyRequests {R}.
Arguments Processed {R}.
Arguments InternalError {R}.

Section Endpoint.

Context {R : Type}.
(** The authentication service, and [robotics_chatbot_server.process] on
    the request body and the context: a result, or the text of the
    exception it raises. *)
Variable authority : string -> Auth.reply.
Variable process : string -> gmap string string -> string + R.

(** [auth_header] is [request.headers.get("Authorization")]; [now] and
    [fresh_now] are the clock readings of the rate limiter. *)
Definition chatkit_endpoint (auth_header : option string) (body : string)
    (now fresh_now : Z) (store : gmap string (Z * Z))
  : outcome R * gmap string (Z * Z) :=
  if negb (Py.truthy auth_header)
     || negb (Py.startswith "Bearer " (default "" auth_header))
  then (Unauthorized "authentication_required", store)
  else
    let session_token := Py.replace "Bearer " "" (default "" auth_header) in
    match Auth.validate_session authority session_token with
    | inl _ => (Unauthorized "authentication_failed", store)
    | inr user_id =>
        match RateLimit.rate_limit_middleware (Some user_id) now fresh_now store with
        | (RateLimit.HTTPException _ retry_after, store') =>
            (TooManyRequests retry_after, store')
        | (RateLimit.Passed, store') =>
            let context := {["user_id" := user_id]} in
            match process body context with
            | inr result => (Processed result, store')
            | inl e => (InternalError e, store')
            end
        end
    end.

End Endpoint.

End Endpoint.


(* ===================================================================== *)
(** ** Settings (src/config.py) *)
(* ===================================================================== *)

(** [Settings.cors_origins_list], of the setting [cors_origins]. *)
Definition cors_origins_list (cors_origins : string) : list string :=
  map Py.strip (Py.split "," cors_origins).

(** The character [sep] does not occur in [s]. *)
Fixpoint free_of (sep : ascii) (s : string) : bool :=
  match s with
  | EmptyString => true
  | String c rest => negb (Ascii.eqb c sep) && free_of sep rest
  end.


(* ===================================================================== *)
(** ** Callers of the store *)
(* ===================================================================== *)

(** Input that the validation step of [respond] is meant to reject: no
    message, text that is empty or only whitespace, or text longer than
    100,000 characters. *)
Definition invalid_input (input : option (list content_block)) : Prop :=
  match input with
  | None => True
  | Some blocks =>
      message_text blocks = ""
      \/ Py.strip (message_text blocks) = ""
      \/ 100000 < Py.len (message_text blocks)
  end.

(** A single writer appending to one thread: the calls follow one another,
    each at its own time, and stop at the first one that raises. *)
Fixpoint append_all (thread_id : string) (steps : list (Z * Item.t)) : M unit :=
  match steps with
  | [] => ret tt
  | (t, item) :: rest =>
      (fun w => add_thread_item thread_id item (at_time t w)) ;;
      append_all thread_id rest
  end.

(** A client paging through a thread in ascending order: it asks for
    [limit] items, then follows the cursor of each page while [has_more]
    is set.  [fuel] bounds the number of requests. *)
Fixpoint list_all (fuel : nat) (thread_id : string) (limit : Z)
    (start : option cursor) (w : world) : option (list ItemPage) :=
  match fuel with
  | O => None
  | S fuel' =>
      match load_thread_items thread_id (Some limit) start "asc" w with
      | (inl _, _) => None
      | (inr page, w') =>
          if has_more page
          then cons page <$>
                 list_all fuel' thread_id limit (CursorStr <$> after page) w'
          else Some [page]
      end
  end.

(* ===================================================================== *)
(** ** Sample data *)
(* ===================================================================== *)

Module Sample.

Definition alice : string := "aaaaaaaa-aaaa-4aaa-8aaa-aaaaaaaaaaaa".
Definition bob : string := "bbbbbbbb-bbbb-4bbb-8bbb-bbbbbbbbbbbb".
Definition thread1 : string := "11111111-1111-4111-8111-111111111111".
Definition m1 : string := "00000000-0000-4000-8000-0000000000a1".
Definition m2 : string := "00000000-0000-4000-8000-0000000000a2".
Definition m3 : string := "00000000-0000-4000-8000-0000000000a3".

Definition draws (n : nat) : string :=
  match n with
  | 0%nat => "00000000-0000-4000-8000-0000000000f0"
  | 1%nat => "00000000-0000-4000-8000-0000000000f1"
  | _ => "00000000-0000-4000-8000-0000000000f2"
  end.

(** Alice's thread, created at time 10, without a title. *)
Definition untitled : Thread.t := Thread.mk thread1 alice None ∅ 10 10.

Definition user_says (id text : string) : Item.t :=
  Item.mk UserMessageItem id (Some (RawList [TextBlock text] "[...]")).
Definition assistant_says (id text : string) : Item.t :=
  Item.mk AssistantMessageItem id (Some (RawList [TextBlock text] "[...]")).

(** A healthy store at time 100 holding [rows] in Alice's thread. *)
Definition world_with (t : Thread.t) (rows : list Message.t) : world :=
  mk_world (mk_database [t] rows) None [] draws 0 100 100.

Definition first_row : Message.t :=
  Message.mk m1 thread1 "user" "What is a Jacobian?" 1 20.

Definition three_rows : list Message.t :=
  [first_row;
   Message.mk m2 thread1 "assistant" "A matrix of partial derivatives." 2 21;
   Message.mk m3 thread1 "user" "Thanks" 3 22].

(** A first message whose fiftieth character is a space. *)
Definition long_question : string :=
  "Explain forward kinematics in detail please, then DH parameters and Jacobians".

(** An agent that produces nothing: no events, no writes. *)
Definition silent_agent (_ : ThreadMetadata.t) (_ : list loaded_item) (w : world)
  : agent_run := mk_agent_run [] Completed w.

End Sample.

(** Exceptions that come from the storage layer: a failed round trip, a
    rejected statement or row, or a scalar query that found two rows. *)
Definition storage_layer (e : exn) : Prop :=
  match e with
  | OperationalError | IntegrityError _ | DataError _ | MultipleResultsFound => True
  | _ => False
  end.

(** The store with its connection down: the next round trip fails. *)
Definition unreachable (w : world) : world := set_faults (Some 0%nat) w.

(* ===================================================================== *)
(** ** Reasoning about runs *)
(* ===================================================================== *)

(** [wp m w Q]: running [m] in [w] ends in a result and a world that
    satisfy [Q]. *)
Definition wp {A} (m : M A) (w : world) (Q : exn + A -> world -> Prop) : Prop :=
  Q (fst (m w)) (snd (m w)).

(** The statements a successful [add_thread_item] commits, read off the
    tables [d]: the new row with the next sequence number and, for the
    first message of a thread when it is a user's, the title of a thread
    that has none. *)
Definition title_change (thread_id : string) (item : Item.t) (d : database)
  : list change :=
  if (next_sequence (head (last_sequence thread_id d)) =? 1)
     && (extract_role item =? "user")%string
  then
    match List.filter (fun t => (Thread.thread_id t =? thread_id)%string) (threads d) with
    | [t] =>
        if negb (Py.truthy (Thread.title t))
        then [SetTitle (Thread.thread_id t)
                (derive_title (extract_content item "Attribute content missing"))]
        else []
    | _ => []
    end
  else [].

Definition stored_id (item : Item.t) (w : world) : string :=
  if (Item.id item =? "__fake_id__")%string
  then uuid4_draws w (uuid4_count w)
  else Item.id item.

Definition append_changes (thread_id : string) (item : Item.t) (w : world)
  : list change :=
  InsertMessage (stored_id item w) thread_id (extract_role item)
    (extract_content item "Attribute content missing")
    (next_sequence (head (last_sequence thread_id (db w))))
  :: title_change thread_id item (db w).

(** The statement a successful [save_item] commits. *)
Definition upsert_changes (thread_id : string) (item : Item.t) (w : world)
  : list change :=
  match List.filter (fun m => (Message.thread_id m =? thread_id)%string
                              && (Message.message_id m =? stored_id item w)%string)
                    (messages (db w)) with
  | m :: _ =>
      [UpdateMessage (Message.message_id m) (extract_role item)
         (extract_content item "No content")]
  | [] =>
      [InsertMessage (stored_id item w) thread_id (extract_role item)
         (extract_content item "No content")
         (next_sequence (head (last_sequence thread_id (db w))))]
  end.

(** The rows of one thread, in table order. *)
Definition thread_rows (thread_id : string) (d : database) : list Message.t :=
  List.filter (fun m => (Message.thread_id m =? thread_id)%string) (messages d).

(** The item [load_thread_items] builds from a row whose role is one of
    the two the table admits. *)
Definition loaded (m : Message.t) : loaded_item :=
  if (Message.role m =? "user")%string
  then LoadedUserMessage (Message.message_id m) (Message.thread_id m)
                         (Message.created_at m) (Message.content m)
  else LoadedAssistantMessage (Message.message_id m) (Message.thread_id m)
                              (Message.created_at m) (Message.content m).

(** The page [load_thread_items] makes of the rows its query selects. *)
Definition page_of (limit : Z) (rows : list Message.t) : ItemPage :=
  let more := limit <? Z.of_nat (length rows) in
  let page := take (Z.to_nat limit) rows in
  mk_ItemPage (concat (map to_item page)) more
              (if more then Message.message_id <$> last page else None).

(** What the schema guarantees of table [messages]: the primary key, the
    unique constraint on (thread, sequence number), the checks on role and
    sequence number, and identifiers that are UUIDs, read back in their
    canonical rendering. *)
Record messages_ok (d : database) : Prop := {
  messages_pkey : NoDup (map Message.message_id (messages d));
  uq_messages_thread_sequence :
    NoDup (map (fun m => (Message.thread_id m, Message.sequence_number m)) (messages d));
  chk_messages :
    Forall (fun m => chk_messages_role (Message.role m) = true
                     /\ chk_messages_sequence_positive (Message.sequence_number m) = true)
           (messages d);
  uuid_message_id : Forall (fun m => Py.is_uuid (Message.message_id m) = true) (messages d)
}.

(** Where a client paging through [rows] stands after [k] of them: without
    a cursor at the start, with the identifier of row [k - 1] afterwards. *)
Definition cursor_at (rows : list Message.t) (k : nat) (c : option cursor) : Prop :=
  match k with
  | O => c = None
  | S k' =>
      exists m, rows !! k' = Some m /\ c = Some (CursorStr (Message.message_id m))
  end.

(** Every character of [s] satisfies [p]. *)
Fixpoint all_chars (p : ascii -> bool) (s : string) : bool :=
  match s with
  | EmptyString => true
  | String c rest => p c && all_chars p rest
  end.

(** The text has a character that is neither a digit nor an underscore
    before its end. *)
Fixpoint not_numeral (s : string) : bool :=
  match s with
  | EmptyString => false
  | String c rest => (negb (Py.isdigit c) && negb (Ascii.eqb c "_")) || not_numeral rest
  end.

(* ===================================================================== *)
(** ** Notions used by the further properties *)
(* ===================================================================== *)

(** The user a new thread is filed under by [save_thread]: the "user_id"
    of its metadata or, when that is missing or empty, of the request
    context. *)
Definition names_owner (thread : ThreadMetadata.t) (ctx : context) (u : string) : Prop :=
  u <> ""
  /\ (ThreadMetadata.metadata thread !! "user_id" = Some u
      \/ (Py.truthy (ThreadMetadata.metadata thread !! "user_id") = false
          /\ exists c, ctx = Some c /\ c !! "user_id" = Some u)).

(** The row [save_thread] inserts for a thread filed under [u] at [now]. *)
Definition new_thread_row (thread : ThreadMetadata.t) (u : string) (now : Z) : Thread.t :=
  Thread.mk (ThreadMetadata.id thread) u
            (ThreadMetadata.metadata thread !! "title")
            (<["user_id" := u]> (ThreadMetadata.metadata thread))
            (ThreadMetadata.created_at thread) now.

(** What the schema of src/models guarantees of the two tables together:
    the primary keys, the unique constraint on (thread, sequence number),
    the check constraints, the length of the title column and the foreign
    key from a message to its thread. *)
Record schema_ok (d : database) : Prop := {
  pk_threads : NoDup (map Thread.thread_id (threads d));
  pk_messages : NoDup (map Message.message_id (messages d));
  uq_thread_sequence :
    NoDup (map (fun m => (Message.thread_id m, Message.sequence_number m)) (messages d));
  ck_threads :
    Forall (fun t => chk_threads_timestamps t = true /\ title_fits t = true) (threads d);
  ck_messages :
    Forall (fun m => chk_messages_role (Message.role m) = true
                     /\ chk_messages_content_length (Message.content m) = true
                     /\ chk_messages_sequence_positive (Message.sequence_number m) = true)
           (messages d);
  fk_messages_thread :
    Forall (fun m => has_thread (Message.thread_id m) d = true) (messages d)
}.

(** The events [respond] itself adds after the relayed ones, by the way
    the agent stream ended. *)
Definition closing (e : agent_end) : list ThreadStreamEvent :=
  match e with
  | Completed => []
  | InputGuardrailTripwireTriggered => [ErrorEvent "We blocked that message for safety." false]
  | OutputGuardrailTripwireTriggered => [ErrorEvent "The assistant response was blocked." false]
  | Raised text => [classify text]
  end.
(* ===================================================================== *)
(** * Properties *)
(* ===================================================================== *)

(** ** Python built-ins *)

Example strip_both_ends : Py.strip "  two words  " = "two words".
Proof. reflexivity. Qed.

Example int_accepts_numerals :
  (Py.int " 42 ", Py.int "-1_000", Py.int "+7") = (Some 42, Some (-1000), Some 7).
Proof. reflexivity. Qed.

Example int_rejects_the_rest :
  (Py.int "", Py.int "1__0", Py.int "12a", Py.int Sample.m1) = (None, None, None, None).
Proof. reflexivity. Qed.

Example sample_ids_are_uuids :
  forallb Py.is_uuid [Sample.alice; Sample.bob; Sample.thread1; Sample.m1; Sample.draws 0]
  = true.
Proof. reflexivity. Qed.

Example title_of_a_long_question :
  derive_title
    "Explain forward kinematics in detail please, covering DH parameters, Jacobians, and singularities comprehensively"
  = "Explain forward kinematics in detail please, cover...".
Proof. reflexivity. Qed.

Example classify_by_fragment :
  (classify "Error code: 429 - Too Many Requests",
   classify "You exceeded your current QUOTA",
   classify "Connection reset by peer",
   classify "boom")
  = (ErrorEvent "Too many requests. Please wait a moment." true,
     ErrorEvent "AI quota exceeded. Please try again later." false,
     ErrorEvent "Network error. Please check your connection." true,
     ErrorEvent "Something went wrong. Please try again." true).
Proof. reflexivity. Qed.

Lemma truthy_Some (s : string) : s ≠ "" -> Py.truthy (Some s) = true.
Proof.
  intros Hs. unfold Py.truthy.
  destruct (String.eqb_spec s "") as [E | _]; [contradiction | reflexivity].
Qed.

(** ** The rate limiter *)

Section RateLimitFacts.

Import RateLimit.

Variable u : string.
Hypothesis u_named : u ≠ "".

(** The user's current window is [(c, ws)] and [t] falls before its end:
    the request is counted, and passes while the count stays within the
    threshold. *)
Lemma rate_limit_counts (s : gmap string (Z * Z)) (c ws t f : Z) :
  s !! u = Some (c, ws) ->
  t - ws < RATE_LIMIT_WINDOW ->
  rate_limit_middleware (Some u) t f s =
    (if RATE_LIMIT_REQUESTS <? c + 1
     then HTTPException 429 (whole_seconds (ws + RATE_LIMIT_WINDOW - t))
     else Passed,
     <[u := (c + 1, ws)]> s).
Proof.
  intros Hs Ht. unfold rate_limit_middleware.
  rewrite (truthy_Some u u_named). simpl negb. cbv iota.
  simpl default. rewrite Hs. cbv iota. rewrite Hs. simpl default. cbv iota beta.
  destruct (Z.leb_spec RATE_LIMIT_WINDOW (t - ws)) as [Hge | _]; [lia |].
  destruct (RATE_LIMIT_REQUESTS <? c + 1); reflexivity.
Qed.

(** The window has run out: the request passes and opens a new one. *)
Lemma rate_limit_resets (s : gmap string (Z * Z)) (c ws t f : Z) :
  s !! u = Some (c, ws) ->
  RATE_LIMIT_WINDOW <= t - ws ->
  rate_limit_middleware (Some u) t f s = (Passed, <[u := (1, t)]> s).
Proof.
  intros Hs Ht. unfold rate_limit_middleware.
  rewrite (truthy_Some u u_named). simpl negb. cbv iota.
  simpl default. rewrite Hs. cbv iota. rewrite Hs. simpl default. cbv iota beta.
  destruct (Z.leb_spec RATE_LIMIT_WINDOW (t - ws)) as [_ | Hlt]; [reflexivity | lia].
Qed.

(** A user without an entry: the default factory creates [(0, f)], and the
    request is the first of the window that starts at [f]. *)
Lemma rate_limit_first (s : gmap string (Z * Z)) (t f : Z) :
  s !! u = None ->
  t - f < RATE_LIMIT_WINDOW ->
  rate_limit_middleware (Some u) t f s = (Passed, <[u := (1, f)]> s).
Proof.
  intros Hs Ht. unfold rate_limit_middleware.
  rewrite (truthy_Some u u_named). simpl negb. cbv iota.
  simpl default. rewrite Hs. cbv iota. rewrite lookup_insert_eq.
  simpl default. cbv iota beta.
  destruct (Z.leb_spec RATE_LIMIT_WINDOW (t - f)) as [Hge | _]; [lia |].
  change (RATE_LIMIT_REQUESTS <? 0 + 1) with false. cbv iota.
  rewrite insert_insert_eq. reflexivity.
Qed.

(** Requests inside the window all pass as long as the threshold is not
    crossed, and each is counted. *)
Lemma serve_within (times : list Z) :
  forall (s : gmap string (Z * Z)) (c ws : Z),
    s !! u = Some (c, ws) ->
    Forall (fun t => t - ws < RATE_LIMIT_WINDOW) times ->
    c + Z.of_nat (length times) <= RATE_LIMIT_REQUESTS ->
    exists s',
      serve u times s = (replicate (length times) Passed, s')
      /\ s' !! u = Some (c + Z.of_nat (length times), ws).
Proof.
  induction times as [| t rest IH]; intros s c ws Hs Hin Hc.
  - exists s. split; [reflexivity |]. rewrite Hs. simpl. do 2 f_equal. lia.
  - inversion Hin as [| ? ? Ht Hrest]; subst.
    simpl length in *.
    destruct (IH (<[u := (c + 1, ws)]> s) (c + 1) ws) as (s' & Hrun & Hlook).
    + apply lookup_insert_eq.
    + assumption.
    + lia.
    + exists s'. split.
      * simpl serve. rewrite (rate_limit_counts s c ws t t Hs Ht).
        destruct (Z.ltb_spec RATE_LIMIT_REQUESTS (c + 1)) as [Hgt | _]; [lia |].
        rewrite Hrun. reflexivity.
      * rewrite Hlook. do 2 f_equal. lia.
Qed.

Lemma opening_request (s : gmap string (Z * Z)) (t f ws : Z) :
  opens_window u s t f ws ->
  rate_limit_middleware (Some u) t f s = (Passed, <[u := (1, ws)]> s).
Proof.
  intros [(Hs & Hf & ->) | (c & w0 & Hs & Hw & ->)].
  - apply rate_limit_first; [assumption |]. unfold RATE_LIMIT_WINDOW. lia.
  - eapply rate_limit_resets; eassumption.
Qed.


End RateLimitFacts.


(** ** Running the store monad *)

Lemma execute_run {A} (q : database -> A) (w : world) :
  execute q w =
    match faults w with
    | None => (inr (q (db w)), w)
    | Some (S k) => (inr (q (db w)), set_faults (Some k) w)
    | Some O => (inl OperationalError, w)
    end.
Proof. unfold execute, bind, round_trip. destruct (faults w) as [[| k] |]; reflexivity. Qed.

Lemma commit_run (pending : list change) (w : world) :
  commit pending w =
    match faults w with
    | Some O => (inl OperationalError, w)
    | budget =>
        let w1 := match budget with Some (S k) => set_faults (Some k) w | _ => w end in
        match flush (db_now w) (db w) pending with
        | inl e => (inl e, w1)
        | inr d => (inr tt, set_db d w1)
        end
    end.
Proof. unfold commit, bind, round_trip. destruct (faults w) as [[| k] |]; reflexivity. Qed.

(** Rows are identified by their key: two rows of a table without
    duplicate keys that agree on the key are the same row. *)
Lemma NoDup_key_eq {A K} (key : A -> K) (l : list A) (x y : A) :
  NoDup (map key l) -> In x l -> In y l -> key x = key y -> x = y.
Proof.
  induction l as [| a l IH]; simpl; intros Hnd Hx Hy Hk; [contradiction |].
  apply NoDup_cons in Hnd as [Hna Hnd].
  destruct Hx as [-> | Hx], Hy as [-> | Hy].
  - reflexivity.
  - exfalso. apply Hna. rewrite Hk. apply list_elem_of_In, in_map, Hy.
  - exfalso. apply Hna. rewrite <- Hk. apply list_elem_of_In, in_map, Hx.
  - apply IH; assumption.
Qed.

Lemma filter_nil_iff {A} (p : A -> bool) (l : list A) :
  List.filter p l = [] <-> (forall x, In x l -> p x = false).
Proof.
  induction l as [| a l IH]; simpl.
  - split; [intros _ x [] | reflexivity].
  - destruct (p a) eqn:Ha.
    + split; [discriminate |]. intros H. specialize (H a (or_introl eq_refl)). congruence.
    + rewrite IH. split.
      * intros H x [-> | Hx]; [assumption | apply H, Hx].
      * intros H x Hx. apply H. right. exact Hx.
Qed.

(** Unfolds one layer of the store monad and the world projections. *)
Ltac store_simpl :=
  cbv beta iota zeta delta
    [bind execute round_trip logger ret raise try_except datetime_utcnow uuid4
     commit scalar_one_or_none];
  cbn [db faults log utcnow db_now uuid4_draws uuid4_count
       add_log set_faults set_db next_uuid fst snd default from_option id negb].

(** ** Ownership isolation *)

Section Ownership.

Variable w : world.
Variable t : Thread.t.
Variable B : string.

(** [threads_pkey]: thread identifiers are unique. *)
Hypothesis threads_pkey : NoDup (map Thread.thread_id (threads (db w))).
Hypothesis stored : In t (threads (db w)).
Hypothesis B_named : B ≠ "".
Hypothesis foreign : Thread.user_id t ≠ B.

Let owned_by_B (t' : Thread.t) : bool :=
  (Thread.thread_id t' =? Thread.thread_id t)%string
  && (Thread.user_id t' =? B)%string.

Lemma foreign_query_empty : List.filter owned_by_B (threads (db w)) = [].
Proof.
  apply filter_nil_iff. intros t' Hin'. unfold owned_by_B.
  destruct (String.eqb_spec (Thread.thread_id t') (Thread.thread_id t)) as [E | _];
    [| reflexivity].
  rewrite (NoDup_key_eq Thread.thread_id _ t' t threads_pkey Hin' stored E).
  simpl. apply String.eqb_neq. exact foreign.
Qed.

Lemma absent_query_empty (d : database) :
  has_thread (Thread.thread_id t) d = false ->
  List.filter owned_by_B (threads d) = [].
Proof.
  unfold has_thread. intros Hnone. apply filter_nil_iff. intros t' Hin'.
  unfold owned_by_B.
  destruct (String.eqb_spec (Thread.thread_id t') (Thread.thread_id t)) as [E | _];
    [| reflexivity].
  exfalso.
  assert (Hex : existsb (fun x => (Thread.thread_id x =? Thread.thread_id t)%string)
                        (threads d) = true).
  { apply existsb_exists. exists t'. split; [exact Hin' |].
    apply String.eqb_eq. exact E. }
  congruence.
Qed.

(** What [load_thread] answers and logs when the ownership query finds no
    row, whatever the tables [d] otherwise hold. *)
Lemma load_thread_no_row (d : database) :
  List.filter owned_by_B (threads d) = [] ->
  fst (load_thread (Thread.thread_id t) (Some B) (set_db d w)) = inr None
  /\ log (snd (load_thread (Thread.thread_id t) (Some B) (set_db d w)))
     = (log w ++ [(INFO, "[LOAD_THREAD] Loading thread metadata");
                  match faults w with
                  | Some O => (ERROR, "[LOAD_THREAD] Error loading thread")
                  | _ => (WARNING, "[LOAD_THREAD] Thread not found or unauthorized")
                  end])%list.
Proof.
  unfold owned_by_B. intros Hd.
  unfold load_thread, load_thread_try. store_simpl.
  rewrite (truthy_Some B B_named). store_simpl.
  destruct (faults w) as [[| k] |]; store_simpl; rewrite ?Hd; store_simpl;
    rewrite <- app_assoc; split; reflexivity.
Qed.


End Ownership.


(** ** Input validation of the response orchestrator *)

Section Validation.

Variable run_agent : ThreadMetadata.t -> list loaded_item -> world -> agent_run.
Variable thread : ThreadMetadata.t.

(** C6.  Whenever the input is missing, or its text is empty, only
    whitespace, or longer than 100,000 characters, the event stream of
    [respond] is exactly one [ErrorEvent] with [allow_retry = False], the
    agent is not run, and both tables are left as they were: nothing is
    persisted. *)
Theorem respond_rejects_invalid_input (input : option (list content_block)) (w : world) :
  invalid_input input ->
  exists message,
    fst (respond run_agent thread input w) = [ErrorEvent message false]
    /\ db (snd (respond run_agent thread input w)) = db w
    /\ uuid4_count (snd (respond run_agent thread input w)) = uuid4_count w.
Proof.
  unfold invalid_input, respond. destruct input as [blocks |].
  - intros Hbad.
    destruct ((message_text blocks =? "")%string
              || (Py.strip (message_text blocks) =? "")%string) eqn:Hempty.
    + eexists. repeat split.
    + apply orb_false_elim in Hempty as [He Hs].
      apply String.eqb_neq in He, Hs.
      destruct Hbad as [Hbad | [Hbad | Hlong]]; [contradiction | contradiction |].
      apply Z.ltb_lt in Hlong. rewrite Hlong.
      eexists. repeat split.
  - intros _. eexists. repeat split.
Qed.

End Validation.

Example respond_to_blank_input :
  fst (respond Sample.silent_agent (to_metadata Sample.untitled)
         (Some [TextBlock "  "; TextBlock ""]) (Sample.world_with Sample.untitled []))
  = [ErrorEvent "Message content cannot be empty" false].
Proof. reflexivity. Qed.

Lemma respond_rejects_invalid_input_witness :
  exists message,
    fst (respond Sample.silent_agent (to_metadata Sample.untitled)
           (Some [TextBlock (string_of_list_ascii (repeat "a"%char (Z.to_nat 100001)))])
           (Sample.world_with Sample.untitled [])) = [ErrorEvent message false]
    /\ db (snd (respond Sample.silent_agent (to_metadata Sample.untitled)
           (Some [TextBlock (string_of_list_ascii (repeat "a"%char (Z.to_nat 100001)))])
           (Sample.world_with Sample.untitled [])))
       = db (Sample.world_with Sample.untitled [])
    /\ uuid4_count (snd (respond Sample.silent_agent (to_metadata Sample.untitled)
           (Some [TextBlock (string_of_list_ascii (repeat "a"%char (Z.to_nat 100001)))])
           (Sample.world_with Sample.untitled [])))
       = uuid4_count (Sample.world_with Sample.untitled []).
Proof.
  apply (respond_rejects_invalid_input Sample.silent_agent).
  right. right. vm_compute. reflexivity.
Defined.

(** ** Pages *)

(** Both listings fetch [limit + 1] rows and keep [limit]: the page is the
    first [limit] rows of the query, and [has_more] says whether the query
    had more. *)
Lemma page_rows {A} (limit : Z) (rows : list A) :
  0 <= limit ->
  let found := take (Z.to_nat (limit + 1)) rows in
  (if limit <? Z.of_nat (length found) then Py.slice_to limit found else found)
    = take (Z.to_nat limit) rows
  /\ (limit <? Z.of_nat (length found)) = (limit <? Z.of_nat (length rows)).
Proof.
  intros Hl found. subst found.
  rewrite length_take.
  replace (Z.to_nat (limit + 1)) with (S (Z.to_nat limit)) by lia.
  destruct (Z.ltb_spec limit (Z.of_nat (length rows))) as [Hlt | Hge].
  - destruct (Z.ltb_spec limit (Z.of_nat (S (Z.to_nat limit) `min` length rows)))
      as [_ | Hbad]; [| lia].
    split; [| reflexivity].
    unfold Py.slice_to. destruct (Z.leb_spec 0 limit) as [_ | ?]; [| lia].
    rewrite take_take. f_equal. lia.
  - destruct (Z.ltb_spec limit (Z.of_nat (S (Z.to_nat limit) `min` length rows)))
      as [Hbad | _]; [lia |].
    split; [| reflexivity].
    rewrite !take_ge by lia. reflexivity.
Qed.

(** ** An unknown cursor in [load_threads] *)

Section UnknownCursor.

Variable w : world.
Variable c : string.
Hypothesis healthy : faults w = None.
Hypothesis unknown : forall t, In t (threads (db w)) -> Thread.thread_id t ≠ c.

Lemma cursor_lookup_empty :
  map Thread.updated_at
      (List.filter (fun t => (Thread.thread_id t =? c)%string) (threads (db w))) = [].
Proof.
  replace (List.filter _ _) with (@nil Thread.t); [reflexivity |].
  symmetry. apply filter_nil_iff. intros t Hin.
  apply String.eqb_neq. apply unknown. exact Hin.
Qed.


End UnknownCursor.


(** ** Error policy of the store *)

Section ErrorPolicy.

Variable w : world.

(** Read operations never let an exception through. *)
Lemma reads_never_raise :
  (forall tid uid, exists r, fst (load_thread tid uid w) = inr r)
  /\ (forall uid limit cur order ctx,
        exists r, fst (load_threads uid limit cur order ctx w) = inr r)
  /\ (forall tid limit cur order,
        exists r, fst (load_thread_items tid limit cur order w) = inr r)
  /\ (forall tid mid, exists r, fst (load_item tid mid w) = inr r).
Proof.
  repeat apply conj; intros;
    unfold load_thread, load_threads, load_thread_items, load_item, try_except;
    match goal with
    | |- context [match ?body w with _ => _ end] =>
        destruct (body w) as [[e | a] w']
    end; eexists; reflexivity.
Qed.

(** With the connection down every operation that reaches the storage
    server hits [OperationalError] in its [try] block. *)
Lemma unreachable_raises :
  (forall tid uid, fst (load_thread_try tid uid (unreachable w)) = inl OperationalError)
  /\ (forall u limit cur order ctx, u ≠ "" ->
        fst (load_threads_try (Some u) limit cur order ctx (unreachable w))
          = inl OperationalError)
  /\ (forall tid limit order,
        fst (load_thread_items_try tid limit None order (unreachable w))
          = inl OperationalError)
  /\ (forall tid mid, fst (load_item_try tid mid (unreachable w)) = inl OperationalError)
  /\ (forall thread ctx, fst (save_thread_try thread ctx (unreachable w)) = inl OperationalError)
  /\ (forall tid item, Item.id item ≠ "__fake_id__" ->
        fst (add_thread_item_try tid item (unreachable w)) = inl OperationalError)
  /\ (forall tid item, Item.id item ≠ "__fake_id__" ->
        fst (save_item_try tid item (unreachable w)) = inl OperationalError)
  /\ (forall tid uid, fst (delete_thread_try tid uid (unreachable w)) = inl OperationalError)
  /\ (forall tid mid, fst (delete_thread_item_try tid mid (unreachable w)) = inl OperationalError).
Proof.
  repeat apply conj; intros.
  - reflexivity.
  - unfold load_threads_try. rewrite (truthy_Some u) by assumption.
    store_simpl. destruct (Py.truthy cur); reflexivity.
  - reflexivity.
  - reflexivity.
  - reflexivity.
  - unfold add_thread_item_try, final_item_id.
    destruct (String.eqb_spec (Item.id item) "__fake_id__"); [contradiction | reflexivity].
  - unfold save_item_try, final_item_id.
    destruct (String.eqb_spec (Item.id item) "__fake_id__"); [contradiction | reflexivity].
  - unfold delete_thread_try. destruct (Py.truthy uid); reflexivity.
  - reflexivity.
Qed.

(** C7.  Error policy.  When the [try] block of a read operation raises a
    storage-layer exception, the operation logs it at level ERROR and
    answers [None] or an empty page; when the [try] block of a write
    operation raises one, the operation logs it at level ERROR and raises
    the same exception to its caller. *)
Theorem storage_error_policy (e : exn) (w1 : world) :
  storage_layer e ->
  (forall tid uid,
     load_thread_try tid uid w = (inl e, w1) ->
     load_thread tid uid w
       = (inr None, add_log (ERROR, "[LOAD_THREAD] Error loading thread") w1))
  /\ (forall uid limit cur order ctx,
        load_threads_try uid limit cur order ctx w = (inl e, w1) ->
        load_threads uid limit cur order ctx w
          = (inr (mk_ThreadPage [] None),
             add_log (ERROR, "Error loading threads for user") w1))
  /\ (forall tid limit cur order,
        load_thread_items_try tid limit cur order w = (inl e, w1) ->
        load_thread_items tid limit cur order w
          = (inr (mk_ItemPage [] false None),
             add_log (ERROR, "[LOAD_THREAD_ITEMS] Error loading items from thread") w1))
  /\ (forall tid mid,
        load_item_try tid mid w = (inl e, w1) ->
        load_item tid mid w
          = (inr None, add_log (ERROR, "Error loading item from thread") w1))
  /\ (forall thread ctx,
        save_thread_try thread ctx w = (inl e, w1) ->
        save_thread thread ctx w
          = (inl e, add_log (ERROR, "Error saving thread") w1))
  /\ (forall tid item,
        add_thread_item_try tid item w = (inl e, w1) ->
        add_thread_item tid item w
          = (inl e, add_log (ERROR, "Error adding item to thread") w1))
  /\ (forall tid item,
        save_item_try tid item w = (inl e, w1) ->
        save_item tid item w
          = (inl e, add_log (ERROR, "Error in save_item for thread") w1))
  /\ (forall tid uid,
        delete_thread_try tid uid w = (inl e, w1) ->
        delete_thread tid uid w
          = (inl e, add_log (ERROR, "Error deleting thread") w1))
  /\ (forall tid mid,
        delete_thread_item_try tid mid w = (inl e, w1) ->
        delete_thread_item tid mid w
          = (inl e, add_log (ERROR, "Error deleting item from thread") w1)).
Proof.
  intros He.
  repeat apply conj; intros * Htry;
    unfold load_thread, load_threads, load_thread_items, load_item, save_thread,
      add_thread_item, save_item, delete_thread, delete_thread_item, try_except;
    rewrite Htry; try reflexivity.
  destruct e; try reflexivity; contradiction.
Qed.

End ErrorPolicy.

Lemma storage_error_policy_witness :
  load_thread_items Sample.thread1 (Some 20) None "asc"
      (unreachable (Sample.world_with Sample.untitled Sample.three_rows))
    = (inr (mk_ItemPage [] false None),
       add_log (ERROR, "[LOAD_THREAD_ITEMS] Error loading items from thread")
         (add_log (INFO, "[LOAD_THREAD_ITEMS] Loading items for thread")
            (unreachable (Sample.world_with Sample.untitled Sample.three_rows))))
  /\ add_thread_item Sample.thread1 (Sample.user_says Sample.m1 "hello")
       (unreachable (Sample.world_with Sample.untitled []))
     = (inl OperationalError,
        add_log (ERROR, "Error adding item to thread")
          (unreachable (Sample.world_with Sample.untitled []))).
Proof.
  split.
  - apply (storage_error_policy _ OperationalError _ I). reflexivity.
  - apply (storage_error_policy _ OperationalError _ I). reflexivity.
Defined.

(** ** Rules for runs *)

Section Rules.

Context {A B : Type}.
Implicit Types (w : world) (Q : exn + B -> world -> Prop).

Lemma wp_run (m : M A) w (P : exn + A -> world -> Prop) r w' :
  wp m w P -> m w = (r, w') -> P r w'.
Proof. unfold wp. intros H E. rewrite E in H. exact H. Qed.

Lemma wp_bind (m : M A) (k : A -> M B) w Q :
  wp m w (fun r w' =>
            match r with
            | inl e => Q (inl e) w'
            | inr a => wp (k a) w' Q
            end) ->
  wp (bind m k) w Q.
Proof. unfold wp, bind. destruct (m w) as [[e | a] w']; simpl; auto. Qed.

Lemma wp_try (body : M B) (handler : exn -> M B) w Q :
  wp body w (fun r w' =>
               match r with
               | inl e => wp (handler e) w' Q
               | inr a => Q (inr a) w'
               end) ->
  wp (try_except body handler) w Q.
Proof. unfold wp, try_except. destruct (body w) as [[e | a] w']; simpl; auto. Qed.

Lemma wp_ret (b : B) w Q : Q (inr b) w -> wp (ret b) w Q.
Proof. auto. Qed.

Lemma wp_raise (e : exn) w Q : Q (inl e) w -> wp (raise e) w Q.
Proof. auto. Qed.

Lemma wp_execute (q : database -> B) w Q :
  Q (inl OperationalError) w ->
  (forall f, Q (inr (q (db w))) (set_faults f w)) ->
  wp (execute q) w Q.
Proof.
  intros Hfail Hok. unfold wp. rewrite execute_run.
  destruct (faults w) as [[| k] |] eqn:Hf; simpl; auto.
  assert (Hw : set_faults None w = w) by (destruct w; cbn in *; subst; reflexivity).
  specialize (Hok None). rewrite Hw in Hok. exact Hok.
Qed.

End Rules.

Lemma wp_scalar_head {B} (rows : list B) (w : world)
    (Q : exn + option B -> world -> Prop) :
  Q (inl MultipleResultsFound) w ->
  ((length rows <= 1)%nat -> Q (inr (head rows)) w) ->
  wp (scalar_one_or_none rows) w Q.
Proof.
  intros Hmany Hone. destruct rows as [| x [| y rest]]; unfold wp; simpl; auto.
Qed.

Lemma wp_final_item_id (item : Item.t) (w : world) (Q : exn + string -> world -> Prop) :
  (forall w', db w' = db w -> faults w' = faults w -> db_now w' = db_now w ->
              Q (inr (stored_id item w)) w') ->
  wp (final_item_id item) w Q.
Proof.
  intros H. unfold final_item_id, wp. unfold stored_id in H.
  destruct (Item.id item =? "__fake_id__")%string; simpl; apply H; reflexivity.
Qed.

Lemma wp_logger (l : level) (msg : string) w (Q : exn + unit -> world -> Prop) :
  Q (inr tt) (add_log (l, msg) w) -> wp (logger l msg) w Q.
Proof. auto. Qed.

Lemma wp_uuid4 w (Q : exn + string -> world -> Prop) :
  Q (inr (uuid4_draws w (uuid4_count w))) (next_uuid w) -> wp uuid4 w Q.
Proof. auto. Qed.

Lemma wp_utcnow w (Q : exn + Z -> world -> Prop) :
  Q (inr (utcnow w)) w -> wp datetime_utcnow w Q.
Proof. auto. Qed.

Lemma wp_commit (pending : list change) w (Q : exn + unit -> world -> Prop) :
  Q (inl OperationalError) w ->
  (forall f e, flush (db_now w) (db w) pending = inl e -> Q (inl e) (set_faults f w)) ->
  (forall f d, flush (db_now w) (db w) pending = inr d ->
               Q (inr tt) (set_db d (set_faults f w))) ->
  wp (commit pending) w Q.
Proof.
  intros Hdown Hrej Hok. unfold wp. rewrite commit_run.
  destruct (faults w) as [[| k] |] eqn:Hf; simpl; [exact Hdown | |].
  - destruct (flush _ _ _) as [e | d] eqn:Hfl; simpl;
      [apply Hrej | apply Hok]; reflexivity.
  - assert (Hw : set_faults None w = w) by (destruct w; cbn in *; subst; reflexivity).
    destruct (flush _ _ _) as [e | d] eqn:Hfl; simpl.
    + specialize (Hrej None e eq_refl). rewrite Hw in Hrej. exact Hrej.
    + specialize (Hok None d eq_refl). rewrite Hw in Hok. exact Hok.
Qed.

(** One step of a run. *)
Ltac wp_step :=
  lazymatch goal with
  | |- wp (bind _ _) _ _ => apply wp_bind
  | |- wp (try_except _ _) _ _ => apply wp_try
  | |- wp (ret _) _ _ => apply wp_ret
  | |- wp (raise _) _ _ => apply wp_raise
  | |- wp (logger _ _) _ _ => apply wp_logger
  | |- wp uuid4 _ _ => apply wp_uuid4
  | |- wp datetime_utcnow _ _ => apply wp_utcnow
  | |- wp (execute _) _ _ => apply wp_execute; [| intros ?f]
  | |- wp (scalar_one_or_none _) _ _ => apply wp_scalar_head; [| intros ?Hrows]
  | |- wp (commit _) _ _ => apply wp_commit; [| intros ?f ?e ?Hflush | intros ?f ?d ?Hflush]
  end;
  cbn beta iota;
  cbn [db faults log utcnow db_now uuid4_draws uuid4_count
       add_log set_faults set_db next_uuid] in *.

Ltac wp_steps := repeat wp_step.

(** ** What the write operations commit *)

Lemma add_thread_item_spec (tid : string) (item : Item.t) (w : world) :
  wp (add_thread_item tid item) w
     (fun r w' =>
        match r with
        | inr _ => flush (db_now w) (db w) (append_changes tid item w) = inr (db w')
        | inl _ => db w' = db w
        end).
Proof.
  unfold add_thread_item, add_thread_item_try.
  wp_steps; try reflexivity.
  apply wp_final_item_id. cbn [db faults db_now set_faults].
  intros w1 Hdb1 _ Hnow1.
  change (stored_id item (set_faults f w)) with (stored_id item w).
  unfold append_changes, title_change.
  destruct ((next_sequence (head (last_sequence tid (db w))) =? 1)
            && (extract_role item =? "user")%string).
  - wp_steps; try exact Hdb1.
    rewrite Hdb1 in *.
    destruct (List.filter _ (threads (db w))) as [| t [| t' rest]];
      cbn [head length] in *; [| | lia].
    + wp_steps; rewrite ?Hdb1, ?Hnow1 in *; try reflexivity; try assumption.
    + destruct (negb (Py.truthy (Thread.title t)));
        wp_steps; rewrite ?Hdb1, ?Hnow1 in *; try reflexivity; try assumption.
  - wp_steps; rewrite ?Hdb1, ?Hnow1 in *; try reflexivity; try assumption.
Qed.

Lemma save_item_spec (tid : string) (item : Item.t) (w : world) :
  wp (save_item tid item) w
     (fun r w' =>
        match r with
        | inr _ =>
            flush (db_now w) (db w) (upsert_changes tid item w) = inr (db w')
            /\ (length (List.filter
                          (fun m => (Message.thread_id m =? tid)%string
                                    && (Message.message_id m =? stored_id item w)%string)
                          (messages (db w))) <= 1)%nat
        | inl _ => db w' = db w
        end).
Proof.
  unfold save_item, save_item_try.
  wp_steps.
  apply wp_final_item_id. cbn [db faults db_now set_faults].
  intros w1 Hdb1 _ Hnow1.
  unfold upsert_changes.
  wp_steps; try exact Hdb1.
  rewrite Hdb1 in *.
  destruct (List.filter _ (messages (db w))) as [| m [| m' rest]];
    cbn [head length] in *; [| | lia].
  - wp_steps; rewrite ?Hdb1, ?Hnow1 in *; try reflexivity; try assumption.
    split; [assumption | lia].
  - wp_steps; rewrite ?Hdb1, ?Hnow1 in *; try reflexivity; try assumption.
    split; [assumption | lia].
Qed.

Lemma insert_message_inv (now : Z) (d d' : database)
    (mid tid role content : string) (seq : Z) :
  flush_change now d (InsertMessage mid tid role content seq) = inr d' ->
  d' = mk_database (threads d)
         (messages d ++ [Message.mk mid tid role content seq now])
  /\ chk_messages_role role = true
  /\ chk_messages_content_length content = true
  /\ 1 <= seq
  /\ (forall m, In m (messages d) -> Message.message_id m <> mid)
  /\ has_thread tid d = true
  /\ (forall m, In m (messages d) -> Message.thread_id m = tid ->
                Message.sequence_number m <> seq).
Proof.
  unfold flush_change.
  destruct (chk_messages_role role); [| discriminate].
  destruct (chk_messages_content_length content); [| discriminate].
  destruct (chk_messages_sequence_positive seq) eqn:Hseq; [| discriminate].
  destruct (existsb (fun m => (Message.message_id m =? mid)%string) (messages d))
    eqn:Hpk; [discriminate |].
  destruct (has_thread tid d); [| discriminate].
  destruct (existsb (fun m => (Message.thread_id m =? tid)%string
                              && (Message.sequence_number m =? seq)) (messages d))
    eqn:Huq; [discriminate |].
  cbn [negb]. intros [= <-].
  repeat apply conj; try reflexivity.
  - apply Z.leb_le. exact Hseq.
  - intros m Hin Heq.
    assert (existsb (fun m0 => (Message.message_id m0 =? mid)%string) (messages d) = true).
    { apply existsb_exists. exists m. split; [exact Hin |]. apply String.eqb_eq. exact Heq. }
    congruence.
  - intros m Hin Htid Hs.
    assert (existsb (fun m0 => (Message.thread_id m0 =? tid)%string
                               && (Message.sequence_number m0 =? seq)) (messages d) = true).
    { apply existsb_exists. exists m. split; [exact Hin |].
      apply andb_true_intro. split; [apply String.eqb_eq | apply Z.eqb_eq]; assumption. }
    congruence.
Qed.

Lemma set_title_inv (now : Z) (d d' : database) (tid title : string) :
  flush_change now d (SetTitle tid title) = inr d' ->
  messages d' = messages d
  /\ threads d'
     = map (fun t => if (Thread.thread_id t =? tid)%string
                        && negb (same_title (Thread.title t) title)
                     then with_title title now t else t) (threads d).
Proof.
  unfold flush_change, check_threads.
  destruct (negb (forallb chk_threads_timestamps _)); [discriminate |].
  destruct (negb (forallb title_fits _)); [discriminate |].
  intros [= <-]. split; reflexivity.
Qed.

Lemma update_message_inv (now : Z) (d d' : database) (mid role content : string) :
  flush_change now d (UpdateMessage mid role content) = inr d' ->
  threads d' = threads d
  /\ messages d'
     = map (fun m => if (Message.message_id m =? mid)%string
                     then with_body role content m else m) (messages d)
  /\ chk_messages_role role = true
  /\ chk_messages_content_length content = true.
Proof.
  unfold flush_change.
  destruct (chk_messages_role role); [| discriminate].
  destruct (chk_messages_content_length content); [| discriminate].
  intros [= <-]. repeat apply conj; reflexivity.
Qed.

Lemma flush_one (now : Z) (d : database) (c : change) :
  flush now d [c] = flush_change now d c.
Proof. simpl. destruct (flush_change now d c); reflexivity. Qed.

(** ** The thread row under message writes *)

(** [save_item] never writes to table [threads], whatever its outcome. *)
Lemma save_item_keeps_threads (tid : string) (item : Item.t) (w : world) :
  threads (db (snd (save_item tid item w))) = threads (db w).
Proof.
  pose proof (save_item_spec tid item w) as H. unfold wp in H.
  destruct (save_item tid item w) as [[e | []] w']; cbn [fst snd] in *.
  - rewrite H. reflexivity.
  - destruct H as [H _]. unfold upsert_changes in H.
    destruct (List.filter _ (messages (db w))) as [| m rest]; rewrite flush_one in H.
    + apply insert_message_inv in H as [-> _]. reflexivity.
    + apply update_message_inv in H as [-> _]. reflexivity.
Qed.

(** [add_thread_item] writes to table [threads] only to derive a title. *)
Lemma add_thread_item_keeps_threads (tid : string) (item : Item.t) (w : world) :
  title_change tid item (db w) = [] ->
  threads (db (snd (add_thread_item tid item w))) = threads (db w).
Proof.
  intros Hnone.
  pose proof (add_thread_item_spec tid item w) as H. unfold wp in H.
  destruct (add_thread_item tid item w) as [[e | []] w']; cbn [fst snd] in *.
  - rewrite H. reflexivity.
  - unfold append_changes in H. rewrite Hnone, flush_one in H.
    apply insert_message_inv in H as [-> _]. reflexivity.
Qed.

(** A flush fails only with storage-layer exceptions. *)
Lemma flush_raises_storage (now : Z) (cs : list change) :
  forall (d : database) (e : exn), flush now d cs = inl e -> storage_layer e.
Proof.
  induction cs as [| c rest IH]; intros d e; simpl; [discriminate |].
  destruct (flush_change now d c) as [e' | d'] eqn:Hc; [| apply IH].
  intros [= <-]. clear IH.
  destruct c; simpl in Hc; unfold check_threads in Hc;
    repeat match type of Hc with
           | (if ?b then _ else _) = _ => destruct b
           end;
    inversion Hc; exact I.
Qed.

(** What [save_thread] leaves behind: a new row, or (when the thread
    exists) the committed update followed by [UnboundLocalError], or
    nothing. *)
Lemma save_thread_spec (thread : ThreadMetadata.t) (ctx : context) (w : world) :
  wp (save_thread thread ctx) w
     (fun r w' =>
        match r with
        | inr _ =>
            exists row,
              flush (db_now w) (db w) [InsertThread row] = inr (db w')
              /\ Thread.thread_id row = ThreadMetadata.id thread
              /\ Thread.updated_at row = utcnow w
        | inl (UnboundLocalError _) =>
            exists existing,
              List.filter (fun t => (Thread.thread_id t =? ThreadMetadata.id thread)%string)
                          (threads (db w)) = [existing]
              /\ flush (db_now w) (db w)
                   [UpdateThread (Thread.thread_id existing)
                      (ThreadMetadata.metadata thread) (utcnow w)] = inr (db w')
        | inl _ => db w' = db w
        end).
Proof.
  unfold save_thread, save_thread_try.
  wp_steps; try reflexivity.
  destruct (List.filter _ (threads (db w))) as [| existing [| t' rest]] eqn:Hfound;
    cbn [head length] in *; [| | lia].
  - match goal with
    | |- wp (if ?b then _ else _) _ _ => destruct b
    end; wp_steps; try reflexivity.
    + pose proof (flush_raises_storage _ _ _ _ Hflush).
      destruct e; try contradiction; reflexivity.
    + eexists. split; [eassumption |]. split; reflexivity.
  - wp_steps; try reflexivity.
    + pose proof (flush_raises_storage _ _ _ _ Hflush).
      destruct e; try contradiction; reflexivity.
    + exists existing. split; [reflexivity | assumption].
Qed.

(** Whenever [save_thread] commits (it then returns, or raises
    [UnboundLocalError] from its closing log line), the row of the thread
    carries the time the call read from the clock. *)
Lemma save_thread_refreshes (thread : ThreadMetadata.t) (ctx : context) (w : world) :
  (fst (save_thread thread ctx w) = inr tt
   \/ exists name, fst (save_thread thread ctx w) = inl (UnboundLocalError name)) ->
  forall t, In t (threads (db (snd (save_thread thread ctx w)))) ->
            Thread.thread_id t = ThreadMetadata.id thread ->
            Thread.updated_at t = utcnow w.
Proof.
  pose proof (save_thread_spec thread ctx w) as H. unfold wp in H.
  destruct (save_thread thread ctx w) as [[e | []] w']; cbn [fst snd] in *.
  - intros [[=] | [name [= ->]]].
    destruct H as (existing & Hfound & Hflush).
    rewrite flush_one in Hflush. unfold flush_change, check_threads in Hflush.
    destruct (negb (forallb chk_threads_timestamps _)); [discriminate |].
    destruct (negb (forallb title_fits _)); [discriminate |].
    injection Hflush as <-. cbn [threads].
    assert (Hid : Thread.thread_id existing = ThreadMetadata.id thread).
    { assert (Hin : In existing [existing]) by (left; reflexivity).
      rewrite <- Hfound in Hin. apply filter_In in Hin as [_ Hin].
      apply String.eqb_eq. exact Hin. }
    intros t Hin Ht. apply in_map_iff in Hin as (t0 & <- & Hin).
    revert Ht. rewrite Hid.
    destruct (String.eqb_spec (Thread.thread_id t0) (ThreadMetadata.id thread)) as [E | N].
    + reflexivity.
    + intros Ht. contradiction.
  - intros _. destruct H as (row & Hflush & Hid & Hts).
    rewrite flush_one in Hflush. unfold flush_change, check_threads in Hflush.
    destruct (has_thread (Thread.thread_id row) (db w)) eqn:Hpk; [discriminate |].
    destruct (negb (forallb chk_threads_timestamps _)); [discriminate |].
    destruct (negb (forallb title_fits _)); [discriminate |].
    injection Hflush as <-. cbn [threads].
    intros t Hin Ht. apply in_app_iff in Hin as [Hin | [<- | []]]; [| exact Hts].
    exfalso. unfold has_thread in Hpk.
    assert (existsb (fun t0 => (Thread.thread_id t0 =? Thread.thread_id row)%string)
                    (threads (db w)) = true); [| congruence].
    apply existsb_exists. exists t. split; [exact Hin |].
    apply String.eqb_eq. congruence.
Qed.

(** C8.  A message write that derives no title leaves the thread row as
    it was.  Thread [thread1] was last updated at time 10 and holds one
    message; at time 100 an assistant message is stored through
    [add_thread_item] and, from the same state, through [save_item]: both
    calls succeed, and [updated_at] is still 10. *)
Theorem message_writes_keep_updated_at :
  db_now (Sample.world_with Sample.untitled [Sample.first_row]) = 100
  /\ fst (add_thread_item Sample.thread1
            (Sample.assistant_says Sample.m2 "A matrix of partial derivatives.")
            (Sample.world_with Sample.untitled [Sample.first_row])) = inr tt
  /\ map Thread.updated_at
       (threads (db (snd (add_thread_item Sample.thread1
            (Sample.assistant_says Sample.m2 "A matrix of partial derivatives.")
            (Sample.world_with Sample.untitled [Sample.first_row]))))) = [10]
  /\ fst (save_item Sample.thread1
            (Sample.assistant_says Sample.m2 "A matrix of partial derivatives.")
            (Sample.world_with Sample.untitled [Sample.first_row])) = inr tt
  /\ map Thread.updated_at
       (threads (db (snd (save_item Sample.thread1
            (Sample.assistant_says Sample.m2 "A matrix of partial derivatives.")
            (Sample.world_with Sample.untitled [Sample.first_row]))))) = [10]
  /\ length (messages (db (snd (save_item Sample.thread1
            (Sample.assistant_says Sample.m2 "A matrix of partial derivatives.")
            (Sample.world_with Sample.untitled [Sample.first_row]))))) = 2%nat.
Proof. repeat apply conj; vm_compute; reflexivity. Qed.

(** ** Title derivation *)

Lemma filter_map_stable {A} (p : A -> bool) (f : A -> A) (l : list A) :
  (forall x, p (f x) = p x) ->
  List.filter p (map f l) = map f (List.filter p l).
Proof.
  intros Hp. induction l as [| a l IH]; simpl; [reflexivity |].
  rewrite Hp. destruct (p a); simpl; rewrite IH; reflexivity.
Qed.

Section TitleDerivation.

Variables (w w' : world) (tid : string) (item : Item.t) (t : Thread.t).

Let c : string := extract_content item "Attribute content missing".

Hypothesis appended : add_thread_item tid item w = (inr tt, w').
(** The thread is stored (once, by [threads_pkey]). *)
Hypothesis stored :
  List.filter (fun t' => (Thread.thread_id t' =? tid)%string) (threads (db w)) = [t].

Lemma appended_changes :
  flush (db_now w) (db w) (append_changes tid item w) = inr (db w').
Proof.
  exact (wp_run _ _ _ _ _ (add_thread_item_spec tid item w) appended).
Qed.

(** C5, as the code has it.  Through [add_thread_item], the first message
    of a thread, when it is a user's and the thread has no title ([None]
    or the empty string), sets the title to the first 50 characters of the
    content with surrounding whitespace stripped, followed by ["..."] when
    the content is longer than 50 characters; a thread that has a
    non-empty title keeps its row unchanged. *)
Theorem first_user_message_sets_title :
  (Py.truthy (Thread.title t) = false ->
   List.filter (fun m => (Message.thread_id m =? tid)%string) (messages (db w)) = [] ->
   extract_role item = "user" ->
   map Thread.title
       (List.filter (fun t' => (Thread.thread_id t' =? tid)%string) (threads (db w')))
     = [Some (if 50 <? Py.len c
              then (Py.strip (Py.prefix 50 c) ++ "...")%string
              else Py.strip (Py.prefix 50 c))])
  /\ (Py.truthy (Thread.title t) = true -> threads (db w') = threads (db w)).
Proof.
  pose proof appended_changes as H. unfold append_changes, title_change in H.
  rewrite stored in H. split.
  - intros Huntitled Hfirst Hrole.
    unfold last_sequence in H. rewrite Hfirst in H.
    cbn [map order_by foldr take head next_sequence] in H.
    rewrite Hrole, Huntitled in H.
    change (("user" =? "user")%string) with true in H.
    cbn [Z.eqb Pos.eqb andb negb flush] in H.
    destruct (flush_change _ _ (InsertMessage _ _ _ _ _)) as [e | d1] eqn:Hins;
      [discriminate |].
    apply insert_message_inv in Hins as [-> _].
    destruct (flush_change _ _ (SetTitle _ _)) as [e | d2] eqn:Hset; [discriminate |].
    injection H as <-.
    apply set_title_inv in Hset as [_ ->]. cbn [threads].
    rewrite filter_map_stable.
    + rewrite stored. cbn [map].
      assert (Hid : (Thread.thread_id t =? Thread.thread_id t)%string = true)
        by apply String.eqb_refl.
      rewrite Hid. cbn [andb]. unfold derive_title. fold c.
      destruct (same_title (Thread.title t) _) eqn:Hsame; cbn [negb]; cbv iota.
      * unfold same_title in Hsame. destruct (Thread.title t) as [s |]; [| discriminate].
        apply String.eqb_eq in Hsame. subst s. reflexivity.
      * reflexivity.
    + intros x. destruct (_ && _); reflexivity.
  - intros Htitled. rewrite Htitled in H. cbn [negb] in H.
    assert (Hflush : flush (db_now w) (db w)
              [InsertMessage (stored_id item w) tid (extract_role item)
                 (extract_content item "Attribute content missing")
                 (next_sequence (head (last_sequence tid (db w))))] = inr (db w')).
    { destruct (_ && _); exact H. }
    rewrite flush_one in Hflush.
    apply insert_message_inv in Hflush as [-> _]. reflexivity.
Qed.

End TitleDerivation.

Lemma first_user_message_sets_title_witness :
  map Thread.title
      (List.filter (fun t' => (Thread.thread_id t' =? Sample.thread1)%string)
         (threads (db (snd (add_thread_item Sample.thread1
                              (Sample.user_says Sample.m1 Sample.long_question)
                              (Sample.world_with Sample.untitled []))))))
    = [Some "Explain forward kinematics in detail please, then..."].
Proof.
  destruct (first_user_message_sets_title
              (Sample.world_with Sample.untitled [])
              (snd (add_thread_item Sample.thread1
                      (Sample.user_says Sample.m1 Sample.long_question)
                      (Sample.world_with Sample.untitled [])))
              Sample.thread1
              (Sample.user_says Sample.m1 Sample.long_question)
              Sample.untitled) as [Hset _].
  - vm_compute. reflexivity.
  - reflexivity.
  - rewrite Hset; [vm_compute; reflexivity | reflexivity | reflexivity | reflexivity].
Defined.

(** The title is not always the first 50 characters followed by ["..."]:
    here the fiftieth character is a space, which [strip()] removes.  And
    on the insert branch of [save_item] no title is derived at all. *)
Lemma title_prefix_counterexample :
  (50 < Py.len Sample.long_question
   /\ fst (add_thread_item Sample.thread1
             (Sample.user_says Sample.m1 Sample.long_question)
             (Sample.world_with Sample.untitled [])) = inr tt
   /\ map Thread.title
        (threads (db (snd (add_thread_item Sample.thread1
                             (Sample.user_says Sample.m1 Sample.long_question)
                             (Sample.world_with Sample.untitled [])))))
      <> [Some (Py.prefix 50 Sample.long_question ++ "...")%string])
  /\ (fst (save_item Sample.thread1
             (Sample.user_says Sample.m1 Sample.long_question)
             (Sample.world_with Sample.untitled [])) = inr tt
      /\ map Message.sequence_number
           (messages (db (snd (save_item Sample.thread1
                                 (Sample.user_says Sample.m1 Sample.long_question)
                                 (Sample.world_with Sample.untitled []))))) = [1]
      /\ map Thread.title
           (threads (db (snd (save_item Sample.thread1
                                (Sample.user_says Sample.m1 Sample.long_question)
                                (Sample.world_with Sample.untitled [])))))
         = [None]).
Proof.
  repeat apply conj; try (vm_compute; reflexivity).
  vm_compute. discriminate.
Qed.

(** ** Upsert *)

Section Upsert.

Variables (w w1 w2 : world) (tid : string) (item1 item2 : Item.t).

Hypothesis same_id : Item.id item1 = Item.id item2.
Hypothesis real_id : Item.id item1 <> "__fake_id__".
Hypothesis first_call : save_item tid item1 w = (inr tt, w1).
Hypothesis second_call : save_item tid item2 w1 = (inr tt, w2).

Let row (m : Message.t) : bool :=
  (Message.thread_id m =? tid)%string
  && (Message.message_id m =? Item.id item1)%string.

Let rewrite_body (m : Message.t) : Message.t :=
  if (Message.message_id m =? Item.id item1)%string
  then with_body (extract_role item2) (extract_content item2 "No content") m
  else m.

Lemma stored_id_real (item : Item.t) (w0 : world) :
  Item.id item <> "__fake_id__" -> stored_id item w0 = Item.id item.
Proof.
  intros Hreal. unfold stored_id.
  destruct (String.eqb_spec (Item.id item) "__fake_id__"); [contradiction | reflexivity].
Qed.

(** After the first call the item has exactly one row in the thread. *)
Lemma one_row_after_first : exists m, List.filter row (messages (db w1)) = [m].
Proof.
  destruct (wp_run _ _ _ _ _ (save_item_spec tid item1 w) first_call) as [Hflush Hlen].
  unfold upsert_changes in Hflush.
  rewrite (stored_id_real item1 w real_id) in Hflush, Hlen.
  fold row in Hflush, Hlen.
  destruct (List.filter row (messages (db w))) as [| m0 rest] eqn:Hrows;
    rewrite flush_one in Hflush.
  - apply insert_message_inv in Hflush as [-> _]. cbn [messages].
    rewrite List.filter_app, Hrows. cbn [List.filter app]. unfold row at 1.
    cbn [Message.thread_id Message.message_id].
    rewrite !String.eqb_refl. cbn [andb]. eexists. reflexivity.
  - destruct rest as [| ? ?]; [| simpl in Hlen; lia].
    apply update_message_inv in Hflush as (_ & Hm & _).
    rewrite Hm. rewrite filter_map_stable.
    + rewrite Hrows. eexists. reflexivity.
    + intros x. unfold row.
      destruct (Message.message_id x =? Message.message_id m0)%string; reflexivity.
Qed.


End Upsert.



(** ** ORDER BY *)

Section InsertionSort.

Context {A : Type} (le : A -> A -> bool).
Hypothesis le_total : forall x y, le x y = true \/ le y x = true.
Hypothesis le_trans : forall x y z, le x y = true -> le y z = true -> le x z = true.

Let R (x y : A) : Prop := le x y = true.

Lemma insert_by_perm (x : A) (l : list A) : Permutation (insert_by le x l) (x :: l).
Proof.
  induction l as [| y l IH]; simpl; [reflexivity |].
  destruct (le x y); [reflexivity |].
  rewrite IH. apply perm_swap.
Qed.

Lemma sort_perm (l : list A) : Permutation (foldr (insert_by le) [] l) l.
Proof.
  induction l as [| a l IH]; simpl; [reflexivity |].
  rewrite insert_by_perm. apply perm_skip. exact IH.
Qed.

Lemma insert_by_sorted (x : A) (l : list A) :
  StronglySorted R l -> StronglySorted R (insert_by le x l).
Proof.
  induction 1 as [| y l Hs IH Hy]; simpl.
  - repeat constructor.
  - destruct (le x y) eqn:Hxy.
    + constructor; [constructor; assumption |].
      constructor; [exact Hxy |].
      eapply List.Forall_impl; [| exact Hy]. intros z Hz. eapply le_trans; eassumption.
    + constructor; [exact IH |].
      rewrite insert_by_perm. constructor; [| exact Hy].
      destruct (le_total x y) as [H | H]; [congruence | exact H].
Qed.

Lemma sort_sorted (l : list A) : StronglySorted R (foldr (insert_by le) [] l).
Proof.
  induction l as [| a l IH]; simpl; [constructor |].
  apply insert_by_sorted. exact IH.
Qed.

(** A [WHERE] clause can be applied before or after the sort. *)
Lemma filter_insert_by (p : A -> bool) (x : A) (l : list A) :
  StronglySorted R l ->
  List.filter p (insert_by le x l)
    = if p x then insert_by le x (List.filter p l) else List.filter p l.
Proof.
  induction 1 as [| y l Hs IH Hy]; simpl.
  - destruct (p x); reflexivity.
  - destruct (le x y) eqn:Hxy; simpl.
    + destruct (p x) eqn:Hpx, (p y) eqn:Hpy; simpl; rewrite ?Hxy; try reflexivity.
      (* y is dropped: x still goes in front of what is kept *)
      assert (Hall : Forall (R x) (List.filter p l)).
      { apply List.Forall_forall. intros z Hz. apply filter_In in Hz as [Hz _].
        rewrite List.Forall_forall in Hy. eapply le_trans; [exact Hxy | apply Hy, Hz]. }
      destruct (List.filter p l) as [| z rest]; simpl; [reflexivity |].
      inversion Hall as [| ? ? Hxz _]; subst. unfold R in Hxz. rewrite Hxz. reflexivity.
    + rewrite IH. destruct (p x) eqn:Hpx, (p y) eqn:Hpy; simpl; rewrite ?Hxy; reflexivity.
Qed.

Lemma filter_sort (p : A -> bool) (l : list A) :
  List.filter p (foldr (insert_by le) [] l) = foldr (insert_by le) [] (List.filter p l).
Proof.
  induction l as [| a l IH]; simpl; [reflexivity |].
  rewrite filter_insert_by by apply sort_sorted.
  rewrite IH. destruct (p a); reflexivity.
Qed.

End InsertionSort.

Section OrderBy.

Context {A : Type} (key : A -> Z) (desc : bool).

Let le (x y : A) : bool := if desc then key y <=? key x else key x <=? key y.

Lemma order_le_total (x y : A) : le x y = true \/ le y x = true.
Proof. unfold le. destruct desc; lia. Qed.

Lemma order_le_trans (x y z : A) : le x y = true -> le y z = true -> le x z = true.
Proof. unfold le. destruct desc; lia. Qed.

Lemma order_by_perm (l : list A) : Permutation (order_by key desc l) l.
Proof. apply sort_perm. Qed.

Lemma order_by_sorted (l : list A) :
  StronglySorted (fun x y => le x y = true) (order_by key desc l).
Proof. apply sort_sorted; [apply order_le_total | apply order_le_trans]. Qed.

Lemma filter_order_by (p : A -> bool) (l : list A) :
  List.filter p (order_by key desc l) = order_by key desc (List.filter p l).
Proof. apply filter_sort; [apply order_le_total | apply order_le_trans]. Qed.

End OrderBy.

(** The first row in descending order carries the largest key. *)
Lemma order_by_desc_head {A} (key : A -> Z) (l : list A) :
  match head (order_by key true l) with
  | None => l = []
  | Some x => In x l /\ forall y, In y l -> key y <= key x
  end.
Proof.
  pose proof (order_by_perm key true l) as Hperm.
  pose proof (order_by_sorted key true l) as Hsorted.
  destruct (order_by key true l) as [| x rest]; cbn [head].
  - apply Permutation_nil in Hperm. exact Hperm.
  - split.
    + eapply Permutation_in; [exact Hperm | left; reflexivity].
    + intros y Hy. symmetry in Hperm.
      apply (Permutation_in _ Hperm) in Hy as [<- | Hy]; [lia |].
      inversion Hsorted as [| ? ? _ Hall]; subst.
      rewrite List.Forall_forall in Hall. specialize (Hall y Hy). cbn in Hall. lia.
Qed.

(** ** Sequence numbers *)

Lemma head_take_1 {A} (l : list A) : head (take 1 l) = head l.
Proof. destruct l; reflexivity. Qed.

(** [last_sequence] reads the largest sequence number of the thread. *)
Lemma last_sequence_max (tid : string) (d : database) :
  match head (last_sequence tid d) with
  | None => thread_rows tid d = []
  | Some n =>
      In n (map Message.sequence_number (thread_rows tid d))
      /\ forall y, In y (map Message.sequence_number (thread_rows tid d)) -> y <= n
  end.
Proof.
  unfold last_sequence. rewrite head_take_1. fold (thread_rows tid d).
  pose proof (order_by_desc_head (fun n : Z => n)
                (map Message.sequence_number (thread_rows tid d))) as H.
  destruct (head (order_by _ true _)) as [n |]; [exact H |].
  destruct (thread_rows tid d); [reflexivity | discriminate].
Qed.

Lemma next_after_consecutive (tid : string) (d : database) (k : nat) :
  map Message.sequence_number (thread_rows tid d) = seqZ 1 (Z.of_nat k) ->
  next_sequence (head (last_sequence tid d)) = Z.of_nat k + 1.
Proof.
  intros Hrows. pose proof (last_sequence_max tid d) as H. rewrite Hrows in H.
  destruct (head (last_sequence tid d)) as [n |]; cbn [next_sequence].
  - destruct H as [Hin Hmax].
    apply list_elem_of_In, elem_of_seqZ in Hin.
    assert (Hk : Z.of_nat k <= n).
    { apply Hmax. apply list_elem_of_In, elem_of_seqZ. lia. }
    destruct (Z.eqb_spec n 0); lia.
  - rewrite H in Hrows. destruct k; [reflexivity |].
    rewrite seqZ_cons in Hrows by lia. discriminate.
Qed.

Lemma title_change_cases (tid : string) (item : Item.t) (d : database) :
  title_change tid item d = []
  \/ exists id title, title_change tid item d = [SetTitle id title].
Proof.
  unfold title_change.
  destruct (_ && _); [| left; reflexivity].
  destruct (List.filter _ (threads d)) as [| t [| t' rest]]; try (left; reflexivity).
  destruct (negb _); [right; eauto | left; reflexivity].
Qed.

(** A successful [add_thread_item] appends one row to table [messages]:
    the item's text under the next sequence number of the thread. *)
Lemma add_thread_item_appends (tid : string) (item : Item.t) (w w' : world) :
  add_thread_item tid item w = (inr tt, w') ->
  messages (db w')
    = (messages (db w)
       ++ [Message.mk (stored_id item w) tid (extract_role item)
             (extract_content item "Attribute content missing")
             (next_sequence (head (last_sequence tid (db w)))) (db_now w)])%list.
Proof.
  intros Hrun.
  pose proof (wp_run _ _ _ _ _ (add_thread_item_spec tid item w) Hrun) as H.
  unfold append_changes in H. cbn [flush] in H.
  destruct (flush_change _ _ (InsertMessage _ _ _ _ _)) as [e | d1] eqn:Hins;
    [discriminate |].
  apply insert_message_inv in Hins as [-> _].
  destruct (title_change_cases tid item (db w)) as [E | (id & title & E)];
    rewrite E in H.
  - injection H as <-. reflexivity.
  - rewrite flush_one in H. apply set_title_inv in H as [-> _]. reflexivity.
Qed.

Lemma appends_extend (tid : string) (steps : list (Z * Item.t)) :
  forall (w w' : world) (k : nat),
    map Message.sequence_number (thread_rows tid (db w)) = seqZ 1 (Z.of_nat k) ->
    append_all tid steps w = (inr tt, w') ->
    map Message.sequence_number (thread_rows tid (db w'))
      = seqZ 1 (Z.of_nat (k + length steps)).
Proof.
  induction steps as [| [t item] rest IH]; intros w w' k Hrows Hrun.
  - injection Hrun as <-. rewrite Nat.add_0_r. exact Hrows.
  - cbn [append_all] in Hrun. unfold bind in Hrun.
    destruct (add_thread_item tid item (at_time t w)) as [[e | []] w1] eqn:Hstep;
      [discriminate |].
    cbn [length]. replace (k + S (length rest))%nat with (S k + length rest)%nat by lia.
    apply (IH w1 w' (S k)); [| exact Hrun].
    pose proof (add_thread_item_appends _ _ _ _ Hstep) as Hmsgs.
    cbn [db at_time] in Hmsgs.
    rewrite (next_after_consecutive tid (db w) k Hrows) in Hmsgs.
    unfold thread_rows in *. rewrite Hmsgs, List.filter_app, map_app, Hrows.
    cbn [List.filter Message.thread_id]. rewrite String.eqb_refl.
    cbn [map Message.sequence_number]. rewrite seqZ_S. do 2 f_equal. lia.
Qed.

(** C1.  A single writer, no deletions.  Every successful
    [add_thread_item] appends one row whose sequence number is 1 when
    the thread has no row and the largest sequence number of the thread
    plus one otherwise; so [N] successful appends to a thread without
    rows leave it with the sequence numbers 1, 2, ..., [N], in that
    order. *)
Theorem appends_number_consecutively
    (tid : string) (steps : list (Z * Item.t)) (w w' : world) :
  thread_rows tid (db w) = [] ->
  append_all tid steps w = (inr tt, w') ->
  map Message.sequence_number (thread_rows tid (db w'))
    = seqZ 1 (Z.of_nat (length steps))
  /\ (forall item w0 w1,
        add_thread_item tid item w0 = (inr tt, w1) ->
        exists m,
          messages (db w1) = (messages (db w0) ++ [m])%list
          /\ Message.thread_id m = tid
          /\ (thread_rows tid (db w0) = [] -> Message.sequence_number m = 1)
          /\ (forall n,
                In n (map Message.sequence_number (thread_rows tid (db w0))) ->
                (forall y, In y (map Message.sequence_number (thread_rows tid (db w0)))
                           -> y <= n) ->
                n <> 0 ->
                Message.sequence_number m = n + 1)).
Proof.
  intros Hempty Hrun. split.
  - apply (appends_extend tid steps w w' 0); [| exact Hrun].
    rewrite Hempty. reflexivity.
  - intros item w0 w1 Hstep. eexists. split; [exact (add_thread_item_appends _ _ _ _ Hstep) |].
    split; [reflexivity |]. cbn [Message.sequence_number].
    pose proof (last_sequence_max tid (db w0)) as Hmax.
    destruct (head (last_sequence tid (db w0))) as [n0 |]; cbn [next_sequence]; split.
    + intros Hnone. rewrite Hnone in Hmax. destruct Hmax as [[] _].
    + intros n Hin Hle Hn. destruct Hmax as [Hin0 Hle0].
      assert (n0 = n) by (apply Z.le_antisymm; [apply Hle, Hin0 | apply Hle0, Hin]).
      subst n0. destruct (Z.eqb_spec n 0); [contradiction | reflexivity].
    + reflexivity.
    + intros n Hin. rewrite Hmax in Hin. destruct Hin.
Qed.

Lemma appends_number_consecutively_witness :
  map Message.sequence_number
      (thread_rows Sample.thread1
         (db (snd (append_all Sample.thread1
                     [(101, Sample.user_says Sample.m1 "What is a Jacobian?");
                      (102, Sample.assistant_says "__fake_id__" "A matrix.");
                      (103, Sample.user_says Sample.m3 "Thanks")]
                     (Sample.world_with Sample.untitled [])))))
    = [1; 2; 3].
Proof.
  destruct (appends_number_consecutively Sample.thread1
              [(101, Sample.user_says Sample.m1 "What is a Jacobian?");
               (102, Sample.assistant_says "__fake_id__" "A matrix.");
               (103, Sample.user_says Sample.m3 "Thanks")]
              (Sample.world_with Sample.untitled [])
              (snd (append_all Sample.thread1
                      [(101, Sample.user_says Sample.m1 "What is a Jacobian?");
                       (102, Sample.assistant_says "__fake_id__" "A matrix.");
                       (103, Sample.user_says Sample.m3 "Thanks")]
                      (Sample.world_with Sample.untitled [])))) as [Hseq _].
  - reflexivity.
  - vm_compute. reflexivity.
  - rewrite Hseq. reflexivity.
Defined.

(** ** Identifiers and cursors *)

Section UuidStrings.

Let uuid_char (c : ascii) : bool := Py.ishex c || Ascii.eqb c "-".

Lemma uuid_char_not_space (c : ascii) : uuid_char c = true -> Py.isspace c = false.
Proof.
  destruct c as [b0 b1 b2 b3 b4 b5 b6 b7].
  destruct b0, b1, b2, b3, b4, b5, b6, b7; vm_compute; congruence.
Qed.

Lemma hex_not_sign (c : ascii) :
  Py.ishex c = true -> Ascii.eqb c "-" = false /\ Ascii.eqb c "+" = false.
Proof.
  destruct c as [b0 b1 b2 b3 b4 b5 b6 b7].
  destruct b0, b1, b2, b3, b4, b5, b6, b7; vm_compute; intuition congruence.
Qed.

Lemma hex_run_chars (n : nat) :
  forall s r, Py.hex_run n s = Some r ->
              all_chars uuid_char r = true -> all_chars uuid_char s = true.
Proof.
  induction n as [| n IH]; intros s r; simpl.
  - intros [= ->]. auto.
  - destruct s as [| c s]; [discriminate |].
    destruct (Py.ishex c) eqn:Hc; [| discriminate].
    intros Hrun Hr. simpl. unfold uuid_char at 1. rewrite Hc. simpl. eauto.
Qed.

Lemma dash_chars (o : option string) (r : string) :
  Py.dash o = Some r ->
  exists s, o = Some s /\ s = String "-" r.
Proof.
  destruct o as [[| c s] |]; simpl; try discriminate.
  destruct (Ascii.eqb_spec c "-") as [-> | N].
  - intros [= ->]. eauto.
  - destruct c as [b0 b1 b2 b3 b4 b5 b6 b7].
    destruct b0, b1, b2, b3, b4, b5, b6, b7; try discriminate.
    contradiction N. reflexivity.
Qed.

Lemma digits_not_numeral (s : string) :
  not_numeral s = true -> forall acc b, Py.digits s acc b = None.
Proof.
  induction s as [| c s IH]; simpl; [discriminate |].
  intros H acc b.
  destruct (Py.isdigit c); [apply IH; exact H |].
  destruct (Ascii.eqb c "_"); simpl in *; [| reflexivity].
  destruct b; [apply IH; exact H | reflexivity].
Qed.

Lemma hex_run_not_numeral (n : nat) :
  forall s r, Py.hex_run n s = Some (String "-" r) -> not_numeral s = true.
Proof.
  induction n as [| n IH]; intros s r; simpl.
  - intros [= ->]. reflexivity.
  - destruct s as [| c s]; [discriminate |].
    destruct (Py.ishex c); [| discriminate].
    intros Hrun. simpl. rewrite (IH _ _ Hrun). apply orb_true_r.
Qed.

Lemma rstrip_no_space (s : string) :
  all_chars (fun c => negb (Py.isspace c)) s = true -> Py.rstrip s = s.
Proof.
  induction s as [| c s IH]; simpl; [reflexivity |].
  intros H. apply andb_prop in H as [Hc Hs].
  rewrite (IH Hs). destruct s; [| reflexivity].
  apply negb_true_iff in Hc. rewrite Hc. reflexivity.
Qed.

Lemma all_chars_impl (p q : ascii -> bool) (s : string) :
  (forall c, p c = true -> q c = true) ->
  all_chars p s = true -> all_chars q s = true.
Proof.
  intros Hpq. induction s as [| c s IH]; simpl; [reflexivity |].
  intros H. apply andb_prop in H as [Hc Hs].
  rewrite (Hpq c Hc), (IH Hs). reflexivity.
Qed.

(** The rendering of a UUID is not empty and [int()] rejects it. *)
Lemma uuid_not_int (s : string) :
  Py.is_uuid s = true -> Py.int s = None /\ s <> "".
Proof.
  unfold Py.is_uuid, Py.hex_group. intros H.
  destruct (Py.dash (Py.hex_run 8 s)) as [s1 |] eqn:H1; [| discriminate].
  apply dash_chars in H1 as (r0 & H0 & ->).
  destruct (Py.hex_run 4 s1) as [r1 |] eqn:Hr1; [| discriminate].
  destruct (Py.dash (Some r1)) as [s2 |] eqn:H2; [| discriminate].
  apply dash_chars in H2 as (? & [= <-] & ->).
  destruct (Py.hex_run 4 s2) as [r2 |] eqn:Hr2; [| discriminate].
  destruct (Py.dash (Some r2)) as [s3 |] eqn:H3; [| discriminate].
  apply dash_chars in H3 as (? & [= <-] & ->).
  destruct (Py.hex_run 4 s3) as [r3 |] eqn:Hr3; [| discriminate].
  destruct (Py.dash (Some r3)) as [s4 |] eqn:H4; [| discriminate].
  apply dash_chars in H4 as (? & [= <-] & ->).
  destruct (Py.hex_run 12 s4) as [[| ? ?] |] eqn:Hr4; try discriminate.
  assert (Hchars : all_chars uuid_char s = true).
  { eapply hex_run_chars; [exact H0 |]. simpl.
    eapply hex_run_chars; [exact Hr1 |]. simpl.
    eapply hex_run_chars; [exact Hr2 |]. simpl.
    eapply hex_run_chars; [exact Hr3 |]. simpl.
    eapply hex_run_chars; [exact Hr4 |]. reflexivity. }
  pose proof (hex_run_not_numeral _ _ _ H0) as Hnum.
  destruct s as [| c0 rest]; [discriminate |].
  split; [| discriminate].
  assert (Hc0 : Py.ishex c0 = true).
  { simpl in H0. destruct (Py.ishex c0); [reflexivity | discriminate]. }
  unfold Py.int, Py.strip.
  assert (Hl : Py.lstrip (String c0 rest) = String c0 rest).
  { simpl. rewrite (uuid_char_not_space c0); [reflexivity |].
    unfold uuid_char. rewrite Hc0. reflexivity. }
  rewrite Hl, rstrip_no_space.
  - destruct (hex_not_sign c0 Hc0) as [-> ->]. apply digits_not_numeral. exact Hnum.
  - eapply all_chars_impl; [| exact Hchars]. intros c Hc.
    rewrite (uuid_char_not_space c Hc). reflexivity.
Qed.

End UuidStrings.

(** ** Listing the messages of a thread *)

Lemma wp_execute_healthy {B} (q : database -> B) (w : world)
    (Q : exn + B -> world -> Prop) :
  faults w = None -> Q (inr (q (db w))) w -> wp (execute q) w Q.
Proof. intros Hf HQ. unfold wp. rewrite execute_run, Hf. exact HQ. Qed.

Lemma wp_log_each {A} (l : list A) :
  forall (w : world) (Q : exn + unit -> world -> Prop),
    (forall w', db w' = db w -> faults w' = faults w -> Q (inr tt) w') ->
    wp (log_each l) w Q.
Proof.
  induction l as [| a l IH]; intros w Q HQ; cbn [log_each].
  - apply wp_ret. apply HQ; reflexivity.
  - apply wp_bind, wp_logger. cbn beta iota. apply IH.
    intros w' Hdb Hf. apply HQ; assumption.
Qed.

Lemma wp_sql_limit {B} (n : Z) (rows : list B) (w : world)
    (Q : exn + list B -> world -> Prop) :
  0 <= n -> Q (inr (take (Z.to_nat n) rows)) w -> wp (sql_limit n rows) w Q.
Proof.
  intros Hn HQ. unfold sql_limit.
  destruct (Z.ltb_spec n 0); [lia | exact HQ].
Qed.

Section HealthyListing.

Variables (w : world) (tid : string) (limit : Z).
Hypothesis healthy : faults w = None.
Hypothesis limit_nonneg : 0 <= limit.

(** The tail of [load_thread_items], once the rows of the query are known. *)
Lemma listing_tail (rows : list Message.t) (w0 : world)
    (Q : exn + ItemPage -> world -> Prop) :
  db w0 = db w -> faults w0 = None ->
  (forall w', db w' = db w -> faults w' = None -> Q (inr (page_of limit rows)) w') ->
  wp (found <- sql_limit (limit + 1) rows ;;
      (let more := limit <? Z.of_nat (length found) in
       let page := if more then Py.slice_to limit found else found in
       logger INFO "[LOAD_THREAD_ITEMS] Found messages for thread" ;;
       log_each page ;;
       let next_after := if more then Message.message_id <$> last page else None in
       logger INFO "[LOAD_THREAD_ITEMS] Returning items" ;;
       ret (mk_ItemPage (concat (map to_item page)) more next_after)))%store
     w0 Q.
Proof.
  intros Hdb Hf HQ.
  apply wp_bind, wp_sql_limit; [lia |]. cbn beta iota zeta.
  destruct (page_rows limit rows limit_nonneg) as [Hpage Hmore].
  cbv zeta in Hpage, Hmore. rewrite Hpage, Hmore.
  apply wp_bind, wp_logger. cbn beta iota.
  apply wp_bind, wp_log_each. intros w1 Hdb1 Hf1. cbn beta iota.
  apply wp_bind, wp_logger. cbn beta iota. apply wp_ret. cbn beta iota.
  cbn [db faults add_log] in *.
  apply HQ; cbn [db faults add_log]; congruence.
Qed.

Lemma listing_first_page :
  wp (load_thread_items tid (Some limit) None "asc") w
     (fun r w' =>
        r = inr (page_of limit (order_by Message.sequence_number false
                                         (thread_rows tid (db w))))
        /\ db w' = db w /\ faults w' = None).
Proof.
  unfold load_thread_items, load_thread_items_try.
  apply wp_try, wp_bind, wp_logger. cbn beta iota.
  change (cursor_truthy None) with false. cbv iota.
  apply wp_bind, wp_ret. cbn beta iota.
  apply wp_bind, wp_execute_healthy; [exact healthy |]. cbn beta iota.
  cbn [db faults add_log default from_option id].
  change (("asc" =? "asc")%string) with true. cbn [negb].
  replace (List.filter _ (messages (db w))) with (thread_rows tid (db w)).
  - apply listing_tail; [reflexivity | exact healthy |].
    intros w' Hdb Hf. cbn beta iota. auto.
  - unfold thread_rows. apply List.filter_ext. intros m. symmetry. apply andb_true_r.
Qed.

Lemma listing_next_page (cur : string) (a : Z) :
  Py.is_uuid cur = true ->
  map Message.sequence_number
      (List.filter (fun m => (Message.message_id m =? cur)%string) (messages (db w))) = [a] ->
  a <> 0 ->
  wp (load_thread_items tid (Some limit) (Some (CursorStr cur)) "asc") w
     (fun r w' =>
        r = inr (page_of limit
                   (List.filter (fun m => a <? Message.sequence_number m)
                      (order_by Message.sequence_number false (thread_rows tid (db w)))))
        /\ db w' = db w /\ faults w' = None).
Proof.
  intros Huuid Hlookup Ha.
  destruct (uuid_not_int cur Huuid) as [Hint Hne].
  unfold load_thread_items, load_thread_items_try.
  apply wp_try, wp_bind, wp_logger. cbn beta iota.
  assert (Htruthy : cursor_truthy (Some (CursorStr cur)) = true).
  { simpl. destruct (String.eqb_spec cur ""); [contradiction | reflexivity]. }
  rewrite Htruthy, Hint. cbv iota.
  apply wp_bind, wp_bind, wp_execute_healthy; [exact healthy |]. cbn beta iota.
  cbn [db faults add_log default from_option id].
  rewrite Hlookup. apply wp_ret. cbn beta iota.
  apply wp_bind, wp_execute_healthy; [exact healthy |]. cbn beta iota.
  cbn [db faults add_log default from_option id].
  change (("asc" =? "asc")%string) with true. cbn [negb].
  rewrite filter_order_by.
  replace (List.filter _ (messages (db w)))
    with (List.filter (fun m => a <? Message.sequence_number m) (thread_rows tid (db w))).
  - apply listing_tail; [reflexivity | exact healthy |].
    intros w' Hdb Hf. cbn beta iota. auto.
  - unfold thread_rows. destruct (Z.eqb_spec a 0) as [? | _]; [contradiction |].
    clear Hlookup.
    induction (messages (db w)) as [| m l IH]; simpl; [reflexivity |].
    destruct (Message.thread_id m =? tid)%string; simpl; rewrite IH; reflexivity.
Qed.

End HealthyListing.

(** ** Sorted rows and cursors *)

Lemma NoDup_map_filter {A K} (f : A -> K) (p : A -> bool) (l : list A) :
  NoDup (map f l) -> NoDup (map f (List.filter p l)).
Proof.
  induction l as [| a l IH]; simpl; [auto |].
  intros Hnd. apply NoDup_cons in Hnd as [Hna Hnd].
  destruct (p a); simpl; [| auto].
  apply NoDup_cons. split; [| auto].
  intros Hin. apply Hna. apply list_elem_of_In in Hin. apply list_elem_of_In.
  apply in_map_iff in Hin as (x & Hx & Hin). apply filter_In in Hin as [Hin _].
  apply in_map_iff. eauto.
Qed.

Lemma NoDup_map_source {A K} (f : A -> K) (l : list A) :
  NoDup (map f l) -> NoDup l.
Proof.
  induction l as [| a l IH]; simpl; intros Hnd; [constructor |].
  apply NoDup_cons in Hnd as [Hna Hnd]. apply NoDup_cons. split; [| auto].
  intros Hin. apply Hna. apply list_elem_of_In, in_map, list_elem_of_In, Hin.
Qed.

Lemma sorted_strict {A} (key : A -> Z) (l : list A) :
  StronglySorted (fun x y => (key x <=? key y) = true) l ->
  NoDup (map key l) ->
  StronglySorted (fun x y => key x < key y) l.
Proof.
  induction 1 as [| a l Hs IH Ha]; simpl; intros Hnd; [constructor |].
  apply NoDup_cons in Hnd as [Hna Hnd].
  constructor; [auto |].
  apply List.Forall_forall. intros y Hy.
  rewrite List.Forall_forall in Ha. specialize (Ha y Hy). apply Z.leb_le in Ha.
  assert (key a <> key y); [| lia].
  intros E. apply Hna. rewrite E. apply list_elem_of_In, in_map, Hy.
Qed.

Lemma filter_all {A} (p : A -> bool) (l : list A) :
  Forall (fun x => p x = true) l -> List.filter p l = l.
Proof.
  induction 1 as [| a l Ha _ IH]; simpl; [reflexivity |].
  rewrite Ha, IH. reflexivity.
Qed.

(** In rows sorted by strictly increasing key, the rows after the one at
    index [i] are those with a larger key. *)
Lemma filter_after_sorted {A} (key : A -> Z) (l : list A) :
  StronglySorted (fun x y => key x < key y) l ->
  forall i m, l !! i = Some m ->
              List.filter (fun x => key m <? key x) l = drop (S i) l.
Proof.
  induction 1 as [| a l Hs IH Ha]; intros i m Hi; [discriminate |].
  destruct i as [| i]; simpl in Hi.
  - injection Hi as <-. simpl. rewrite Z.ltb_irrefl.
    apply filter_all. eapply List.Forall_impl; [| exact Ha].
    intros y Hy. apply Z.ltb_lt. exact Hy.
  - simpl.
    assert (Hlt : key a < key m).
    { rewrite List.Forall_forall in Ha. apply Ha.
      apply list_elem_of_In. eapply list_elem_of_lookup_2. exact Hi. }
    destruct (Z.ltb_spec (key m) (key a)); [lia |].
    apply IH. exact Hi.
Qed.

(** A key that no other row carries selects its row. *)
Lemma filter_by_key {A} (key : A -> string) (l : list A) (x : A) :
  NoDup (map key l) -> In x l ->
  List.filter (fun y => (key y =? key x)%string) l = [x].
Proof.
  induction l as [| a l IH]; simpl; intros Hnd Hin; [contradiction |].
  apply NoDup_cons in Hnd as [Hna Hnd].
  destruct Hin as [-> | Hin].
  - rewrite String.eqb_refl. f_equal.
    apply filter_nil_iff. intros y Hy. apply String.eqb_neq. intros E.
    apply Hna. rewrite <- E. apply list_elem_of_In, in_map, Hy.
  - destruct (String.eqb_spec (key a) (key x)) as [E | _]; [| auto].
    exfalso. apply Hna. rewrite E. apply list_elem_of_In, in_map, Hin.
Qed.

Section SortedThread.

Variables (d : database) (tid : string).
Hypothesis ok : messages_ok d.

Let S : list Message.t := order_by Message.sequence_number false (thread_rows tid d).

Lemma sorted_rows_stored (m : Message.t) :
  In m S -> In m (messages d) /\ Message.thread_id m = tid.
Proof.
  intros Hin. apply (Permutation_in _ (order_by_perm _ _ _)) in Hin.
  apply filter_In in Hin as [Hin Htid]. split; [exact Hin |].
  apply String.eqb_eq. exact Htid.
Qed.

Lemma thread_sequence_unique :
  NoDup (map Message.sequence_number (thread_rows tid d)).
Proof.
  pose proof (NoDup_map_filter
                (fun m => (Message.thread_id m, Message.sequence_number m))
                (fun m => (Message.thread_id m =? tid)%string) (messages d)
                (uq_messages_thread_sequence d ok)) as Hnd.
  fold (thread_rows tid d) in Hnd.
  apply (NoDup_map_source (pair tid)). rewrite map_map.
  erewrite map_ext_in; [exact Hnd |].
  intros m Hin. cbv beta. apply filter_In in Hin as [_ Htid].
  apply String.eqb_eq in Htid. rewrite Htid. reflexivity.
Qed.

Lemma sorted_rows_increase :
  StronglySorted (fun x y => Message.sequence_number x < Message.sequence_number y) S.
Proof.
  apply sorted_strict.
  - exact (order_by_sorted Message.sequence_number false (thread_rows tid d)).
  - assert (Hperm : Permutation (map Message.sequence_number S)
                                (map Message.sequence_number (thread_rows tid d)))
      by apply Permutation_map, order_by_perm.
    rewrite Hperm. exact thread_sequence_unique.
Qed.

Lemma sorted_rows_checked (m : Message.t) :
  In m S ->
  to_item m = [loaded m]
  /\ Message.sequence_number m <> 0
  /\ Py.is_uuid (Message.message_id m) = true
  /\ map Message.sequence_number
       (List.filter (fun m' => (Message.message_id m' =? Message.message_id m)%string)
                    (messages d))
     = [Message.sequence_number m].
Proof.
  intros Hin. apply sorted_rows_stored in Hin as [Hin _].
  pose proof (chk_messages d ok) as Hchk. pose proof (uuid_message_id d ok) as Huuid.
  rewrite List.Forall_forall in Hchk, Huuid.
  destruct (Hchk m Hin) as [Hrole Hseq]. specialize (Huuid m Hin).
  repeat apply conj.
  - unfold to_item, loaded. unfold chk_messages_role in Hrole.
    destruct (Message.role m =? "user")%string; [reflexivity |].
    simpl in Hrole. rewrite Hrole. reflexivity.
  - unfold chk_messages_sequence_positive in Hseq. lia.
  - exact Huuid.
  - rewrite (filter_by_key Message.message_id _ m (messages_pkey d ok) Hin). reflexivity.
Qed.

Lemma loaded_rows (l : list Message.t) :
  (forall m, In m l -> In m S) -> concat (map to_item l) = map loaded l.
Proof.
  induction l as [| m l IH]; intros Hsub; [reflexivity |].
  cbn [map concat].
  destruct (sorted_rows_checked m (Hsub m (or_introl eq_refl))) as [-> _].
  rewrite IH; [reflexivity |]. intros m' Hm'. apply Hsub. right. exact Hm'.
Qed.

End SortedThread.

(** ** Paging through a thread *)

Section Paging.

Variables (d : database) (tid : string) (limit : Z).
Hypothesis ok : messages_ok d.
Hypothesis limit_positive : 1 <= limit.

Let S : list Message.t := order_by Message.sequence_number false (thread_rows tid d).

(** One request from position [k] returns the next [limit] rows. *)
Lemma next_request (k : nat) (c : option cursor) (w : world) :
  db w = d -> faults w = None -> cursor_at S k c ->
  exists w',
    load_thread_items tid (Some limit) c "asc" w = (inr (page_of limit (drop k S)), w')
    /\ db w' = d /\ faults w' = None.
Proof.
  intros Hdb Hf Hc.
  assert (Hl : 0 <= limit) by lia.
  destruct k as [| k]; cbn [cursor_at] in Hc.
  - subst c. pose proof (listing_first_page w tid limit Hf Hl) as H.
    unfold wp in H. destruct (load_thread_items _ _ _ _ w) as [r w'].
    cbn [fst snd] in H. destruct H as (-> & Hdb' & Hf').
    exists w'. rewrite Hdb. fold S. rewrite drop_0.
    split; [reflexivity |]. split; congruence.
  - destruct Hc as (m & Hm & ->).
    assert (Hin : In m S) by (apply list_elem_of_In; eapply list_elem_of_lookup_2; exact Hm).
    destruct (sorted_rows_checked d tid ok m Hin) as (_ & Hnz & Huuid & Hlookup).
    rewrite <- Hdb in Hlookup.
    pose proof (listing_next_page w tid limit Hf Hl _ _ Huuid Hlookup Hnz) as H.
    unfold wp in H. destruct (load_thread_items _ _ _ _ w) as [r w'].
    cbn [fst snd] in H. destruct H as (-> & Hdb' & Hf').
    exists w'. rewrite Hdb. fold S.
    rewrite (filter_after_sorted Message.sequence_number S
               (sorted_rows_increase d tid ok) k m Hm).
    split; [reflexivity |]. split; congruence.
Qed.

Lemma page_items (k : nat) :
  data (page_of limit (drop k S)) = map loaded (take (Z.to_nat limit) (drop k S)).
Proof.
  unfold page_of. cbn [data]. apply (loaded_rows d tid ok).
  intros m Hm. apply list_elem_of_In in Hm. apply list_elem_of_In.
  apply elem_of_take in Hm as (i & Hi & _).
  rewrite lookup_drop in Hi. eapply list_elem_of_lookup_2. exact Hi.
Qed.

Lemma paging_from (fuel : nat) :
  forall (k : nat) (c : option cursor) (w : world),
    db w = d -> faults w = None -> cursor_at S k c ->
    (length S - k < fuel)%nat ->
    exists pages,
      list_all fuel tid limit c w = Some pages
      /\ concat (map data pages) = map loaded (drop k S)
      /\ Forall (fun p => Z.of_nat (length (data p)) <= limit) pages.
Proof.
  induction fuel as [| fuel IH]; intros k c w Hdb Hf Hc Hfuel; [lia |].
  destruct (next_request k c w Hdb Hf Hc) as (w' & Hrun & Hdb' & Hf').
  cbn [list_all]. rewrite Hrun.
  assert (Hsize : Z.of_nat (length (data (page_of limit (drop k S)))) <= limit).
  { rewrite page_items, length_map, length_take. lia. }
  destruct (has_more (page_of limit (drop k S))) eqn:Hmore;
    unfold page_of in Hmore; cbn [has_more] in Hmore.
  - apply Z.ltb_lt in Hmore. rewrite length_drop in Hmore.
    set (L := Z.to_nat limit) in *.
    assert (HL : (1 <= L)%nat) by lia.
    assert (Hlast : exists m, S !! (k + L - 1)%nat = Some m
                              /\ last (take L (drop k S)) = Some m).
    { destruct (lookup_lt_is_Some_2 S (k + L - 1)%nat) as [m Hm]; [lia |].
      exists m. split; [exact Hm |].
      rewrite last_lookup, length_take, length_drop.
      replace (Init.Nat.pred (L `min` (length S - k))) with (L - 1)%nat by lia.
      rewrite lookup_take_lt by lia. rewrite lookup_drop.
      replace (k + (L - 1))%nat with (k + L - 1)%nat by lia. exact Hm. }
    destruct Hlast as (m & Hm & Hlast).
    destruct (IH (k + L)%nat (Some (CursorStr (Message.message_id m))) w' Hdb' Hf')
      as (pages & Hpages & Hdata & Hall).
    + replace (k + L)%nat with (Datatypes.S (k + L - 1)) by lia.
      exists m. split; [exact Hm | reflexivity].
    + lia.
    + exists (page_of limit (drop k S) :: pages).
      assert (Hafter : after (page_of limit (drop k S)) = Some (Message.message_id m)).
      { unfold page_of. cbn [after]. fold L. rewrite length_drop.
        destruct (Z.ltb_spec limit (Z.of_nat (length S - k))); [| lia].
        rewrite Hlast. reflexivity. }
      rewrite Hafter. cbn [fmap option_fmap option_map]. rewrite Hpages.
      split; [reflexivity |]. split; [| constructor; assumption].
      cbn [map concat]. rewrite Hdata, page_items. fold L.
      rewrite <- map_app. f_equal.
      rewrite <- drop_drop. apply take_drop.
  - apply Z.ltb_ge in Hmore. rewrite length_drop in Hmore.
    exists [page_of limit (drop k S)].
    split; [reflexivity |]. split; [| repeat constructor; exact Hsize].
    cbn [map concat]. rewrite app_nil_r, page_items.
    rewrite take_ge by (rewrite length_drop; lia). reflexivity.
Qed.

End Paging.

(** More requests than needed change nothing. *)
Lemma list_all_more_fuel (fuel : nat) :
  forall (tid : string) (limit : Z) (c : option cursor) (w : world)
         (pages : list ItemPage) (fuel' : nat),
    list_all fuel tid limit c w = Some pages ->
    (fuel <= fuel')%nat ->
    list_all fuel' tid limit c w = Some pages.
Proof.
  induction fuel as [| fuel IH]; intros tid limit c w pages fuel' Hrun Hle;
    [discriminate |].
  destruct fuel' as [| fuel']; [lia |].
  cbn [list_all] in *.
  destruct (load_thread_items tid (Some limit) c "asc" w) as [[e | page] w'];
    [discriminate |].
  destruct (has_more page); [| exact Hrun].
  destruct (list_all fuel tid limit (CursorStr <$> after page) w') as [rest |] eqn:Hrest;
    [| discriminate].
  rewrite (IH _ _ _ _ rest fuel' Hrest) by lia. exact Hrun.
Qed.


Lemma sample_messages_ok :
  messages_ok (db (Sample.world_with Sample.untitled Sample.three_rows)).
Proof.
  split.
  - refine (bool_decide_unpack _ _). vm_compute. exact I.
  - refine (bool_decide_unpack _ _). vm_compute. exact I.
  - repeat constructor.
  - repeat constructor.
Qed.


(** The two pages of the sample thread at limit 2. *)
Example sample_pages :
  map (fun p => (map (fun i => match i with
                               | LoadedUserMessage id _ _ _ => id
                               | LoadedAssistantMessage id _ _ _ => id
                               end) (data p), has_more p, after p))
      <$> list_all 4 Sample.thread1 2 None
            (Sample.world_with Sample.untitled Sample.three_rows)
  = Some [([Sample.m1; Sample.m2], true, Some Sample.m2);
          ([Sample.m3], false, None)].
Proof. vm_compute. reflexivity. Qed.

(** With a limit of 0 a thread that has rows is never listed: every
    request answers an empty page with [has_more] set and no cursor, so a
    client that follows the cursor repeats its first request for ever. *)
Lemma zero_limit_never_advances (w : world) (tid : string) :
  faults w = None ->
  thread_rows tid (db w) <> [] ->
  forall fuel, list_all fuel tid 0 None w = None.
Proof.
  intros Hf Hrows fuel. revert w Hf Hrows.
  induction fuel as [| fuel IH]; intros w Hf Hrows; [reflexivity |].
  pose proof (listing_first_page w tid 0 Hf ltac:(lia)) as H. unfold wp in H.
  cbn [list_all]. destruct (load_thread_items tid (Some 0) None "asc" w) as [r w'].
  cbn [fst snd] in H. destruct H as (-> & Hdb & Hf').
  assert (Hlen : (0 <? Z.of_nat (length (order_by Message.sequence_number false
                                           (thread_rows tid (db w))))) = true).
  { apply Z.ltb_lt. rewrite (Permutation_length (order_by_perm _ _ _)).
    destruct (thread_rows tid (db w)); [contradiction | simpl; lia]. }
  unfold page_of. cbn [has_more after]. rewrite Hlen.
  cbn [Z.to_nat take last fmap option_fmap option_map].
  rewrite IH; [reflexivity | exact Hf' | rewrite Hdb; exact Hrows].
Qed.

(** ** Failed writes *)

Lemma delete_thread_spec (tid : string) (uid : option string) (w : world) :
  wp (delete_thread tid uid) w
     (fun r w' =>
        match r with
        | inr _ => flush (db_now w) (db w) [DeleteThread tid] = inr (db w')
        | inl _ => db w' = db w
        end).
Proof.
  unfold delete_thread, delete_thread_try.
  apply wp_try, wp_bind.
  destruct (Py.truthy uid).
  - wp_steps; try reflexivity.
    destruct (head _); wp_steps; try reflexivity; try assumption.
    destruct e; wp_steps; reflexivity.
  - wp_steps; try reflexivity; try assumption.
    destruct e; wp_steps; reflexivity.
Qed.

Lemma delete_thread_item_spec (tid mid : string) (w : world) :
  wp (delete_thread_item tid mid) w
     (fun r w' =>
        match r with
        | inr _ => flush (db_now w) (db w) [DeleteMessage tid mid] = inr (db w')
        | inl _ => db w' = db w
        end).
Proof.
  unfold delete_thread_item, delete_thread_item_try.
  wp_steps; try reflexivity; assumption.
Qed.

(** X1. No partial writes.  A write operation that raises a
    storage-layer exception (a failed round trip, a rejected statement or
    row, a scalar query with two rows) has changed neither table, whatever
    it had done before the failure. *)
Lemma failed_writes_change_nothing (w : world) (e : exn) :
  storage_layer e ->
  (forall thread ctx w', save_thread thread ctx w = (inl e, w') -> db w' = db w)
  /\ (forall tid item w', add_thread_item tid item w = (inl e, w') -> db w' = db w)
  /\ (forall tid item w', save_item tid item w = (inl e, w') -> db w' = db w)
  /\ (forall tid uid w', delete_thread tid uid w = (inl e, w') -> db w' = db w)
  /\ (forall tid mid w', delete_thread_item tid mid w = (inl e, w') -> db w' = db w).
Proof.
  intros He. repeat apply conj; intros * Hrun.
  - pose proof (wp_run _ _ _ _ _ (save_thread_spec thread ctx w) Hrun) as H.
    destruct e; try contradiction; exact H.
  - exact (wp_run _ _ _ _ _ (add_thread_item_spec tid item w) Hrun).
  - exact (wp_run _ _ _ _ _ (save_item_spec tid item w) Hrun).
  - exact (wp_run _ _ _ _ _ (delete_thread_spec tid uid w) Hrun).
  - exact (wp_run _ _ _ _ _ (delete_thread_item_spec tid mid w) Hrun).
Qed.

(* ===================================================================== *)
(** * Further properties of the code *)
(* ===================================================================== *)

(** ** Reads *)

Lemma wp_sql_limit_any {B} (n : Z) (rows : list B) (w : world)
    (Q : exn + list B -> world -> Prop) :
  (forall e, Q (inl e) w) -> (forall found, Q (inr found) w) -> wp (sql_limit n rows) w Q.
Proof.
  intros He Hr. unfold sql_limit. destruct (n <? 0); [apply wp_raise, He | apply wp_ret, Hr].
Qed.

Lemma listing_keeps_tables (tid : string) (limit : option Z) (cur : option cursor)
    (order : string) (w : world) :
  wp (load_thread_items tid limit cur order) w
     (fun r w' => (exists a, r = inr a) /\ db w' = db w).
Proof.
  unfold load_thread_items, load_thread_items_try.
  apply wp_try, wp_bind, wp_logger. cbn beta iota. apply wp_bind.
  destruct (cursor_truthy cur);
    [destruct cur as [[n | s] |]; [| destruct (Py.int s) |] |];
    wp_steps; eauto;
    apply wp_sql_limit_any; intros; wp_steps; eauto;
    apply wp_log_each; intros w1 Hdb1 _; wp_steps;
    cbn [db add_log set_faults] in *; (split; [eauto | congruence]).
Qed.

(** X2. The four read operations of the store never let an exception
    through and leave both tables as they found them, whatever the state
    of the connection and whatever the arguments. *)
Theorem reads_leave_tables (w : world) :
  (forall tid uid,
      (exists r, fst (load_thread tid uid w) = inr r)
      /\ db (snd (load_thread tid uid w)) = db w)
  /\ (forall uid limit cur order ctx,
        (exists r, fst (load_threads uid limit cur order ctx w) = inr r)
        /\ db (snd (load_threads uid limit cur order ctx w)) = db w)
  /\ (forall tid limit cur order,
        (exists r, fst (load_thread_items tid limit cur order w) = inr r)
        /\ db (snd (load_thread_items tid limit cur order w)) = db w)
  /\ (forall tid mid,
        (exists r, fst (load_item tid mid w) = inr r)
        /\ db (snd (load_item tid mid w)) = db w).
Proof.
  repeat apply conj; intros.
  - change (wp (load_thread tid uid) w
              (fun r w' => (exists a, r = inr a) /\ db w' = db w)).
    unfold load_thread, load_thread_try. wp_steps; eauto.
    destruct (head _); [| destruct (Py.truthy uid)]; wp_steps; eauto.
  - change (wp (load_threads uid limit cur order ctx) w
              (fun r w' => (exists a, r = inr a) /\ db w' = db w)).
    unfold load_threads, load_threads_try. apply wp_try.
    destruct (negb (Py.truthy _)); [wp_steps; eauto |].
    apply wp_bind. destruct (Py.truthy cur); wp_steps; eauto.
    + apply wp_sql_limit_any; intros; wp_steps; eauto.
    + apply wp_sql_limit_any; intros; wp_steps; eauto.
  - exact (listing_keeps_tables tid limit cur order w).
  - change (wp (load_item tid mid) w
              (fun r w' => (exists a, r = inr a) /\ db w' = db w)).
    unfold load_item, load_item_try. wp_steps; eauto.
Qed.

(** ** Saving threads *)

Lemma no_thread_no_rows (tid : string) (d : database) :
  has_thread tid d = false ->
  List.filter (fun t => (Thread.thread_id t =? tid)%string) (threads d) = [].
Proof.
  unfold has_thread. intros Hnone. apply filter_nil_iff. intros t Hin.
  destruct (Thread.thread_id t =? tid)%string eqn:E; [| reflexivity].
  assert (existsb (fun x => (Thread.thread_id x =? tid)%string) (threads d) = true)
    by (apply existsb_exists; eauto).
  congruence.
Qed.

Lemma save_thread_new_run (thread : ThreadMetadata.t) (ctx : context) (w : world)
    (u : string) :
  faults w = None ->
  has_thread (ThreadMetadata.id thread) (db w) = false ->
  names_owner thread ctx u ->
  ThreadMetadata.created_at thread <= utcnow w ->
  title_fits (new_thread_row thread u (utcnow w)) = true ->
  save_thread thread ctx w
  = (inr tt,
     add_log (DEBUG, "Saved thread")
       (set_db (mk_database (threads (db w) ++ [new_thread_row thread u (utcnow w)])
                            (messages (db w))) w)).
Proof.
  intros Hf Hnone [Hu Hsrc] Hts Hfit.
  unfold save_thread, save_thread_try. store_simpl. rewrite Hf. store_simpl.
  rewrite (no_thread_no_rows _ _ Hnone). store_simpl.
  assert (Huid :
    (if negb (Py.truthy (ThreadMetadata.metadata thread !! "user_id"))
        && match ctx with Some c => negb (bool_decide (c = ∅)) | None => false end
     then (default ∅ ctx) !! "user_id"
     else ThreadMetadata.metadata thread !! "user_id") = Some u).
  { destruct Hsrc as [Hmd | [Hmd [c [-> Hc]]]].
    - rewrite Hmd, (truthy_Some u Hu). reflexivity.
    - rewrite Hmd. cbn [negb andb default from_option id].
      destruct (bool_decide_reflect (c = ∅)) as [-> | _].
      + rewrite lookup_empty in Hc. discriminate.
      + exact Hc. }
  rewrite Huid, (truthy_Some u Hu). store_simpl. rewrite Hf. store_simpl.
  rewrite lookup_insert_ne by discriminate.
  fold (new_thread_row thread u (utcnow w)).
  rewrite flush_one. unfold flush_change.
  change (Thread.thread_id (new_thread_row thread u (utcnow w)))
    with (ThreadMetadata.id thread).
  rewrite Hnone. unfold check_threads. cbn [forallb].
  rewrite Hfit. unfold chk_threads_timestamps.
  change (Thread.created_at (new_thread_row thread u (utcnow w)))
    with (ThreadMetadata.created_at thread).
  change (Thread.updated_at (new_thread_row thread u (utcnow w))) with (utcnow w).
  destruct (Z.leb_spec (ThreadMetadata.created_at thread) (utcnow w)); [| lia].
  reflexivity.
Qed.

Lemma load_thread_run (tid : string) (uid : option string) (w : world) (t : Thread.t) :
  faults w = None ->
  List.filter (fun t' =>
      (Thread.thread_id t' =? tid)%string
      && (if Py.truthy uid then (Thread.user_id t' =? default "" uid)%string else true))
    (threads (db w)) = [t] ->
  fst (load_thread tid uid w) = inr (Some (to_metadata t)).
Proof.
  intros Hf Hrows. unfold load_thread, load_thread_try. store_simpl.
  rewrite Hf. store_simpl. rewrite Hrows. reflexivity.
Qed.

Lemma load_thread_none (tid : string) (uid : option string) (w : world) :
  List.filter (fun t' =>
      (Thread.thread_id t' =? tid)%string
      && (if Py.truthy uid then (Thread.user_id t' =? default "" uid)%string else true))
    (threads (db w)) = [] ->
  fst (load_thread tid uid w) = inr None.
Proof.
  intros Hrows. unfold load_thread, load_thread_try. store_simpl.
  destruct (faults w) as [[| k] |]; store_simpl; rewrite ?Hrows;
    try reflexivity; destruct (Py.truthy uid); reflexivity.
Qed.



(** X4. A thread that is not stored yet cannot be saved without an owner:
    when neither its metadata nor the request context names a user,
    [save_thread] raises [ValueError] and both tables stay as they are. *)
Theorem save_thread_requires_owner
    (thread : ThreadMetadata.t) (ctx : context) (w : world) :
  faults w <> Some 0%nat ->
  has_thread (ThreadMetadata.id thread) (db w) = false ->
  Py.truthy (ThreadMetadata.metadata thread !! "user_id") = false ->
  Py.truthy (default ∅ ctx !! "user_id") = false ->
  fst (save_thread thread ctx w)
    = inl (ValueError "user_id required in thread metadata or context")
  /\ db (snd (save_thread thread ctx w)) = db w.
Proof.
  intros Hf Hnone Hmd Hctx.
  unfold save_thread, save_thread_try. store_simpl.
  destruct (faults w) as [[| k] |]; [congruence | |];
    store_simpl; rewrite (no_thread_no_rows _ _ Hnone); store_simpl;
    rewrite Hmd; cbn [negb andb];
    (destruct ctx as [c |]; [destruct (bool_decide (c = ∅)) |]);
    cbn [negb default from_option id] in *; rewrite ?Hctx, ?Hmd;
    split; reflexivity.
Qed.

Lemma save_thread_requires_owner_witness :
  fst (save_thread (ThreadMetadata.mk Sample.m1 50 {["title" := "Kinematics"]})
         (Some {["user_id" := ""]})
         (Sample.world_with Sample.untitled []))
    = inl (ValueError "user_id required in thread metadata or context")
  /\ db (snd (save_thread (ThreadMetadata.mk Sample.m1 50 {["title" := "Kinematics"]})
                (Some {["user_id" := ""]})
                (Sample.world_with Sample.untitled [])))
     = db (Sample.world_with Sample.untitled []).
Proof.
  apply (save_thread_requires_owner
           (ThreadMetadata.mk Sample.m1 50 {["title" := "Kinematics"]})
           (Some {["user_id" := ""]})
           (Sample.world_with Sample.untitled []));
    [discriminate | reflexivity | reflexivity | reflexivity].
Defined.

(** X5. Saving a thread that is already stored never returns normally.
    Whatever the world, the call ends in an exception; on a healthy store
    whose thread identifiers are unique, for a stored row that passes its
    checks at the new time, the exception is [UnboundLocalError] for
    [user_id], raised after the commit: the metadata of that row and its
    [updated_at] are replaced, its owner, title and creation time and
    every other row are kept, whoever the caller is. *)
Theorem save_thread_update_raises
    (thread : ThreadMetadata.t) (ctx : context) (w : world) (t : Thread.t) :
  In t (threads (db w)) ->
  Thread.thread_id t = ThreadMetadata.id thread ->
  (forall r, fst (save_thread thread ctx w) <> inr r)
  /\ (faults w = None ->
      NoDup (map Thread.thread_id (threads (db w))) ->
      Thread.created_at t <= utcnow w ->
      title_fits t = true ->
      fst (save_thread thread ctx w) = inl (UnboundLocalError "user_id")
      /\ messages (db (snd (save_thread thread ctx w))) = messages (db w)
      /\ threads (db (snd (save_thread thread ctx w)))
         = map (fun t' => if (Thread.thread_id t' =? ThreadMetadata.id thread)%string
                          then Thread.mk (Thread.thread_id t) (Thread.user_id t)
                                 (Thread.title t) (ThreadMetadata.metadata thread)
                                 (Thread.created_at t) (utcnow w)
                          else t') (threads (db w))).
Proof.
  intros Hin Hid. split.
  - intros r.
    change (wp (save_thread thread ctx) w (fun r' _ => r' <> inr r)).
    unfold save_thread, save_thread_try. wp_steps; try discriminate.
    destruct (head _) as [e |] eqn:Hhead.
    + wp_steps; discriminate.
    + exfalso.
      destruct (List.filter _ (threads (db w))) as [| x l] eqn:Hfil;
        [| discriminate].
      pose proof (proj1 (filter_nil_iff _ _) Hfil t Hin) as Hno.
      cbv beta in Hno. rewrite Hid, String.eqb_refl in Hno. discriminate.
  - intros Hf Hpk Hts Hfit.
    assert (Hrows : List.filter
                      (fun t' => (Thread.thread_id t' =? ThreadMetadata.id thread)%string)
                      (threads (db w)) = [t]).
    { rewrite <- Hid. apply filter_by_key; assumption. }
    unfold save_thread, save_thread_try. store_simpl. rewrite Hf. store_simpl.
    rewrite Hrows. store_simpl. rewrite Hf. store_simpl.
    rewrite flush_one. unfold flush_change. rewrite Hid, Hrows.
    unfold check_threads. cbn [map forallb].
    assert (Hchk : chk_threads_timestamps
                     (with_metadata (ThreadMetadata.metadata thread) (utcnow w) t) = true).
    { unfold chk_threads_timestamps. cbn. apply Z.leb_le. exact Hts. }
    assert (Hfit' : title_fits
                      (with_metadata (ThreadMetadata.metadata thread) (utcnow w) t) = true)
      by exact Hfit.
    rewrite Hchk, Hfit'. store_simpl.
    repeat apply conj; try reflexivity.
    cbn [db set_db add_log threads].
    apply map_ext_in. intros t' Hin'.
    destruct (String.eqb_spec (Thread.thread_id t') (ThreadMetadata.id thread)) as [E | _];
      [| reflexivity].
    rewrite (NoDup_key_eq Thread.thread_id _ t' t Hpk Hin' Hin) by congruence.
    unfold with_metadata. rewrite ?Hid. reflexivity.
Qed.

Lemma save_thread_update_raises_witness :
  (forall r, fst (save_thread (ThreadMetadata.mk Sample.thread1 10 {["theme" := "dark"]})
                    None (Sample.world_with Sample.untitled [])) <> inr r)
  /\ fst (save_thread (ThreadMetadata.mk Sample.thread1 10 {["theme" := "dark"]})
            None (Sample.world_with Sample.untitled []))
     = inl (UnboundLocalError "user_id")
  /\ threads (db (snd (save_thread (ThreadMetadata.mk Sample.thread1 10 {["theme" := "dark"]})
                         None (Sample.world_with Sample.untitled []))))
     = [Thread.mk Sample.thread1 Sample.alice None {["theme" := "dark"]} 10 100].
Proof.
  destruct (save_thread_update_raises
              (ThreadMetadata.mk Sample.thread1 10 {["theme" := "dark"]})
              None (Sample.world_with Sample.untitled []) Sample.untitled
              ltac:(left; reflexivity) eq_refl) as [Hnever Hhealthy].
  split; [exact Hnever |].
  destruct (Hhealthy eq_refl
              ltac:(refine (bool_decide_unpack _ _); vm_compute; exact I)
              ltac:(simpl; lia) eq_refl) as (Hres & _ & Hthreads).
  split; [exact Hres | exact Hthreads].
Defined.

(** ** Deleting *)

Lemma filter_conj_nil {A} (p q : A -> bool) (l : list A) :
  List.filter p l = [] -> List.filter (fun x => p x && q x) l = [].
Proof.
  intros Hp. apply filter_nil_iff. intros x Hin.
  rewrite (proj1 (filter_nil_iff _ _) Hp x Hin). reflexivity.
Qed.

Lemma filter_filter_neg {A} (p : A -> bool) (l : list A) :
  List.filter p (List.filter (fun x => negb (p x)) l) = [].
Proof.
  apply filter_nil_iff. intros x Hin. apply filter_In in Hin.
  destruct Hin as [_ Hneg]. destruct (p x); [discriminate | reflexivity].
Qed.

Lemma order_by_nil {A} (key : A -> Z) (desc : bool) : order_by key desc [] = [].
Proof. reflexivity. Qed.

Lemma slice_to_nil {A} (n : Z) : Py.slice_to n (@nil A) = [].
Proof. unfold Py.slice_to. destruct (0 <=? n); apply take_nil. Qed.

(** What the reads of a thread answer when the table holds no row of it. *)
Lemma empty_thread_reads (tid : string) (w : world) :
  thread_rows tid (db w) = [] ->
  (forall mid, fst (load_item tid mid w) = inr None)
  /\ (forall limit cur order,
        exists page, fst (load_thread_items tid limit cur order w) = inr page
                     /\ data page = []).
Proof.
  unfold thread_rows. intros Hnone. split.
  - intros mid.
    change (wp (load_item tid mid) w (fun r _ => r = inr None)).
    unfold load_item, load_item_try. wp_steps; try reflexivity.
    rewrite (filter_conj_nil _ _ _ Hnone). reflexivity.
  - intros limit cur order.
    change (wp (load_thread_items tid limit cur order) w
              (fun r _ => exists page, r = inr page /\ data page = [])).
    unfold load_thread_items, load_thread_items_try.
    apply wp_try, wp_bind, wp_logger. cbn beta iota. apply wp_bind.
    destruct (cursor_truthy cur);
      [destruct cur as [[n | s] |]; [| destruct (Py.int s) |] |];
      wp_steps; eauto;
      rewrite (filter_conj_nil _ _ _ Hnone), order_by_nil;
      (unfold sql_limit; destruct (_ <? 0); wp_steps; eauto);
      rewrite take_nil, slice_to_nil;
      (apply wp_log_each; intros; wp_steps);
      (destruct (_ <? _); eauto).
Qed.

Lemma filter_andb {A} (p q : A -> bool) (l : list A) :
  List.filter (fun x => p x && q x) l = List.filter q (List.filter p l).
Proof.
  induction l as [| x l IH]; [reflexivity |]. cbn [List.filter].
  destruct (p x); cbn [andb List.filter]; [destruct (q x) |]; rewrite IH; reflexivity.
Qed.

Lemma owner_row (l : list Thread.t) (t : Thread.t) :
  NoDup (map Thread.thread_id l) -> In t l ->
  List.filter (fun t' => (Thread.thread_id t' =? Thread.thread_id t)%string
                         && (Thread.user_id t' =? Thread.user_id t)%string) l = [t].
Proof.
  intros Hpk Hin.
  rewrite (filter_andb (fun t' => (Thread.thread_id t' =? Thread.thread_id t)%string)).
  rewrite (filter_by_key Thread.thread_id l t Hpk Hin).
  cbn [List.filter]. rewrite String.eqb_refl. reflexivity.
Qed.

Lemma filter_filter_kept {A} (p q : A -> bool) (l : list A) :
  (forall x, q x = true -> p x = true) ->
  List.filter q (List.filter p l) = List.filter q l.
Proof.
  intros Hqp. induction l as [| x l IH]; [reflexivity |]. cbn [List.filter].
  destruct (q x) eqn:Hq.
  - rewrite (Hqp x Hq). cbn [List.filter]. rewrite Hq, IH. reflexivity.
  - destruct (p x); cbn [List.filter]; rewrite ?Hq; exact IH.
Qed.

Lemma delete_thread_run (tid : string) (uid : option string) (w : world) :
  faults w = None ->
  (Py.truthy uid = false
   \/ exists t, List.filter (fun t' => (Thread.thread_id t' =? tid)%string
                                       && (Thread.user_id t' =? default "" uid)%string)
                            (threads (db w)) = [t]) ->
  delete_thread tid uid w
  = (inr tt,
     add_log (INFO, "Deleted thread")
       (set_db (mk_database
                  (List.filter (fun t => negb (Thread.thread_id t =? tid)%string)
                               (threads (db w)))
                  (List.filter (fun m => negb (Message.thread_id m =? tid)%string)
                               (messages (db w)))) w)).
Proof.
  intros Hf Hmay. unfold delete_thread, delete_thread_try. store_simpl.
  destruct Hmay as [Hno | [t Hrows]].
  - rewrite Hno. store_simpl. rewrite Hf. store_simpl. rewrite Hf. reflexivity.
  - destruct (Py.truthy uid).
    + store_simpl. rewrite Hf. store_simpl. rewrite Hrows. store_simpl.
      rewrite Hf. store_simpl. rewrite Hf. reflexivity.
    + store_simpl. rewrite Hf. store_simpl. rewrite Hf. reflexivity.
Qed.





(** ** Reading back what was written *)

Lemma load_item_run (tid mid : string) (w : world) (m : Message.t) :
  faults w = None ->
  List.filter (fun m' => (Message.thread_id m' =? tid)%string
                         && (Message.message_id m' =? mid)%string) (messages (db w)) = [m] ->
  chk_messages_role (Message.role m) = true ->
  fst (load_item tid mid w) = inr (Some (loaded m)).
Proof.
  intros Hf Hrows Hrole. unfold load_item, load_item_try. store_simpl.
  rewrite Hf. store_simpl. rewrite Hrows. cbn [fst head]. unfold to_item, loaded.
  unfold chk_messages_role in Hrole.
  destruct (Message.role m =? "user")%string; [reflexivity |].
  destruct (Message.role m =? "assistant")%string; [reflexivity | discriminate].
Qed.



(** ** The schema as an invariant *)

Lemma has_thread_In (tid : string) (d : database) :
  has_thread tid d = true <-> In tid (map Thread.thread_id (threads d)).
Proof.
  unfold has_thread. rewrite existsb_exists, in_map_iff.
  split; intros (t & H1 & H2); exists t.
  - apply String.eqb_eq in H2. auto.
  - split; [exact H2 | apply String.eqb_eq; exact H1].
Qed.

Lemma has_thread_ids (tid : string) (d d' : database) :
  map Thread.thread_id (threads d') = map Thread.thread_id (threads d) ->
  has_thread tid d' = has_thread tid d.
Proof.
  intros Hids. apply eq_true_iff_eq. rewrite !has_thread_In, Hids. reflexivity.
Qed.

Lemma check_threads_inv (touched : list Thread.t) (d d' : database) :
  check_threads touched d = inr d' ->
  d' = d
  /\ forall t, In t touched -> chk_threads_timestamps t = true /\ title_fits t = true.
Proof.
  unfold check_threads.
  destruct (forallb chk_threads_timestamps touched) eqn:H1; cbn [negb]; [| discriminate].
  destruct (forallb title_fits touched) eqn:H2; cbn [negb]; [| discriminate].
  intros [= <-]. split; [reflexivity |]. intros t Hin.
  rewrite forallb_forall in H1, H2. auto.
Qed.

(** Rewriting rows in place, keeping their identifiers. *)
Lemma rewrite_threads_ok (d : database) (hit : Thread.t -> bool) (f : Thread.t -> Thread.t) :
  (forall t, Thread.thread_id (f t) = Thread.thread_id t) ->
  (forall t, In t (map f (List.filter hit (threads d))) ->
             chk_threads_timestamps t = true /\ title_fits t = true) ->
  schema_ok d ->
  schema_ok (mk_database (map (fun t => if hit t then f t else t) (threads d))
                         (messages d)).
Proof.
  intros Hid Hchk [Hpt Hpm Huq Hct Hcm Hfk].
  assert (Hids : map Thread.thread_id
                   (map (fun t => if hit t then f t else t) (threads d))
                 = map Thread.thread_id (threads d)).
  { rewrite map_map. apply map_ext. intros t. destruct (hit t); [apply Hid | reflexivity]. }
  constructor; cbn [threads messages]; try assumption.
  - rewrite Hids. exact Hpt.
  - apply List.Forall_forall. intros t' Hin. apply in_map_iff in Hin.
    destruct Hin as (t & <- & Hin). destruct (hit t) eqn:Hhit.
    + apply Hchk. apply in_map. apply filter_In. auto.
    + exact (proj1 (List.Forall_forall _ _) Hct t Hin).
  - apply List.Forall_forall. intros m Hin.
    rewrite (has_thread_ids _ d) by exact Hids.
    exact (proj1 (List.Forall_forall _ _) Hfk m Hin).
Qed.

Lemma NoDup_map_snoc {A K} (key : A -> K) (l : list A) (x : A) :
  NoDup (map key l) -> (forall y, In y l -> key y <> key x) ->
  NoDup (map key (l ++ [x])).
Proof.
  intros Hnd Hfresh. rewrite map_app. apply NoDup_app. repeat apply conj.
  - exact Hnd.
  - intros k Hk Hk'. apply list_elem_of_In in Hk. apply in_map_iff in Hk.
    destruct Hk as (y & <- & Hy). cbn [map] in Hk'.
    apply list_elem_of_In in Hk'. destruct Hk' as [E | []].
    exact (Hfresh y Hy (eq_sym E)).
  - apply NoDup_singleton.
Qed.

(** One statement of a flush keeps the schema. *)
Lemma flush_change_keeps_schema (now : Z) (d d' : database) (c : change) :
  schema_ok d -> flush_change now d c = inr d' -> schema_ok d'.
Proof.
  intros Hok Hrun. destruct c; cbn [flush_change] in Hrun.
  - (* InsertThread *)
    destruct (has_thread (Thread.thread_id t) d) eqn:Hnew; [discriminate |].
    apply check_threads_inv in Hrun. destruct Hrun as [-> Hchk].
    destruct Hok as [Hpt Hpm Huq Hct Hcm Hfk].
    constructor; cbn [threads messages]; try assumption.
    + apply NoDup_map_snoc; [exact Hpt |]. intros y Hy E.
      assert (has_thread (Thread.thread_id t) d = true)
        by (apply has_thread_In; rewrite <- E; apply in_map; exact Hy).
      congruence.
    + apply List.Forall_app. split; [exact Hct |].
      constructor; [apply Hchk; left; reflexivity | constructor].
    + apply List.Forall_forall. intros m Hin.
      apply has_thread_In. cbn [threads]. rewrite map_app. apply in_or_app. left.
      apply has_thread_In. exact (proj1 (List.Forall_forall _ _) Hfk m Hin).
  - (* UpdateThread *)
    apply check_threads_inv in Hrun. destruct Hrun as [-> Hchk].
    apply (rewrite_threads_ok d _ (with_metadata metadata updated_at));
      [reflexivity | exact Hchk | exact Hok].
  - (* SetTitle *)
    apply check_threads_inv in Hrun. destruct Hrun as [-> Hchk].
    apply (rewrite_threads_ok d _ (with_title title now));
      [reflexivity | exact Hchk | exact Hok].
  - (* InsertMessage *)
    apply (insert_message_inv now d d') in Hrun.
    destruct Hrun as (-> & Hrole & Hlen & Hseq & Hpk & Hfk' & Huq').
    destruct Hok as [Hpt Hpm Huq Hct Hcm Hfk].
    constructor; cbn [threads messages]; try assumption.
    + apply NoDup_map_snoc; [exact Hpm |]. intros y Hy. apply Hpk. exact Hy.
    + apply NoDup_map_snoc; [exact Huq |]. intros y Hy E.
      cbn [Message.thread_id Message.sequence_number] in E.
      injection E as E1 E2. exact (Huq' y Hy E1 E2).
    + apply List.Forall_app. split; [exact Hcm |].
      constructor; [| constructor].
      cbn [Message.role Message.content Message.sequence_number].
      repeat apply conj; try assumption.
      unfold chk_messages_sequence_positive. apply Z.leb_le. exact Hseq.
    + apply List.Forall_app. split.
      * apply List.Forall_forall. intros m Hin.
        exact (proj1 (List.Forall_forall _ _) Hfk m Hin).
      * constructor; [exact Hfk' | constructor].
  - (* UpdateMessage *)
    apply (update_message_inv now) in Hrun.
    destruct Hrun as (Hthreads & Hmsgs & Hrole & Hlen).
    destruct Hok as [Hpt Hpm Huq Hct Hcm Hfk].
    destruct d' as [ts ms]. cbn [threads messages] in *. subst ts ms.
    constructor; cbn [threads messages]; try assumption.
    + rewrite map_map.
      erewrite map_ext; [exact Hpm |]. intros m.
      destruct (Message.message_id m =? message_id)%string; reflexivity.
    + rewrite map_map.
      erewrite map_ext; [exact Huq |]. intros m.
      destruct (Message.message_id m =? message_id)%string; reflexivity.
    + apply List.Forall_forall. intros m' Hin. apply in_map_iff in Hin.
      destruct Hin as (m & <- & Hin).
      pose proof (proj1 (List.Forall_forall _ _) Hcm m Hin) as (H1 & H2 & H3).
      destruct (Message.message_id m =? message_id)%string; auto.
    + apply List.Forall_forall. intros m' Hin. apply in_map_iff in Hin.
      destruct Hin as (m & <- & Hin).
      pose proof (proj1 (List.Forall_forall _ _) Hfk m Hin) as H1.
      destruct (Message.message_id m =? message_id)%string; exact H1.
  - (* DeleteThread *)
    injection Hrun as <-.
    destruct Hok as [Hpt Hpm Huq Hct Hcm Hfk].
    constructor; cbn [threads messages].
    + apply NoDup_map_filter. exact Hpt.
    + apply NoDup_map_filter. exact Hpm.
    + apply NoDup_map_filter. exact Huq.
    + apply List.Forall_forall. intros t Hin. apply filter_In in Hin.
      exact (proj1 (List.Forall_forall _ _) Hct t (proj1 Hin)).
    + apply List.Forall_forall. intros m Hin. apply filter_In in Hin.
      exact (proj1 (List.Forall_forall _ _) Hcm m (proj1 Hin)).
    + apply List.Forall_forall. intros m Hin. apply filter_In in Hin.
      destruct Hin as [Hin Hkeep].
      pose proof (proj1 (List.Forall_forall _ _) Hfk m Hin) as Hhas.
      apply has_thread_In in Hhas. apply in_map_iff in Hhas.
      destruct Hhas as (t & Hid & Ht).
      apply has_thread_In. cbn [threads]. apply in_map_iff. exists t.
      split; [exact Hid |]. apply filter_In. split; [exact Ht |].
      rewrite Hid. exact Hkeep.
  - (* DeleteMessage *)
    injection Hrun as <-.
    destruct Hok as [Hpt Hpm Huq Hct Hcm Hfk].
    constructor; cbn [threads messages]; try assumption.
    + apply NoDup_map_filter. exact Hpm.
    + apply NoDup_map_filter. exact Huq.
    + apply List.Forall_forall. intros m Hin. apply filter_In in Hin.
      exact (proj1 (List.Forall_forall _ _) Hcm m (proj1 Hin)).
    + apply List.Forall_forall. intros m Hin. apply filter_In in Hin.
      exact (proj1 (List.Forall_forall _ _) Hfk m (proj1 Hin)).
Qed.

Lemma flush_keeps_schema (now : Z) (cs : list change) :
  forall d d', schema_ok d -> flush now d cs = inr d' -> schema_ok d'.
Proof.
  induction cs as [| c cs IH]; intros d d' Hok Hrun; cbn [flush] in Hrun.
  - injection Hrun as <-. exact Hok.
  - destruct (flush_change now d c) as [e | d1] eqn:Hc; [discriminate |].
    exact (IH d1 d' (flush_change_keeps_schema now d d1 c Hok Hc) Hrun).
Qed.

(** X9. The schema is an invariant of the write operations.  From tables
    that satisfy the primary keys, the unique constraint on (thread,
    sequence number), the check constraints, the title length and the
    foreign key of messages, every call of [save_thread],
    [add_thread_item], [save_item], [delete_thread] and
    [delete_thread_item] leaves tables that satisfy them again, whether the
    call returns or raises and whatever its arguments. *)
Theorem writes_keep_schema (w : world) :
  schema_ok (db w) ->
  (forall thread ctx, schema_ok (db (snd (save_thread thread ctx w))))
  /\ (forall tid item, schema_ok (db (snd (add_thread_item tid item w))))
  /\ (forall tid item, schema_ok (db (snd (save_item tid item w))))
  /\ (forall tid uid, schema_ok (db (snd (delete_thread tid uid w))))
  /\ (forall tid mid, schema_ok (db (snd (delete_thread_item tid mid w)))).
Proof.
  intros Hok. repeat apply conj; intros.
  - pose proof (save_thread_spec thread ctx w) as H. unfold wp in H.
    destruct (fst (save_thread thread ctx w)) as [[] | []];
      try (rewrite H; exact Hok).
    + destruct H as (existing & _ & Hflush).
      exact (flush_keeps_schema _ _ _ _ Hok Hflush).
    + destruct H as (row & Hflush & _).
      exact (flush_keeps_schema _ _ _ _ Hok Hflush).
  - pose proof (add_thread_item_spec tid item w) as H. unfold wp in H.
    destruct (fst (add_thread_item tid item w)).
    + rewrite H. exact Hok.
    + exact (flush_keeps_schema _ _ _ _ Hok H).
  - pose proof (save_item_spec tid item w) as H. unfold wp in H.
    destruct (fst (save_item tid item w)).
    + rewrite H. exact Hok.
    + exact (flush_keeps_schema _ _ _ _ Hok (proj1 H)).
  - pose proof (delete_thread_spec tid uid w) as H. unfold wp in H.
    destruct (fst (delete_thread tid uid w)).
    + rewrite H. exact Hok.
    + exact (flush_keeps_schema _ _ _ _ Hok H).
  - pose proof (delete_thread_item_spec tid mid w) as H. unfold wp in H.
    destruct (fst (delete_thread_item tid mid w)).
    + rewrite H. exact Hok.
    + exact (flush_keeps_schema _ _ _ _ Hok H).
Qed.

Lemma sample_schema_ok :
  schema_ok (db (Sample.world_with Sample.untitled Sample.three_rows)).
Proof.
  constructor; cbn [db Sample.world_with threads messages].
  - refine (bool_decide_unpack _ _). vm_compute. exact I.
  - refine (bool_decide_unpack _ _). vm_compute. exact I.
  - refine (bool_decide_unpack _ _). vm_compute. exact I.
  - repeat constructor.
  - repeat constructor.
  - repeat constructor.
Defined.

Lemma writes_keep_schema_witness :
  schema_ok (db (snd (add_thread_item Sample.thread1
                        (Sample.user_says "__fake_id__" "And the inverse?")
                        (Sample.world_with Sample.untitled Sample.three_rows))))
  /\ schema_ok (db (snd (delete_thread Sample.thread1 (Some Sample.alice)
                           (Sample.world_with Sample.untitled Sample.three_rows)))).
Proof.
  destruct (writes_keep_schema
              (Sample.world_with Sample.untitled Sample.three_rows) sample_schema_ok)
    as (_ & Hadd & _ & Hdel & _).
  split; [apply Hadd | apply Hdel].
Defined.

(** ** Cursors and orders of [load_thread_items] *)

Lemma int_of_empty : Py.int "" = None.
Proof. reflexivity. Qed.



Lemma sorted_strengthen {A} (R R' : A -> A -> Prop) (l : list A) :
  StronglySorted R l ->
  (forall x y, In x l -> In y l -> R x y -> R' x y) ->
  StronglySorted R' l.
Proof.
  induction 1 as [| a l Hs IH Ha]; intros Himp; constructor.
  - apply IH. intros x y Hx Hy. apply Himp; right; assumption.
  - apply List.Forall_forall. intros y Hy. rewrite List.Forall_forall in Ha.
    apply Himp; [left; reflexivity | right; exact Hy | exact (Ha y Hy)].
Qed.

Lemma sorted_map {A} (key : A -> Z) (R : Z -> Z -> Prop) (l : list A) :
  StronglySorted (fun x y => R (key x) (key y)) l -> StronglySorted R (map key l).
Proof.
  induction 1 as [| a l _ IH Ha]; cbn [map]; constructor; [exact IH |].
  apply List.Forall_forall. intros n Hn. apply in_map_iff in Hn as (y & <- & Hy).
  rewrite List.Forall_forall in Ha. apply Ha, Hy.
Qed.

(** Rows with pairwise different keys come out of [ORDER BY] strictly
    increasing, or strictly decreasing when the order is descending. *)
Lemma order_by_strict {A} (key : A -> Z) (desc : bool) (l : list A) :
  NoDup (map key l) ->
  StronglySorted (fun x y => if desc then key y < key x else key x < key y)
                 (order_by key desc l).
Proof.
  intros Hnd.
  assert (Hnd' : NoDup (map key (order_by key desc l))).
  { assert (Hperm : Permutation (map key (order_by key desc l)) (map key l))
      by apply Permutation_map, order_by_perm.
    rewrite Hperm. exact Hnd. }
  pose proof (order_by_sorted key desc l) as Hs. cbv beta zeta in Hs.
  revert Hs Hnd'. generalize (order_by key desc l). intros rows Hs.
  induction Hs as [| a rows Hs IH Ha]; intros Hnd'; [constructor |].
  cbn [map] in Hnd'. apply NoDup_cons in Hnd' as [Hna Hnd'].
  constructor; [exact (IH Hnd') |].
  apply List.Forall_forall. intros y Hy.
  rewrite List.Forall_forall in Ha. specialize (Ha y Hy).
  assert (key a <> key y).
  { intros E. apply Hna. rewrite E. apply list_elem_of_In, in_map, Hy. }
  destruct desc; apply Z.leb_le in Ha; lia.
Qed.

Lemma thread_sequence_nodup (tid : string) (d : database) :
  NoDup (map (fun m => (Message.thread_id m, Message.sequence_number m)) (messages d)) ->
  NoDup (map Message.sequence_number (thread_rows tid d)).
Proof.
  intros Huq.
  pose proof (NoDup_map_filter
                (fun m => (Message.thread_id m, Message.sequence_number m))
                (fun m => (Message.thread_id m =? tid)%string) (messages d) Huq) as Hnd.
  fold (thread_rows tid d) in Hnd.
  apply (NoDup_map_source (pair tid)). rewrite map_map.
  erewrite map_ext_in; [exact Hnd |].
  intros m Hin. cbv beta. apply filter_In in Hin as [_ Htid].
  apply String.eqb_eq in Htid. rewrite Htid. reflexivity.
Qed.

Lemma checked_rows_load (d : database) (l : list Message.t) :
  schema_ok d -> (forall m, In m l -> In m (messages d)) ->
  concat (map to_item l) = map loaded l.
Proof.
  intros Hok. induction l as [| m l IH]; intros Hsub; [reflexivity |].
  cbn [map concat]. rewrite IH by (intros m' Hm'; apply Hsub; right; exact Hm').
  pose proof (proj1 (List.Forall_forall _ _) (ck_messages d Hok) m
                (Hsub m (or_introl eq_refl))) as (Hrole & _ & _).
  unfold to_item, loaded. unfold chk_messages_role in Hrole.
  destruct (Message.role m =? "user")%string; [reflexivity |].
  cbn [orb] in Hrole. rewrite Hrole. reflexivity.
Qed.

(** The first page of a thread on a healthy store, in either order. *)
Lemma first_page_run (w : world) (tid order : string) (limit : Z) :
  faults w = None -> 0 <= limit ->
  wp (load_thread_items tid (Some limit) None order) w
     (fun r w' =>
        r = inr (page_of limit
                   (order_by Message.sequence_number (negb (order =? "asc")%string)
                             (thread_rows tid (db w))))
        /\ db w' = db w /\ faults w' = None).
Proof.
  intros healthy Hlimit.
  unfold load_thread_items, load_thread_items_try.
  apply wp_try, wp_bind, wp_logger. cbn beta iota.
  change (cursor_truthy None) with false. cbv iota.
  apply wp_bind, wp_ret. cbn beta iota.
  apply wp_bind, wp_execute_healthy; [exact healthy |]. cbn beta iota.
  cbn [db faults add_log default from_option id].
  replace (List.filter _ (messages (db w))) with (thread_rows tid (db w)).
  - apply (listing_tail w limit Hlimit); [reflexivity | exact healthy |].
    intros w' Hdb Hf. cbn beta iota. auto.
  - unfold thread_rows. apply List.filter_ext. intros m. symmetry. apply andb_true_r.
Qed.

(** X11. The first page of a thread, in either order.  On a healthy store
    whose tables satisfy the schema, [load_thread_items] without a cursor
    answers the first [limit] rows of the thread sorted by sequence number,
    each as the item of its role: strictly increasing when [order] is the
    string "asc", strictly decreasing (latest first) for every other
    [order]; [has_more] tells whether the thread has more rows than
    [limit]. *)
Theorem first_page_by_order (w : world) (tid order : string) (limit : Z) :
  faults w = None -> 0 <= limit -> schema_ok (db w) ->
  exists rows page,
    fst (load_thread_items tid (Some limit) None order w) = inr page
    /\ data page = map loaded (take (Z.to_nat limit) rows)
    /\ has_more page = (limit <? Z.of_nat (length (thread_rows tid (db w))))
    /\ Permutation rows (thread_rows tid (db w))
    /\ StronglySorted (fun x y => if (order =? "asc")%string then x < y else y < x)
                      (map Message.sequence_number rows).
Proof.
  intros Hf Hlimit Hok.
  set (rows := order_by Message.sequence_number (negb (order =? "asc")%string)
                        (thread_rows tid (db w))).
  assert (Hperm : Permutation rows (thread_rows tid (db w))) by apply order_by_perm.
  exists rows, (page_of limit rows).
  destruct (first_page_run w tid order limit Hf Hlimit) as (Hres & _ & _).
  repeat apply conj.
  - exact Hres.
  - cbn [page_of data]. apply (checked_rows_load (db w)); [exact Hok |].
    intros m Hin. apply list_elem_of_In in Hin. apply elem_of_take in Hin.
    destruct Hin as (i & Hi & _). apply list_elem_of_lookup_2, list_elem_of_In in Hi.
    apply (Permutation_in _ Hperm) in Hi. apply filter_In in Hi. exact (proj1 Hi).
  - cbn [page_of has_more]. rewrite (Permutation_length Hperm). reflexivity.
  - exact Hperm.
  - apply sorted_map.
    pose proof (order_by_strict Message.sequence_number (negb (order =? "asc")%string)
                  (thread_rows tid (db w))
                  (thread_sequence_nodup tid (db w) (uq_thread_sequence (db w) Hok)))
      as Hs.
    fold rows in Hs. destruct (order =? "asc")%string; exact Hs.
Qed.

Lemma first_page_by_order_witness :
  exists rows page,
    fst (load_thread_items Sample.thread1 (Some 2) None "desc"
           (Sample.world_with Sample.untitled Sample.three_rows)) = inr page
    /\ data page = map loaded (take 2 rows)
    /\ has_more page = true
    /\ Permutation rows Sample.three_rows
    /\ StronglySorted (fun x y => y < x) (map Message.sequence_number rows).
Proof.
  exact (first_page_by_order (Sample.world_with Sample.untitled Sample.three_rows)
           Sample.thread1 "desc" 2 eq_refl ltac:(lia) sample_schema_ok).
Defined.

(** ** Listing the threads of a user *)

(** The rows [load_threads] and [load_thread_items] keep of a query are a
    prefix of its rows, of at most [limit] of them. *)
Lemma page_prefix {A} (limit : Z) (rows : list A) :
  0 <= limit + 1 ->
  exists k : nat,
    (if limit <? Z.of_nat (length (take (Z.to_nat (limit + 1)) rows))
     then Py.slice_to limit (take (Z.to_nat (limit + 1)) rows)
     else take (Z.to_nat (limit + 1)) rows) = take k rows
    /\ Z.of_nat k <= Z.max 0 limit.
Proof.
  intros Hn. destruct (Z.ltb_spec limit 0) as [Hneg | Hpos].
  - assert (limit = -1) as -> by lia. exists 0%nat.
    change (Z.to_nat (-1 + 1)) with 0%nat. rewrite take_0. cbn. split; [reflexivity | lia].
  - exists (Z.to_nat limit).
    destruct (page_rows limit rows Hpos) as [Hpage _]. cbv zeta in Hpage.
    rewrite Hpage. split; [reflexivity | lia].
Qed.

Lemma sorted_take {A} (R : A -> A -> Prop) (k : nat) (l : list A) :
  StronglySorted R l -> StronglySorted R (take k l).
Proof.
  intros Hs. revert k. induction Hs as [| a l Hs IH Ha]; intros [| k]; cbn [take];
    try constructor.
  - apply IH.
  - apply List.Forall_forall. intros y Hy. rewrite List.Forall_forall in Ha.
    apply Ha. apply list_elem_of_In in Hy. apply elem_of_take in Hy as (i & Hi & _).
    apply list_elem_of_In. eapply list_elem_of_lookup_2. exact Hi.
Qed.

Section ThreadListing.

Variables (w : world) (uid : option string) (limit : Z) (cur : option string)
          (order : string) (ctx : context).

(** The user the listing is for: the argument, or else the one the
    request context names. *)
Let listed_for (u : string) : Prop :=
  uid = Some u \/ (uid = None /\ exists c, ctx = Some c /\ c !! "user_id" = Some u).

Let before (x y : Thread.t) : Prop :=
  if (order =? "desc")%string then Thread.updated_at y <= Thread.updated_at x
  else Thread.updated_at x <= Thread.updated_at y.

Let shape (rows : list Thread.t) (next : option string) : Prop :=
  Z.of_nat (length rows) <= Z.max 0 limit
  /\ (forall t, In t rows ->
        In t (threads (db w)) /\ forall u, listed_for u -> Thread.user_id t = u)
  /\ StronglySorted before rows
  /\ (forall c tc, cur = Some c -> c <> "" ->
        List.filter (fun t => (Thread.thread_id t =? c)%string) (threads (db w)) = [tc] ->
        forall t, In t rows ->
                  if (order =? "desc")%string
                  then Thread.updated_at t < Thread.updated_at tc
                  else Thread.updated_at tc < Thread.updated_at t)
  /\ (forall c, next = Some c ->
        exists t, last rows = Some t /\ Thread.thread_id t = c).

Lemma empty_shape : shape [] None.
Proof.
  unfold shape.
  repeat apply conj;
    [cbn; lia | intros t [] | constructor | intros c tc _ _ _ t [] | discriminate].
Qed.


End ThreadListing.


(** ** The history handed to the agent *)

Section History.

Variable run_agent : ThreadMetadata.t -> list loaded_item -> world -> agent_run.

(** X13. What [respond] does with a valid message.  It always runs the
    agent, on a world with the same tables, and its stream is the agent's
    events followed by the closing event of the way the run ended (none
    after a completed run); the branch for a failure to load the history is
    never taken.  On a healthy store whose tables satisfy the schema the
    history is the items of the first 20 rows of the thread by increasing
    sequence number, that is the oldest 20, and with the connection down it
    is empty. *)
Theorem respond_runs_agent
    (thread : ThreadMetadata.t) (blocks : list content_block) (w : world) :
  ~ invalid_input (Some blocks) ->
  exists history w1,
    db w1 = db w
    /\ fst (respond run_agent thread (Some blocks) w)
       = (relayed (run_agent thread history w1)
          ++ closing (ending (run_agent thread history w1)))%list
    /\ db (snd (respond run_agent thread (Some blocks) w))
       = db (after_run (run_agent thread history w1))
    /\ (faults w = Some 0%nat -> history = [])
    /\ (faults w = None -> schema_ok (db w) ->
        history
        = map loaded
            (take 20 (order_by Message.sequence_number false
                        (thread_rows (ThreadMetadata.id thread) (db w))))).
Proof.
  intros Hvalid. cbn [invalid_input] in Hvalid.
  assert (H1 : (message_text blocks =? "")%string = false)
    by (apply String.eqb_neq; tauto).
  assert (H2 : (Py.strip (message_text blocks) =? "")%string = false)
    by (apply String.eqb_neq; tauto).
  assert (H3 : (100000 <? Py.len (message_text blocks)) = false)
    by (apply Z.ltb_ge; lia).
  unfold respond. rewrite H1, H2, H3. cbn [orb].
  set (w0 := add_log (INFO, "Processing message") w).
  pose proof (listing_keeps_tables (ThreadMetadata.id thread) (Some 20) None "asc" w0)
    as Hkeep. unfold wp in Hkeep.
  destruct (load_thread_items (ThreadMetadata.id thread) (Some 20) None "asc" w0)
    as [[e | page] w1] eqn:Hload; cbn [fst snd] in Hkeep.
  { destruct Hkeep as [[a Ha] _]. discriminate. }
  destruct Hkeep as [_ Hdb].
  exists (data page), (add_log (INFO, "[LOADED HISTORY]") w1).
  repeat apply conj.
  - exact Hdb.
  - destruct (ending _); cbn [fst closing]; rewrite ?app_nil_r; reflexivity.
  - destruct (ending _); reflexivity.
  - intros Hf.
    assert (Hrun : load_thread_items (ThreadMetadata.id thread) (Some 20) None "asc" w0
                   = (inr (mk_ItemPage [] false None),
                      add_log (ERROR, "[LOAD_THREAD_ITEMS] Error loading items from thread")
                        (add_log (INFO, "[LOAD_THREAD_ITEMS] Loading items for thread") w0))).
    { subst w0. unfold load_thread_items, load_thread_items_try.
      change (cursor_truthy None) with false. store_simpl.
      rewrite Hf. reflexivity. }
    rewrite Hrun in Hload. injection Hload as <- _. reflexivity.
  - intros Hf Hok.
    pose proof (first_page_run w0 (ThreadMetadata.id thread) "asc" 20 Hf ltac:(lia))
      as Hfirst. unfold wp in Hfirst. rewrite Hload in Hfirst.
    destruct Hfirst as [Hpage _]. injection Hpage as ->.
    cbn [page_of data]. apply (checked_rows_load (db w)); [exact Hok |].
    intros m Hin. apply list_elem_of_In in Hin. apply elem_of_take in Hin.
    destruct Hin as (i & Hi & _). apply list_elem_of_lookup_2, list_elem_of_In in Hi.
    apply (Permutation_in _ (order_by_perm _ _ _)) in Hi.
    apply filter_In in Hi. exact (proj1 Hi).
Qed.

End History.

Lemma respond_runs_agent_witness :
  exists history w1,
    db w1 = db (Sample.world_with Sample.untitled Sample.three_rows)
    /\ fst (respond Sample.silent_agent (to_metadata Sample.untitled)
              (Some [TextBlock "And its inverse?"])
              (Sample.world_with Sample.untitled Sample.three_rows))
       = (relayed (Sample.silent_agent (to_metadata Sample.untitled) history w1)
          ++ closing (ending (Sample.silent_agent (to_metadata Sample.untitled)
                                history w1)))%list
    /\ history = map loaded Sample.three_rows.
Proof.
  destruct (respond_runs_agent Sample.silent_agent (to_metadata Sample.untitled)
              [TextBlock "And its inverse?"]
              (Sample.world_with Sample.untitled Sample.three_rows))
    as (history & w1 & Hdb & Hstream & _ & _ & Hhistory).
  - intros [H | [H | H]]; [discriminate H | discriminate H | vm_compute in H; discriminate H].
  - exists history, w1. repeat apply conj; [exact Hdb | exact Hstream |].
    exact (Hhistory eq_refl sample_schema_ok).
Defined.

(** ** Substrings *)

Lemma prefix_spec (p s : string) :
  String.prefix p s = true <-> exists b, s = (p ++ b)%string.
Proof.
  revert s. induction p as [| c p IH]; intros s.
  - split; [intros _; exists s; reflexivity | destruct s; reflexivity].
  - destruct s as [| c' s].
    + split; [discriminate | intros [b Hb]; discriminate].
    + change (String.prefix (String c p) (String c' s))
        with (match ascii_dec c c' with
              | left _ => String.prefix p s
              | right _ => false
              end).
      destruct (ascii_dec c c') as [<- | Hne].
      * rewrite IH. split; intros [b Hb]; exists b; simpl in *;
          [rewrite Hb; reflexivity | injection Hb; auto].
      * split; [discriminate |].
        intros [b Hb]. injection Hb as E _. exfalso. apply Hne. symmetry. exact E.
Qed.

Lemma contains_spec (sub s : string) :
  Py.contains sub s = true <-> exists a b, s = (a ++ sub ++ b)%string.
Proof.
  induction s as [| c s IH]; cbn [Py.contains]; rewrite orb_true_iff, prefix_spec.
  - split.
    + intros [[b Hb] | H]; [exists "", b; exact Hb | discriminate].
    + intros (a & b & Hab). left. destruct a; [exists b; exact Hab | discriminate].
  - rewrite IH. split.
    + intros [[b Hb] | (a & b & Hab)]; [exists "", b; exact Hb |].
      exists (String c a), b. rewrite Hab. reflexivity.
    + intros (a & b & Hab). destruct a as [| c' a].
      * left. exists b. exact Hab.
      * right. exists a, b. injection Hab as _ E. exact E.
Qed.

Lemma append_assoc (a b c : string) : ((a ++ b) ++ c = a ++ b ++ c)%string.
Proof.
  induction a as [| x a IH]; [reflexivity |].
  change (String x ((a ++ b) ++ c) = String x (a ++ b ++ c))%string.
  rewrite IH. reflexivity.
Qed.

(** X14. Which failures of the agent a client may retry.  The event
    [respond] makes of an exception of the agent run forbids a retry
    exactly when the lower-cased text of the exception mentions "quota",
    whatever else it mentions (a rate limit, a timeout); the separate test
    for "insufficient_quota" never decides anything. *)
Theorem retry_unless_quota (text : string) :
  (exists message,
     classify text = ErrorEvent message (negb (Py.contains "quota" (Py.lower text))))
  /\ Py.contains "quota" (Py.lower text)
      || Py.contains "insufficient_quota" (Py.lower text)
     = Py.contains "quota" (Py.lower text).
Proof.
  assert (Hsub : Py.contains "insufficient_quota" (Py.lower text) = true ->
                 Py.contains "quota" (Py.lower text) = true).
  { rewrite !contains_spec. intros (a & b & Hab).
    exists (a ++ "insufficient_")%string, b. rewrite Hab, append_assoc. reflexivity. }
  assert (Htest : Py.contains "quota" (Py.lower text)
                  || Py.contains "insufficient_quota" (Py.lower text)
                  = Py.contains "quota" (Py.lower text)).
  { destruct (Py.contains "quota" (Py.lower text)); [reflexivity |].
    destruct (Py.contains "insufficient_quota" (Py.lower text));
      [specialize (Hsub eq_refl); discriminate | reflexivity]. }
  split; [| exact Htest].
  unfold classify. cbv zeta. rewrite Htest. clear Hsub Htest.
  destruct (Py.contains "quota" (Py.lower text)); cbn [negb].
  - eexists. reflexivity.
  - destruct (Py.contains "rate limit" (Py.lower text) || Py.contains "429" (Py.lower text));
      [eexists; reflexivity |].
    destruct (Py.contains "timeout" (Py.lower text)
              || Py.contains "connection" (Py.lower text)); eexists; reflexivity.
Qed.

(** ** The budget of a window *)

Section RateLimitBudget.

Import RateLimit.

Variable u : string.
Hypothesis u_named : u ≠ "".

(** X15. The budget of one window of the rate limiter.  For requests of
    one user that all fall before the end of the window the user is in,
    with [c] requests counted so far: the first [60 - c] of them pass (none
    when [c] is 60 or more) and every later one is rejected with status 429
    and a Retry-After that is never negative; rejected requests are counted
    like the others, and the start of the window does not move. *)
Theorem window_budget (times : list Z) :
  forall (s : gmap string (Z * Z)) (c ws : Z),
    s !! u = Some (c, ws) ->
    Forall (fun t => t - ws < RATE_LIMIT_WINDOW) times ->
    exists s',
      serve u times s
      = ((replicate (Nat.min (Z.to_nat (RATE_LIMIT_REQUESTS - c)) (length times)) Passed
          ++ map (fun t => HTTPException 429 (whole_seconds (ws + RATE_LIMIT_WINDOW - t)))
                 (drop (Z.to_nat (RATE_LIMIT_REQUESTS - c)) times))%list,
         s')
      /\ s' !! u = Some (c + Z.of_nat (length times), ws)
      /\ Forall (fun t => 0 <= whole_seconds (ws + RATE_LIMIT_WINDOW - t)) times.
Proof.
  induction times as [| t rest IH]; intros s c ws Hs Hin.
  - exists s. rewrite Nat.min_0_r, drop_nil. cbn [replicate map app length serve].
    repeat apply conj; [reflexivity | rewrite Hs; do 2 f_equal; lia | constructor].
  - inversion Hin as [| ? ? Ht Hrest]; subst.
    destruct (IH (<[u := (c + 1, ws)]> s) (c + 1) ws (lookup_insert_eq _ _ _) Hrest)
      as (s' & Hrun & Hlook & Hretry).
    exists s'. repeat apply conj.
    + cbn [serve]. rewrite (rate_limit_counts u u_named s c ws t t Hs Ht), Hrun.
      destruct (Z.ltb_spec RATE_LIMIT_REQUESTS (c + 1)) as [Hfull | Hroom].
      * replace (Z.to_nat (RATE_LIMIT_REQUESTS - c)) with 0%nat by lia.
        replace (Z.to_nat (RATE_LIMIT_REQUESTS - (c + 1))) with 0%nat by lia.
        reflexivity.
      * replace (Z.to_nat (RATE_LIMIT_REQUESTS - c))
          with (S (Z.to_nat (RATE_LIMIT_REQUESTS - (c + 1)))) by lia.
        reflexivity.
    + rewrite Hlook. cbn [length]. do 2 f_equal. lia.
    + constructor; [| exact Hretry].
      unfold whole_seconds. apply Z.quot_pos; lia.
Qed.

End RateLimitBudget.

Lemma window_budget_witness :
  exists s',
    RateLimit.serve "u1" [30; 31; 32] (<["u1" := (58, 7)]> ∅)
    = ([RateLimit.Passed; RateLimit.Passed; RateLimit.HTTPException 429 59], s')
    /\ s' !! "u1" = Some (61, 7).
Proof.
  destruct (window_budget "u1" ltac:(discriminate) [30; 31; 32]
              (<["u1" := (58, 7)]> ∅) 58 7 (lookup_insert_eq _ _ _))
    as (s' & Hrun & Hlook & _).
  - repeat constructor.
  - exists s'. split; [exact Hrun | exact Hlook].
Defined.

(** X16. The rate limiter keeps users apart.  A request never changes the
    entry of another user, so the requests of one user cannot use up or
    reset the window of another; and a request without a user (none, or
    the empty string) passes and leaves the store untouched. *)
Theorem rate_limit_isolation
    (user_id : option string) (now fresh_now : Z) (store : gmap string (Z * Z)) :
  (forall v, user_id <> Some v ->
     snd (RateLimit.rate_limit_middleware user_id now fresh_now store) !! v = store !! v)
  /\ (Py.truthy user_id = false ->
      RateLimit.rate_limit_middleware user_id now fresh_now store
      = (RateLimit.Passed, store)).
Proof.
  split.
  - intros v Hv. unfold RateLimit.rate_limit_middleware.
    destruct (Py.truthy user_id) eqn:Htruthy; cbn [negb]; [| reflexivity].
    destruct user_id as [uid |]; [| discriminate]. cbn [default from_option id].
    assert (Hne : uid <> v) by congruence.
    destruct (store !! uid) as [[c ws] |] eqn:Hs.
    + rewrite Hs. cbn [default from_option id].
      destruct (_ <=? _); [cbn [snd]; apply lookup_insert_ne; exact Hne |].
      destruct (_ <? _); cbn [snd]; apply lookup_insert_ne; exact Hne.
    + rewrite lookup_insert_eq. cbn [default from_option id].
      destruct (_ <=? _);
        [cbn [snd]; rewrite !lookup_insert_ne by exact Hne; reflexivity |].
      destruct (_ <? _); cbn [snd]; rewrite !lookup_insert_ne by exact Hne; reflexivity.
  - intros Htruthy. unfold RateLimit.rate_limit_middleware. rewrite Htruthy. reflexivity.
Qed.

Lemma rate_limit_isolation_witness :
  snd (RateLimit.rate_limit_middleware (Some "u1") 30 30 (<["u2" := (60, 7)]> ∅)) !! "u2"
  = Some (60, 7)
  /\ RateLimit.rate_limit_middleware (Some "") 30 30 (<["u2" := (60, 7)]> ∅)
     = (RateLimit.Passed, (<["u2" := (60, 7)]> ∅)).
Proof.
  destruct (rate_limit_isolation (Some "u1") 30 30 (<["u2" := (60, 7)]> ∅)) as [Hother _].
  destruct (rate_limit_isolation (Some "") 30 30 (<["u2" := (60, 7)]> ∅)) as [_ Hanon].
  split; [rewrite Hother; [apply lookup_insert_eq | discriminate]
         | apply Hanon; reflexivity].
Defined.

(** ** ChatKit sessions *)

Section Dicts.

Context {V : Type}.
Implicit Types (d : Session.dict V) (k : string) (v : V).

Lemma dict_get_In d k v : Session.dict_get k d = Some v -> In (k, v) d.
Proof.
  induction d as [| [k' v'] d IH]; cbn [Session.dict_get]; [discriminate |].
  destruct (String.eqb_spec k' k) as [-> | _].
  - intros [= ->]. left. reflexivity.
  - intros H. right. exact (IH H).
Qed.

Lemma dict_get_None d k : Session.dict_get k d = None <-> ~ In k (map fst d).
Proof.
  induction d as [| [k' v'] d IH]; cbn [Session.dict_get map fst]; [tauto |].
  destruct (String.eqb_spec k' k) as [-> | Hne].
  - split; [discriminate | intros H; exfalso; apply H; left; reflexivity].
  - rewrite IH. split; [intros H [E | Hin]; [exact (Hne E) | exact (H Hin)] |].
    intros H Hin. apply H. right. exact Hin.
Qed.

Lemma dict_get_unique d k v :
  NoDup (map fst d) -> In (k, v) d -> Session.dict_get k d = Some v.
Proof.
  induction d as [| [k' v'] d IH]; cbn [Session.dict_get map fst]; intros Hnd Hin;
    [contradiction |].
  apply NoDup_cons in Hnd as [Hk' Hnd].
  destruct Hin as [[= -> ->] | Hin].
  - rewrite String.eqb_refl. reflexivity.
  - destruct (String.eqb_spec k' k) as [-> | _]; [| exact (IH Hnd Hin)].
    exfalso. apply Hk'. apply list_elem_of_In.
    change k with (fst (k, v)). apply in_map. exact Hin.
Qed.

Lemma dict_get_set_eq d k v : Session.dict_get k (Session.dict_set k v d) = Some v.
Proof.
  induction d as [| [k' v'] d IH]; cbn [Session.dict_set Session.dict_get].
  - rewrite String.eqb_refl. reflexivity.
  - destruct (String.eqb_spec k' k) as [-> | Hne]; cbn [Session.dict_get].
    + rewrite String.eqb_refl. reflexivity.
    + destruct (String.eqb_spec k' k); [contradiction | exact IH].
Qed.

Lemma dict_get_set_ne d k k0 v :
  k0 <> k -> Session.dict_get k0 (Session.dict_set k v d) = Session.dict_get k0 d.
Proof.
  intros Hne. induction d as [| [k' v'] d IH]; cbn [Session.dict_set Session.dict_get].
  - destruct (String.eqb_spec k k0); [congruence | reflexivity].
  - destruct (String.eqb_spec k' k) as [-> | Hk]; cbn [Session.dict_get].
    + destruct (String.eqb_spec k k0); [congruence | reflexivity].
    + rewrite IH. reflexivity.
Qed.

Lemma dict_set_key_in d k v x :
  In x (map fst (Session.dict_set k v d)) -> x = k \/ In x (map fst d).
Proof.
  induction d as [| [k' v'] d IH]; cbn [Session.dict_set map fst].
  - intros [<- | []]. left. reflexivity.
  - destruct (String.eqb_spec k' k) as [-> | Hk]; cbn [map fst].
    + intros [<- | Hin]; [left; reflexivity | right; right; exact Hin].
    + intros [<- | Hin]; [right; left; reflexivity |].
      destruct (IH Hin) as [-> | Hin']; [left; reflexivity | right; right; exact Hin'].
Qed.

Lemma dict_set_NoDup d k v :
  NoDup (map fst d) -> NoDup (map fst (Session.dict_set k v d)).
Proof.
  induction d as [| [k' v'] d IH]; cbn [Session.dict_set map fst]; intros Hnd.
  - apply NoDup_singleton.
  - apply NoDup_cons in Hnd as [Hk' Hnd].
    destruct (String.eqb_spec k' k) as [-> | Hk]; cbn [map fst]; apply NoDup_cons.
    + split; assumption.
    + split; [| exact (IH Hnd)]. intros Hin. apply list_elem_of_In in Hin.
      destruct (dict_set_key_in _ _ _ _ Hin) as [E | Hin']; [exact (Hk E) |].
      apply Hk'. apply list_elem_of_In. exact Hin'.
Qed.

(** Deleting a key of a dict takes its entry out and keeps the others in
    place. *)
Lemma dict_del_present d k :
  NoDup (map fst d) -> In k (map fst d) ->
  Session.dict_del k d = Some (List.filter (fun kv => negb (fst kv =? k)%string) d).
Proof.
  induction d as [| [k' v'] d IH]; cbn [Session.dict_del map fst List.filter];
    intros Hnd Hin; [contradiction |].
  apply NoDup_cons in Hnd as [Hk' Hnd].
  destruct (String.eqb_spec k' k) as [-> | Hne]; cbn [negb].
  - f_equal. symmetry. apply filter_all. apply List.Forall_forall.
    intros [k1 v1] H1. cbn [fst].
    destruct (String.eqb_spec k1 k) as [-> | _]; [| reflexivity].
    exfalso. apply Hk'. apply list_elem_of_In. change k with (fst (k, v1)).
    apply in_map. exact H1.
  - destruct Hin as [E | Hin]; [contradiction |].
    rewrite (IH Hnd Hin). reflexivity.
Qed.

Lemma filter_keys_NoDup d (p : string * V -> bool) :
  NoDup (map fst d) -> NoDup (map fst (List.filter p d)).
Proof. apply NoDup_map_filter. Qed.

Lemma dict_get_filter d (p : string * V -> bool) k :
  NoDup (map fst d) ->
  Session.dict_get k (List.filter p d)
  = match Session.dict_get k d with
    | Some v => if p (k, v) then Some v else None
    | None => None
    end.
Proof.
  intros Hnd. destruct (Session.dict_get k d) as [v |] eqn:Hget.
  - apply dict_get_In in Hget. destruct (p (k, v)) eqn:Hp.
    + apply dict_get_unique; [apply filter_keys_NoDup; exact Hnd |].
      apply filter_In. auto.
    + apply dict_get_None. intros Hin. apply in_map_iff in Hin.
      destruct Hin as ([k1 v1] & E & Hin). cbn [fst] in E. subst k1.
      apply filter_In in Hin as [Hin Hp1].
      assert (v1 = v).
      { apply dict_get_unique in Hin, Hget; try exact Hnd. congruence. }
      congruence.
  - apply dict_get_None. apply dict_get_None in Hget. intros Hin. apply Hget.
    apply in_map_iff in Hin. destruct Hin as (kv & E & Hin).
    apply filter_In in Hin as [Hin _]. rewrite <- E. apply in_map. exact Hin.
Qed.

End Dicts.

(** Unfolds one layer of the session code and the state projections. *)
Ltac session_simpl :=
  cbv beta iota zeta delta
    [Session.bind Session.ret Session.raise Session.try_except Session.utcnow
     Session.token_urlsafe Session.read_store Session.store_set Session.store_del];
  cbn [Session.session_store Session.clock Session.ticks Session.tokens Session.drawn
       Session.set_store fst snd].

Lemma set_store_twice (d d' : Session.dict Session.session) (s : Session.state) :
  Session.set_store d (Session.set_store d' s) = Session.set_store d s.
Proof. reflexivity. Qed.

Lemma filter_out_middle {V} (pre post : Session.dict V) (k : string) (v : V) :
  NoDup (map fst (pre ++ (k, v) :: post)%list) ->
  List.filter (fun kv => negb (fst kv =? k)%string) (pre ++ (k, v) :: post)%list
  = (pre ++ post)%list
  /\ NoDup (map fst (pre ++ post)%list).
Proof.
  rewrite !map_app. cbn [map fst]. intros Hnd.
  apply NoDup_app in Hnd as (Hpre & Hdisj & Hpost).
  apply NoDup_cons in Hpost as [Hk Hpost]. split.
  - rewrite List.filter_app. cbn [List.filter fst]. rewrite String.eqb_refl. cbn [negb].
    f_equal; apply filter_all; apply List.Forall_forall; intros [k1 v1] H1; cbn [fst];
      destruct (String.eqb_spec k1 k) as [-> | _]; try reflexivity; exfalso.
    + apply (Hdisj k); [| left].
      apply list_elem_of_In. change k with (fst (k, v1)). apply in_map. exact H1.
    + apply Hk. apply list_elem_of_In. change k with (fst (k, v1)). apply in_map. exact H1.
  - apply NoDup_app. repeat apply conj; [exact Hpre | | exact Hpost].
    intros x Hx Hx'. apply (Hdisj x Hx). right. exact Hx'.
Qed.

Lemma del_each_filter (p : string * Session.session -> bool) (d : Session.dict Session.session) :
  forall (pre : Session.dict Session.session) (s : Session.state),
    Session.session_store s = (pre ++ d)%list ->
    NoDup (map fst (pre ++ d)%list) ->
    Session.del_each (map fst (List.filter p d)) s
    = (inr tt, Session.set_store (pre ++ List.filter (fun kv => negb (p kv)) d)%list s).
Proof.
  induction d as [| [k v] d IH]; intros pre s Hs Hnd.
  - cbn [List.filter map Session.del_each]. unfold Session.ret.
    rewrite <- Hs. destruct s; reflexivity.
  - cbn [List.filter]. destruct (p (k, v)) eqn:Hp; cbn [negb map fst Session.del_each].
    + destruct (filter_out_middle pre d k v Hnd) as [Hfil Hnd'].
      session_simpl. rewrite Hs, dict_del_present, Hfil.
      * rewrite (IH pre (Session.set_store (pre ++ d)%list s) eq_refl Hnd').
        reflexivity.
      * exact Hnd.
      * rewrite map_app. apply in_or_app. right. left. reflexivity.
    + rewrite (IH (pre ++ [(k, v)])%list s).
      * rewrite <- app_assoc. reflexivity.
      * rewrite Hs, <- app_assoc. reflexivity.
      * rewrite <- app_assoc. exact Hnd.
Qed.

(** What [cleanup_expired_sessions] does to a store without repeated keys. *)
Lemma cleanup_run (s : Session.state) :
  NoDup (map fst (Session.session_store s)) ->
  Session.cleanup_expired_sessions s
  = (inr tt,
     Session.mk_state
       (Session.alive (Session.clock s (Session.ticks s)) (Session.session_store s))
       (Session.clock s) (S (Session.ticks s)) (Session.tokens s) (Session.drawn s)).
Proof.
  intros Hnd. unfold Session.cleanup_expired_sessions. session_simpl.
  rewrite (del_each_filter _ (Session.session_store s) []); [reflexivity | reflexivity |].
  exact Hnd.
Qed.

Lemma generate_run (u : string) (ttl : Z) (s : Session.state) :
  NoDup (map fst (Session.session_store s)) ->
  Session.generate_client_secret u ttl s
  = (inr ("cs_" ++ Session.tokens s (Session.drawn s))%string,
     Session.mk_state
       (Session.dict_set ("cs_" ++ Session.tokens s (Session.drawn s))%string
          (Session.mk_session u
             (Session.clock s (S (Session.ticks s)))
             (Session.clock s (S (S (Session.ticks s))) + Session.hours ttl))
          (Session.alive (Session.clock s (Session.ticks s)) (Session.session_store s)))
       (Session.clock s) (S (S (S (Session.ticks s)))) (Session.tokens s)
       (S (Session.drawn s))).
Proof.
  intros Hnd. unfold Session.generate_client_secret.
  unfold Session.bind at 1. rewrite (cleanup_run s Hnd). session_simpl. reflexivity.
Qed.

Lemma validate_run (c : string) (s : Session.state) :
  NoDup (map fst (Session.session_store s)) ->
  Session.validate_client_secret c s
  = let d := Session.alive (Session.clock s (Session.ticks s)) (Session.session_store s) in
    match Session.dict_get c d with
    | None =>
        (inr None,
         Session.mk_state d (Session.clock s) (S (Session.ticks s)) (Session.tokens s)
                          (Session.drawn s))
    | Some session =>
        if Session.expires_at session <? Session.clock s (S (Session.ticks s))
        then (inr None,
              Session.mk_state
                (List.filter (fun kv => negb (fst kv =? c)%string) d)
                (Session.clock s) (S (S (Session.ticks s))) (Session.tokens s)
                (Session.drawn s))
        else (inr (Some (Session.user_id session)),
              Session.mk_state d (Session.clock s) (S (S (Session.ticks s)))
                               (Session.tokens s) (Session.drawn s))
    end.
Proof.
  intros Hnd. unfold Session.validate_client_secret.
  unfold Session.bind at 1. rewrite (cleanup_run s Hnd). session_simpl.
  destruct (Session.dict_get c _) as [session |] eqn:Hget; [| reflexivity].
  session_simpl. destruct (_ <? _); [| reflexivity]. session_simpl.
  rewrite dict_del_present; [reflexivity | |].
  - apply filter_keys_NoDup. exact Hnd.
  - apply dict_get_In in Hget. change c with (fst (c, session)).
    apply in_map. exact Hget.
Qed.

(** X17. Expired sessions are purged, and only they.  On a store without
    repeated keys [cleanup_expired_sessions] never fails with [KeyError];
    it removes exactly the sessions whose expiry lies strictly before the
    clock reading and keeps the others, with their values and in their
    order. *)
Theorem cleanup_purges_expired (s : Session.state) :
  NoDup (map fst (Session.session_store s)) ->
  exists s',
    Session.cleanup_expired_sessions s = (inr tt, s')
    /\ NoDup (map fst (Session.session_store s'))
    /\ Session.session_store s'
       = Session.alive (Session.clock s (Session.ticks s)) (Session.session_store s)
    /\ (forall k,
          Session.dict_get k (Session.session_store s')
          = match Session.dict_get k (Session.session_store s) with
            | Some v =>
                if Session.expires_at v <? Session.clock s (Session.ticks s)
                then None else Some v
            | None => None
            end).
Proof.
  intros Hnd. eexists. split; [apply cleanup_run; exact Hnd |].
  cbn [Session.session_store]. repeat apply conj.
  - apply filter_keys_NoDup. exact Hnd.
  - reflexivity.
  - intros k. unfold Session.alive. rewrite dict_get_filter by exact Hnd.
    destruct (Session.dict_get k _) as [v |]; [| reflexivity].
    cbn [snd]. destruct (_ <? _); reflexivity.
Qed.

Lemma cleanup_purges_expired_witness :
  exists s',
    Session.cleanup_expired_sessions
      (Session.mk_state
         [("cs_a", Session.mk_session "u1" 0 50); ("cs_b", Session.mk_session "u2" 0 100)]
         (fun n => 100 + Z.of_nat n) 0 (fun _ => "t") 0)
    = (inr tt, s')
    /\ Session.session_store s' = [("cs_b", Session.mk_session "u2" 0 100)].
Proof.
  destruct (cleanup_purges_expired
              (Session.mk_state
                 [("cs_a", Session.mk_session "u1" 0 50);
                  ("cs_b", Session.mk_session "u2" 0 100)]
                 (fun n => 100 + Z.of_nat n) 0 (fun _ => "t") 0))
    as (s' & Hrun & _ & Hstore & _).
  - refine (bool_decide_unpack _ _). vm_compute. exact I.
  - exists s'. split; [exact Hrun | exact Hstore].
Defined.

Lemma get_alive_set (c : string) (v : Session.session) (now : Z)
    (d : Session.dict Session.session) :
  NoDup (map fst d) ->
  Session.dict_get c (Session.alive now (Session.dict_set c v d))
  = if Session.expires_at v <? now then None else Some v.
Proof.
  intros Hnd. unfold Session.alive.
  rewrite dict_get_filter by (apply dict_set_NoDup; exact Hnd).
  rewrite dict_get_set_eq. cbn [snd]. destruct (_ <? _); reflexivity.
Qed.

(** X18. A session lasts as long as [create_session] promises.  On a store
    without repeated keys [create_session] answers the secret "cs_" followed
    by the drawn token, [expires_in] 86400 and the user, and keeps the keys
    of the store distinct.  At a later observation of that store
    [validate_client_secret] answers the user when both of its clock
    readings are at most 86400 seconds after the reading taken for the
    expiry, and answers [None], dropping the session, when one of them is
    later. *)
Theorem session_lifetime (u : string) (s : Session.state) (t n : nat) :
  NoDup (map fst (Session.session_store s)) ->
  exists stamp s1,
    Session.create_session u s
    = (inr (Session.Issued ("cs_" ++ Session.tokens s (Session.drawn s))%string
                           86400 u stamp), s1)
    /\ NoDup (map fst (Session.session_store s1))
    /\ (Session.clock s t <= Session.clock s (2 + Session.ticks s) + 86400 * 1000000 ->
        Session.clock s (S t) <= Session.clock s (2 + Session.ticks s) + 86400 * 1000000 ->
        fst (Session.validate_client_secret
               ("cs_" ++ Session.tokens s (Session.drawn s))%string
               (Session.later t n s1)) = inr (Some u))
    /\ (Session.clock s (2 + Session.ticks s) + 86400 * 1000000 < Session.clock s t
        \/ Session.clock s (2 + Session.ticks s) + 86400 * 1000000 < Session.clock s (S t) ->
        fst (Session.validate_client_secret
               ("cs_" ++ Session.tokens s (Session.drawn s))%string
               (Session.later t n s1)) = inr None
        /\ Session.dict_get ("cs_" ++ Session.tokens s (Session.drawn s))%string
             (Session.session_store
                (snd (Session.validate_client_secret
                        ("cs_" ++ Session.tokens s (Session.drawn s))%string
                        (Session.later t n s1)))) = None).
Proof.
  intros Hnd.
  set (c := ("cs_" ++ Session.tokens s (Session.drawn s))%string).
  set (expiry := Session.clock s (2 + Session.ticks s) + 86400 * 1000000).
  set (d0 := Session.alive (Session.clock s (Session.ticks s)) (Session.session_store s)).
  assert (Hd0 : NoDup (map fst d0)) by (apply filter_keys_NoDup; exact Hnd).
  set (v := Session.mk_session u (Session.clock s (S (Session.ticks s))) expiry).
  eexists _, _. split.
  { unfold Session.create_session, Session.try_except.
    unfold Session.bind at 1. rewrite (generate_run u 24 s Hnd).
    session_simpl. reflexivity. }
  fold c d0. change (Session.clock s (S (S (Session.ticks s))) + Session.hours 24)
    with expiry. fold v.
  set (s1 := Session.mk_state _ _ _ _ _).
  assert (Hnd1 : NoDup (map fst (Session.session_store (Session.later t n s1)))).
  { cbn [s1 Session.later Session.session_store]. apply dict_set_NoDup. exact Hd0. }
  pose proof (validate_run c (Session.later t n s1) Hnd1) as Hval.
  cbv zeta in Hval.
  cbn [s1 Session.later Session.session_store Session.clock Session.ticks] in Hval.
  rewrite (get_alive_set c v _ d0 Hd0) in Hval.
  subst v. cbn [Session.expires_at Session.user_id] in Hval.
  repeat apply conj.
  - cbn [s1 Session.session_store]. apply dict_set_NoDup. exact Hd0.
  - intros H1 H2. rewrite Hval.
    destruct (Z.ltb_spec expiry (Session.clock s t)); [lia |].
    cbn [Session.expires_at Session.user_id].
    destruct (Z.ltb_spec expiry (Session.clock s (S t))); [lia |]. reflexivity.
  - intros Hlate. rewrite Hval.
    destruct (Z.ltb_spec expiry (Session.clock s t));
      cbn [Session.expires_at Session.user_id].
    + cbn [fst snd Session.session_store]. split; [reflexivity |].
      rewrite (get_alive_set c _ _ d0 Hd0). cbn [Session.expires_at].
      destruct (Z.ltb_spec expiry (Session.clock s t)); [reflexivity | lia].
    + destruct (Z.ltb_spec expiry (Session.clock s (S t))); [| lia].
      cbn [fst snd Session.session_store]. split; [reflexivity |].
      apply dict_get_None. intros Hin. apply in_map_iff in Hin.
      destruct Hin as ([k1 v1] & E & Hin). cbn [fst] in E. subst k1.
      apply filter_In in Hin as [_ Hp]. cbn [fst] in Hp.
      rewrite String.eqb_refl in Hp. discriminate.
Qed.

Lemma session_lifetime_witness :
  exists stamp s1,
    Session.create_session "u1"
      (Session.mk_state [] (fun n => Z.of_nat n * 43200000000) 0 (fun _ => "tok") 0)
    = (inr (Session.Issued "cs_tok" 86400 "u1" stamp), s1)
    /\ fst (Session.validate_client_secret "cs_tok" (Session.later 3 1 s1))
       = inr (Some "u1")
    /\ fst (Session.validate_client_secret "cs_tok" (Session.later 4 1 s1)) = inr None.
Proof.
  destruct (session_lifetime "u1"
              (Session.mk_state [] (fun n => Z.of_nat n * 43200000000) 0 (fun _ => "tok") 0)
              3 1 ltac:(constructor))
    as (stamp & s1 & Hrun & _ & Hvalid & _).
  exists stamp, s1. repeat apply conj; [exact Hrun | apply Hvalid; vm_compute; discriminate |].
  destruct (session_lifetime "u1"
              (Session.mk_state [] (fun n => Z.of_nat n * 43200000000) 0 (fun _ => "tok") 0)
              4 1 ltac:(constructor))
    as (stamp' & s1' & Hrun' & _ & _ & Hlate).
  rewrite Hrun in Hrun'. injection Hrun' as _ <-.
  apply Hlate. right. vm_compute. reflexivity.
Defined.

Lemma get_without (c k : string) (d : Session.dict Session.session) :
  NoDup (map fst d) ->
  Session.dict_get k (List.filter (fun kv => negb (fst kv =? c)%string) d)
  = if (k =? c)%string then None else Session.dict_get k d.
Proof.
  intros Hnd. rewrite dict_get_filter by exact Hnd. cbn [fst].
  destruct (Session.dict_get k d); destruct (k =? c)%string; reflexivity.
Qed.

Lemma get_alive (now : Z) (k : string) (d : Session.dict Session.session) :
  NoDup (map fst d) ->
  Session.dict_get k (Session.alive now d)
  = match Session.dict_get k d with
    | Some v => if Session.expires_at v <? now then None else Some v
    | None => None
    end.
Proof.
  intros Hnd. unfold Session.alive. rewrite dict_get_filter by exact Hnd.
  destruct (Session.dict_get k d) as [v |]; [| reflexivity].
  cbn [snd]. destruct (_ <? _); reflexivity.
Qed.

Section StoredSession.

Variables (s : Session.state) (c : string) (v : Session.session).

Hypothesis distinct_keys : NoDup (map fst (Session.session_store s)).
Hypothesis stored : Session.dict_get c (Session.session_store s) = Some v.
Hypothesis in_time :
  Session.clock s (Session.ticks s) <= Session.expires_at v
  /\ Session.clock s (S (Session.ticks s)) <= Session.expires_at v.

Let d1 : Session.dict Session.session :=
  Session.alive (Session.clock s (Session.ticks s)) (Session.session_store s).

Lemma stored_validates :
  Session.validate_client_secret c s
  = (inr (Some (Session.user_id v)),
     Session.mk_state d1 (Session.clock s) (S (S (Session.ticks s))) (Session.tokens s)
                      (Session.drawn s)).
Proof.
  rewrite (validate_run c s distinct_keys). cbv zeta. fold d1.
  unfold d1. rewrite (get_alive _ c _ distinct_keys), stored.
  destruct in_time as [H1 H2].
  destruct (Z.ltb_spec (Session.expires_at v) (Session.clock s (Session.ticks s)));
    [lia |].
  destruct (Z.ltb_spec (Session.expires_at v) (Session.clock s (S (Session.ticks s))));
    [lia | reflexivity].
Qed.

Lemma stored_stays : Session.dict_get c d1 = Some v.
Proof.
  unfold d1. rewrite (get_alive _ c _ distinct_keys), stored.
  destruct in_time as [H1 _].
  destruct (Z.ltb_spec (Session.expires_at v) (Session.clock s (Session.ticks s)));
    [lia | reflexivity].
Qed.

Lemma other_user_refused (u : string) :
  Session.user_id v = "" \/ Session.user_id v <> u ->
  negb (Py.truthy (Some (Session.user_id v)))
  || negb (default "" (Some (Session.user_id v)) =? u)%string = true.
Proof.
  intros [E | Hne]; cbn [Py.truthy default from_option id].
  - rewrite E. reflexivity.
  - destruct (String.eqb_spec (Session.user_id v) u); [contradiction |].
    apply orb_true_r.
Qed.

(** X19. Refreshing a session rotates its secret, for its owner only.  For
    a stored session that has not expired at the two clock readings of the
    validation, on a store without repeated keys: [refresh_session] by the
    (non-empty) user of the session answers a new secret, "cs_" followed by
    the drawn token, bound to that user for 24 hours from the reading taken
    at issue, and the old secret is no longer stored unless the new token
    repeats it; by any other user it answers 401 and the session stays as
    it was.  It never answers 500. *)
Theorem refresh_rotates (u : string) :
  (Session.user_id v = u -> u <> "" ->
   exists stamp s',
     Session.refresh_session c u s
     = (inr (Session.Issued ("cs_" ++ Session.tokens s (Session.drawn s))%string
                            86400 u stamp), s')
     /\ NoDup (map fst (Session.session_store s'))
     /\ Session.dict_get ("cs_" ++ Session.tokens s (Session.drawn s))%string
          (Session.session_store s')
        = Some (Session.mk_session u
                  (Session.clock s (3 + Session.ticks s))
                  (Session.clock s (4 + Session.ticks s) + Session.hours 24))
     /\ (("cs_" ++ Session.tokens s (Session.drawn s))%string <> c ->
         Session.dict_get c (Session.session_store s') = None))
  /\ (Session.user_id v = "" \/ Session.user_id v <> u ->
      exists s',
        Session.refresh_session c u s
        = (inl (Session.HTTPException 401 "Invalid or expired client secret"), s')
        /\ Session.dict_get c (Session.session_store s') = Some v).
Proof.
  split.
  - intros Hown Hu.
    assert (Hd1 : NoDup (map fst d1)) by (apply filter_keys_NoDup; exact distinct_keys).
    set (d2 := List.filter (fun kv => negb (fst kv =? c)%string) d1).
    assert (Hd2 : NoDup (map fst d2)) by (apply filter_keys_NoDup; exact Hd1).
    eexists _, _. split.
    { unfold Session.refresh_session, Session.try_except.
      unfold Session.bind at 1. rewrite stored_validates. rewrite Hown.
      rewrite (truthy_Some u Hu). cbn [default from_option id negb orb].
      rewrite String.eqb_refl. cbn [negb].
      unfold Session.bind at 1. unfold Session.store_del.
      cbn [Session.session_store].
      rewrite (dict_del_present d1 c Hd1)
        by (change c with (fst (c, v)); apply in_map, dict_get_In, stored_stays).
      fold d2. unfold Session.bind at 1.
      rewrite (generate_run u 24 (Session.set_store d2 _) Hd2).
      session_simpl. reflexivity. }
    cbn [Session.session_store Session.set_store Session.clock Session.ticks
         Session.tokens Session.drawn].
    repeat apply conj.
    + apply dict_set_NoDup, filter_keys_NoDup. exact Hd2.
    + apply dict_get_set_eq.
    + intros Hne. rewrite dict_get_set_ne by congruence.
      rewrite (get_alive _ c d2 Hd2). unfold d2.
      rewrite (get_without c c d1 Hd1), String.eqb_refl. reflexivity.
  - intros Hother. eexists. split.
    { unfold Session.refresh_session, Session.try_except.
      unfold Session.bind at 1. rewrite stored_validates.
      rewrite (other_user_refused u Hother). reflexivity. }
    cbn [Session.session_store]. exact stored_stays.
Qed.

(** X20. Deleting a session, for its owner only.  Under the same
    conditions [delete_session] by the (non-empty) user of the session
    answers 200 and the secret is no longer stored, while every other
    session that has not expired stays; by any other user it answers 401
    and the session stays as it was.  It never answers 500. *)
Theorem delete_session_invalidates (u : string) :
  (Session.user_id v = u -> u <> "" ->
   exists s',
     Session.delete_session c u s = (inr (Session.Deleted u), s')
     /\ NoDup (map fst (Session.session_store s'))
     /\ Session.dict_get c (Session.session_store s') = None
     /\ (forall k v', k <> c ->
           Session.dict_get k (Session.session_store s) = Some v' ->
           Session.clock s (Session.ticks s) <= Session.expires_at v' ->
           Session.dict_get k (Session.session_store s') = Some v')
     /\ fst (Session.validate_client_secret c s') = inr None)
  /\ (Session.user_id v = "" \/ Session.user_id v <> u ->
      exists s',
        Session.delete_session c u s
        = (inl (Session.HTTPException 401 "Invalid or expired client secret"), s')
        /\ Session.dict_get c (Session.session_store s') = Some v).
Proof.
  split.
  - intros Hown Hu.
    assert (Hd1 : NoDup (map fst d1)) by (apply filter_keys_NoDup; exact distinct_keys).
    set (d2 := List.filter (fun kv => negb (fst kv =? c)%string) d1).
    assert (Hd2 : NoDup (map fst d2)) by (apply filter_keys_NoDup; exact Hd1).
    eexists. split.
    { unfold Session.delete_session, Session.try_except.
      unfold Session.bind at 1. rewrite stored_validates. rewrite Hown.
      rewrite (truthy_Some u Hu). cbn [default from_option id negb orb].
      rewrite String.eqb_refl. cbn [negb].
      unfold Session.bind at 1. unfold Session.store_del.
      cbn [Session.session_store].
      rewrite (dict_del_present d1 c Hd1)
        by (change c with (fst (c, v)); apply in_map, dict_get_In, stored_stays).
      fold d2. reflexivity. }
    cbn [Session.session_store Session.set_store].
    assert (Hgone : Session.dict_get c d2 = None).
    { unfold d2. rewrite (get_without c c d1 Hd1), String.eqb_refl. reflexivity. }
    repeat apply conj.
    + exact Hd2.
    + exact Hgone.
    + intros k v' Hk Hget Hlive. unfold d2. rewrite (get_without c k d1 Hd1).
      destruct (String.eqb_spec k c); [contradiction |].
      unfold d1. rewrite (get_alive _ k _ distinct_keys), Hget.
      destruct (Z.ltb_spec (Session.expires_at v') (Session.clock s (Session.ticks s)));
        [lia | reflexivity].
    + rewrite validate_run by exact Hd2. cbv zeta. cbn [Session.session_store].
      rewrite (get_alive _ c d2 Hd2), Hgone. reflexivity.
  - intros Hother. eexists. split.
    { unfold Session.delete_session, Session.try_except.
      unfold Session.bind at 1. rewrite stored_validates.
      rewrite (other_user_refused u Hother). reflexivity. }
    cbn [Session.session_store]. exact stored_stays.
Qed.

End StoredSession.

Lemma refresh_rotates_witness :
  (exists stamp s',
     Session.refresh_session "cs_a" "u1"
       (Session.mk_state [("cs_a", Session.mk_session "u1" 0 50)]
                         (fun n => Z.of_nat n) 0 (fun _ => "b") 0)
     = (inr (Session.Issued "cs_b" 86400 "u1" stamp), s')
     /\ Session.dict_get "cs_a" (Session.session_store s') = None)
  /\ (exists s',
        Session.refresh_session "cs_a" "u2"
          (Session.mk_state [("cs_a", Session.mk_session "u1" 0 50)]
                            (fun n => Z.of_nat n) 0 (fun _ => "b") 0)
        = (inl (Session.HTTPException 401 "Invalid or expired client secret"), s')
        /\ Session.dict_get "cs_a" (Session.session_store s')
           = Some (Session.mk_session "u1" 0 50)).
Proof.
  assert (Hnd : NoDup (map fst [("cs_a", Session.mk_session "u1" 0 50)]))
    by (refine (bool_decide_unpack _ _); vm_compute; exact I).
  split.
  - destruct (refresh_rotates
                (Session.mk_state [("cs_a", Session.mk_session "u1" 0 50)]
                                  (fun n => Z.of_nat n) 0 (fun _ => "b") 0)
                "cs_a" (Session.mk_session "u1" 0 50) Hnd eq_refl
                ltac:(cbn; lia) "u1") as [Hown _].
    destruct (Hown eq_refl ltac:(discriminate)) as (stamp & s' & Hrun & _ & _ & Hold).
    exists stamp, s'. split; [exact Hrun | apply Hold; discriminate].
  - destruct (refresh_rotates
                (Session.mk_state [("cs_a", Session.mk_session "u1" 0 50)]
                                  (fun n => Z.of_nat n) 0 (fun _ => "b") 0)
                "cs_a" (Session.mk_session "u1" 0 50) Hnd eq_refl
                ltac:(cbn; lia) "u2") as [_ Hother].
    apply Hother. right. discriminate.
Defined.

Lemma delete_session_invalidates_witness :
  exists s',
    Session.delete_session "cs_a" "u1"
      (Session.mk_state [("cs_a", Session.mk_session "u1" 0 50);
                         ("cs_b", Session.mk_session "u2" 0 60)]
                        (fun n => Z.of_nat n) 0 (fun _ => "b") 0)
    = (inr (Session.Deleted "u1"), s')
    /\ Session.dict_get "cs_a" (Session.session_store s') = None
    /\ Session.dict_get "cs_b" (Session.session_store s')
       = Some (Session.mk_session "u2" 0 60).
Proof.
  assert (Hnd : NoDup (map fst [("cs_a", Session.mk_session "u1" 0 50);
                                ("cs_b", Session.mk_session "u2" 0 60)]))
    by (refine (bool_decide_unpack _ _); vm_compute; exact I).
  destruct (delete_session_invalidates
              (Session.mk_state [("cs_a", Session.mk_session "u1" 0 50);
                                 ("cs_b", Session.mk_session "u2" 0 60)]
                                (fun n => Z.of_nat n) 0 (fun _ => "b") 0)
              "cs_a" (Session.mk_session "u1" 0 50) Hnd eq_refl
              ltac:(cbn; lia) "u1") as [Hown _].
  destruct (Hown eq_refl ltac:(discriminate)) as (s' & Hrun & _ & Hgone & Hkept & _).
  exists s'. repeat apply conj; [exact Hrun | exact Hgone |].
  apply Hkept; [discriminate | reflexivity | cbn; lia].
Defined.

Lemma length_prefix (n : nat) (s : string) :
  (String.length (Py.prefix n s) <= n)%nat.
Proof.
  unfold Py.prefix. revert s. induction n as [| n IH]; intros [| c s]; cbn; try lia.
  specialize (IH s). lia.
Qed.

Lemma length_app (a b : string) :
  String.length (a ++ b) = (String.length a + String.length b)%nat.
Proof.
  induction a as [| c a IH]; [reflexivity |].
  change (S (String.length (a ++ b)) = S (String.length a + String.length b)).
  rewrite IH. reflexivity.
Qed.

(** X21. The session endpoints never fail internally.  On a store without
    repeated keys none of them lets a [KeyError] through or answers 500:
    [create_session] and [get_session_info] always answer 200,
    [refresh_session] and [delete_session] answer 200 or 401; each leaves a
    store without repeated keys, so this holds along every sequence of
    calls.  [get_session_info] counts the sessions of the user that have
    not expired and shows of each secret at most its first ten characters. *)
Theorem session_endpoints_total (s : Session.state) (c u : string) :
  NoDup (map fst (Session.session_store s)) ->
  (exists r, fst (Session.create_session u s) = inr r)
  /\ NoDup (map fst (Session.session_store (snd (Session.create_session u s))))
  /\ ((exists r, fst (Session.refresh_session c u s) = inr r)
      \/ exists detail,
           fst (Session.refresh_session c u s) = inl (Session.HTTPException 401 detail))
  /\ NoDup (map fst (Session.session_store (snd (Session.refresh_session c u s))))
  /\ ((exists r, fst (Session.delete_session c u s) = inr r)
      \/ exists detail,
           fst (Session.delete_session c u s) = inl (Session.HTTPException 401 detail))
  /\ NoDup (map fst (Session.session_store (snd (Session.delete_session c u s))))
  /\ (exists sessions,
        fst (Session.get_session_info u s)
        = inr (Session.Info u (Z.of_nat (length sessions)) sessions)
        /\ length sessions
           = length (List.filter (fun kv => (Session.user_id (snd kv) =? u)%string)
                       (Session.alive (Session.clock s (Session.ticks s))
                                      (Session.session_store s)))
        /\ Forall (fun x => Py.len (fst (fst x)) <= 13) sessions)
  /\ NoDup (map fst (Session.session_store (snd (Session.get_session_info u s)))).
Proof.
  intros Hnd.
  set (d1 := Session.alive (Session.clock s (Session.ticks s)) (Session.session_store s)).
  assert (Hd1 : NoDup (map fst d1)) by (apply filter_keys_NoDup; exact Hnd).
  assert (Hcreate : exists r s',
            Session.create_session u s = (inr r, s')
            /\ NoDup (map fst (Session.session_store s'))).
  { eexists _, _. split.
    - unfold Session.create_session, Session.try_except.
      unfold Session.bind at 1. rewrite (generate_run u 24 s Hnd).
      session_simpl. reflexivity.
    - cbn [Session.session_store]. apply dict_set_NoDup. exact Hd1. }
  assert (Hguard : forall (k : string -> Session.op Session.content) msg,
            (forall s0, NoDup (map fst (Session.session_store s0)) ->
                        In c (map fst (Session.session_store s0)) ->
                        exists r s', (Session.bind (Session.store_del c) (fun _ => k u)) s0
                                     = (inr r, s')
                                     /\ NoDup (map fst (Session.session_store s'))) ->
            exists r s',
              Session.try_except
                (Session.bind (Session.validate_client_secret c)
                   (fun session_user_id =>
                      if negb (Py.truthy session_user_id)
                         || negb (default "" session_user_id =? u)%string
                      then Session.raise
                             (Session.HTTPException 401 "Invalid or expired client secret")
                      else Session.bind (Session.store_del c) (fun _ => k u)))
                (fun e => match e with
                          | Session.HTTPException _ _ => Session.raise e
                          | _ => Session.raise (Session.HTTPException 500 msg)
                          end) s
              = (r, s')
              /\ ((exists a, r = inr a)
                  \/ exists detail, r = inl (Session.HTTPException 401 detail))
              /\ NoDup (map fst (Session.session_store s'))).
  { intros k msg Hk. unfold Session.try_except. unfold Session.bind at 1.
    rewrite (validate_run c s Hnd). cbv zeta. fold d1.
    destruct (Session.dict_get c d1) as [v |] eqn:Hget.
    - destruct (_ <? _).
      + eexists _, _. split; [reflexivity |]. split; [right; eexists; reflexivity |].
        cbn [Session.session_store]. apply filter_keys_NoDup. exact Hd1.
      + destruct (negb (Py.truthy (Some (Session.user_id v))) || _).
        * eexists _, _. split; [reflexivity |]. split; [right; eexists; reflexivity |].
          exact Hd1.
        * destruct (Hk (Session.mk_state d1 (Session.clock s) (S (S (Session.ticks s)))
                          (Session.tokens s) (Session.drawn s)) Hd1)
            as (r & s' & Hrun & Hnd').
          { change c with (fst (c, v)). apply in_map, dict_get_In. exact Hget. }
          rewrite Hrun. eexists _, _. split; [reflexivity |].
          split; [left; eexists; reflexivity | exact Hnd'].
    - eexists _, _. split; [reflexivity |]. split; [right; eexists; reflexivity |].
      exact Hd1. }
  destruct Hcreate as (rc & sc & Hc & Hndc).
  destruct (Hguard (fun user_id =>
              Session.bind (Session.generate_client_secret user_id 24)
                (fun new_client_secret =>
                   Session.bind Session.utcnow
                     (fun stamp =>
                        Session.ret (Session.Issued new_client_secret 86400 user_id stamp))))
              "Failed to refresh ChatKit session")
    as (rr & sr & Hr & Hrr & Hndr).
  { intros s0 Hnd0 Hin. unfold Session.bind at 1. unfold Session.store_del.
    rewrite (dict_del_present _ c Hnd0 Hin).
    unfold Session.bind at 1.
    rewrite generate_run
      by (cbn [Session.session_store Session.set_store]; apply filter_keys_NoDup;
          exact Hnd0).
    session_simpl. eexists _, _. split; [reflexivity |].
    apply dict_set_NoDup, filter_keys_NoDup, filter_keys_NoDup. exact Hnd0. }
  destruct (Hguard (fun user_id => Session.ret (Session.Deleted user_id))
              "Failed to delete ChatKit session")
    as (rd & sd & Hd & Hrd & Hndd).
  { intros s0 Hnd0 Hin. unfold Session.bind at 1. unfold Session.store_del.
    rewrite (dict_del_present _ c Hnd0 Hin). session_simpl.
    eexists _, _. split; [reflexivity |]. apply filter_keys_NoDup. exact Hnd0. }
  change (Session.refresh_session c u s = (rr, sr)) in Hr.
  change (Session.delete_session c u s = (rd, sd)) in Hd.
  rewrite Hc, Hr, Hd. cbn [fst snd].
  assert (Hinfo : Session.get_session_info u s
                  = (inr (Session.Info u
                            (Z.of_nat (length
                               (map (fun kv => ((Py.prefix 10 (fst kv) ++ "...")%string,
                                                Session.created_at (snd kv),
                                                Session.expires_at (snd kv)))
                                    (List.filter
                                       (fun kv => (Session.user_id (snd kv) =? u)%string)
                                       d1))))
                            (map (fun kv => ((Py.prefix 10 (fst kv) ++ "...")%string,
                                             Session.created_at (snd kv),
                                             Session.expires_at (snd kv)))
                                 (List.filter
                                    (fun kv => (Session.user_id (snd kv) =? u)%string)
                                    d1))),
                     Session.mk_state d1 (Session.clock s) (S (Session.ticks s))
                                      (Session.tokens s) (Session.drawn s))).
  { unfold Session.get_session_info, Session.try_except.
    unfold Session.bind at 1. rewrite (cleanup_run s Hnd). reflexivity. }
  rewrite Hinfo. cbn [fst snd Session.session_store].
  repeat apply conj; eauto.
  eexists. split; [reflexivity |]. split; [apply length_map |].
  apply List.Forall_forall. intros x Hx. apply in_map_iff in Hx.
  destruct Hx as (kv & <- & _). cbn [fst]. unfold Py.len.
  rewrite length_app. pose proof (length_prefix 10 (fst kv)). cbn [String.length]. lia.
Qed.

Lemma session_endpoints_total_witness :
  (exists r,
     fst (Session.create_session "u1"
            (Session.mk_state [("cs_a", Session.mk_session "u1" 0 50)]
                              (fun n => Z.of_nat n) 0 (fun _ => "b") 0)) = inr r)
  /\ exists sessions,
       fst (Session.get_session_info "u1"
              (Session.mk_state [("cs_a", Session.mk_session "u1" 0 50)]
                                (fun n => Z.of_nat n) 0 (fun _ => "b") 0))
       = inr (Session.Info "u1" (Z.of_nat (length sessions)) sessions)
       /\ Forall (fun x => Py.len (fst (fst x)) <= 13) sessions.
Proof.
  destruct (session_endpoints_total
              (Session.mk_state [("cs_a", Session.mk_session "u1" 0 50)]
                                (fun n => Z.of_nat n) 0 (fun _ => "b") 0) "cs_a" "u1")
    as (Hcreate & _ & _ & _ & _ & _ & (sessions & Hinfo & _ & Hshort) & _).
  - refine (bool_decide_unpack _ _). vm_compute. exact I.
  - split; [exact Hcreate |]. exists sessions. split; [exact Hinfo | exact Hshort].
Defined.

(** ** Authentication and the ChatKit endpoint *)

Lemma replace_skips (old new a t : string) :
  Py.replace_from old new (a ++ t) (String.length a) = Py.replace_from old new t 0
  \/ t = "".
Proof.
  destruct t as [| c t]; [right; reflexivity | left].
  induction a as [| x a IH]; [reflexivity |].
  change (Py.replace_from old new (String x (a ++ String c t)) (S (String.length a))
          = Py.replace_from old new (String c t) 0).
  cbn [Py.replace_from]. exact IH.
Qed.

Lemma replace_absent (old new s : string) :
  Py.contains old s = false -> Py.replace_from old new s 0 = s.
Proof.
  induction s as [| c s IH]; [reflexivity |].
  cbn [Py.contains Py.replace_from]. intros H. apply orb_false_iff in H as [Hp Hrest].
  rewrite Hp, (IH Hrest). reflexivity.
Qed.

Lemma replace_from_nil (old new : string) (k : nat) : Py.replace_from old new "" k = "".
Proof. reflexivity. Qed.

Lemma starts_with_bearer (t : string) : Py.startswith "Bearer " ("Bearer " ++ t) = true.
Proof. unfold Py.startswith. apply prefix_spec. exists t. reflexivity. Qed.

Lemma replace_bearer (t : string) :
  Py.replace "Bearer " "" ("Bearer " ++ t) = Py.replace "Bearer " "" t.
Proof.
  unfold Py.replace.
  change ("Bearer " ++ t)%string with (String "B" ("earer " ++ t)).
  cbn [Py.replace_from].
  change (String.prefix "Bearer " (String "B" ("earer " ++ t)))
    with (Py.startswith "Bearer " ("Bearer " ++ t)).
  rewrite starts_with_bearer.
  change (String.length "Bearer " - 1)%nat with (String.length "earer ").
  change ("" ++ Py.replace_from "Bearer " "" ("earer " ++ t) (String.length "earer "))%string
    with (Py.replace_from "Bearer " "" ("earer " ++ t) (String.length "earer ")).
  destruct (replace_skips "Bearer " "" "earer " t) as [-> | ->]; reflexivity.
Qed.



Lemma validate_session_accepts (authority : string -> Auth.reply) (token uid : string) :
  Auth.validate_session authority token = inr uid
  <-> authority token = Auth.Answered 200 (Auth.User (Some uid)).
Proof.
  unfold Auth.validate_session. split.
  - destruct (authority token) as [status data | |]; try discriminate.
    destruct (Z.eqb_spec status 200) as [-> | _]; cbn [negb]; [| discriminate].
    destruct data as [| | [id |] |]; try discriminate. intros [= ->]. reflexivity.
  - intros ->. reflexivity.
Qed.

(** X23. What the authentication middleware answers.  [validate_session]
    returns a user exactly when the service answered 200 with a user that
    has an identifier, and otherwise raises 401, 503 (only for a timeout)
    or 500; [auth_middleware] passes this on and records the user only on
    success; [optional_auth_middleware] never raises: it answers the
    validated user or, for every failure of the validation as without
    credentials, the anonymous demo user, marked as not authenticated. *)
Theorem authentication_outcomes
    (authority : string -> Auth.reply) (token : string) (st : Auth.state) :
  (forall uid, Auth.validate_session authority token = inr uid
               <-> authority token = Auth.Answered 200 (Auth.User (Some uid)))
  /\ (forall status detail,
        Auth.validate_session authority token = inl (Auth.HTTPException status detail) ->
        (status = 401 \/ status = 503 \/ status = 500)
        /\ (status = 503 <-> authority token = Auth.TimeoutException))
  /\ (forall uid,
        authority token = Auth.Answered 200 (Auth.User (Some uid)) ->
        Auth.auth_middleware authority token st
        = (inr uid, Auth.mk_state (Some uid) (Auth.is_authenticated st))
        /\ Auth.optional_auth_middleware authority (Some token) st
           = (uid, Auth.mk_state (Some uid) (Some true)))
  /\ ((forall uid, authority token <> Auth.Answered 200 (Auth.User (Some uid))) ->
      snd (Auth.auth_middleware authority token st) = st
      /\ Auth.optional_auth_middleware authority (Some token) st
         = Auth.optional_auth_middleware authority None st)
  /\ Auth.optional_auth_middleware authority None st
     = ("anonymous_demo_user",
        Auth.mk_state (Some "anonymous_demo_user") (Some false)).
Proof.
  repeat apply conj.
  - intros uid. apply validate_session_accepts.
  - intros status detail. unfold Auth.validate_session.
    destruct (authority token) as [code data | |].
    + destruct (Z.eqb_spec code 200) as [-> | _]; cbn [negb].
      * destruct data as [| | [id |] |]; intros [= <- _];
          (split; [auto | split; [lia | discriminate]]).
      * intros [= <- _]. split; [auto | split; [lia | discriminate]].
    + intros [= <- _]. split; [auto | split; reflexivity].
    + intros [= <- _]. split; [auto | split; [lia | discriminate]].
  - intros uid Hok. apply validate_session_accepts in Hok.
    unfold Auth.auth_middleware, Auth.optional_auth_middleware. rewrite Hok.
    split; reflexivity.
  - intros Hno.
    destruct (Auth.validate_session authority token) as [e | uid] eqn:Hval.
    + unfold Auth.auth_middleware, Auth.optional_auth_middleware. rewrite Hval.
      split; reflexivity.
    + apply validate_session_accepts in Hval. destruct (Hno uid Hval).
  - reflexivity.
Qed.

Lemma authentication_outcomes_witness :
  Auth.optional_auth_middleware (fun _ => Auth.TimeoutException) (Some "tok")
    (Auth.mk_state None None)
  = ("anonymous_demo_user", Auth.mk_state (Some "anonymous_demo_user") (Some false))
  /\ Auth.auth_middleware (fun _ => Auth.Answered 200 (Auth.User (Some "u1"))) "tok"
       (Auth.mk_state None None)
     = (inr "u1", Auth.mk_state (Some "u1") None).
Proof.
  destruct (authentication_outcomes (fun _ => Auth.TimeoutException) "tok"
              (Auth.mk_state None None)) as (_ & _ & _ & Hfail & Hanon).
  destruct (authentication_outcomes (fun _ => Auth.Answered 200 (Auth.User (Some "u1")))
              "tok" (Auth.mk_state None None)) as (_ & _ & Hok & _).
  split.
  - rewrite (proj2 (Hfail ltac:(discriminate))). exact Hanon.
  - exact (proj1 (Hok "u1" eq_refl)).
Defined.

Lemma limiter_status (user_id : option string) (now fresh_now : Z)
    (store store' : gmap string (Z * Z)) (status retry_after : Z) :
  RateLimit.rate_limit_middleware user_id now fresh_now store
  = (RateLimit.HTTPException status retry_after, store') ->
  status = 429.
Proof.
  unfold RateLimit.rate_limit_middleware.
  destruct (negb (Py.truthy user_id)); [discriminate |].
  set (st0 := match store !! default "" user_id with
              | Some _ => store
              | None => <[default "" user_id := (0, fresh_now)]> store
              end).
  destruct (default (0, fresh_now) (st0 !! default "" user_id)) as [c ws].
  destruct (RateLimit.RATE_LIMIT_WINDOW <=? now - ws); [discriminate |].
  destruct (RateLimit.RATE_LIMIT_REQUESTS <? c + 1); [| discriminate].
  intros H. inversion H. reflexivity.
Qed.

Section EndpointAdmission.

Context {R : Type}.
Variable authority : string -> Auth.reply.
Variable process : string -> gmap string string -> string + R.
Variables (auth_header : option string) (body : string) (now fresh_now : Z)
          (store : gmap string (Z * Z)).

(** X24. Admission to the ChatKit endpoint.  A request reaches
    [robotics_chatbot_server.process] only with a header of the Bearer
    scheme whose token the authentication service accepts, after the rate
    limiter let the user pass, and then with that user as the "user_id" of
    the context; a rejected request of the limiter is never processed.
    Every request without such a session is answered 401, also when the
    service timed out, and leaves the rate-limit store untouched: without
    the header or with another scheme the service is not even asked. *)
Theorem endpoint_admission :
  (forall outcome store',
     Endpoint.chatkit_endpoint authority process auth_header body now fresh_now store
     = (outcome, store') ->
     match outcome with
     | Endpoint.Unauthorized _ => store' = store
     | Endpoint.TooManyRequests retry_after =>
         exists rest uid,
           auth_header = Some ("Bearer " ++ rest)%string
           /\ authority (Py.replace "Bearer " "" rest)
              = Auth.Answered 200 (Auth.User (Some uid))
           /\ RateLimit.rate_limit_middleware (Some uid) now fresh_now store
              = (RateLimit.HTTPException 429 retry_after, store')
     | Endpoint.Processed _ | Endpoint.InternalError _ =>
         exists rest uid,
           auth_header = Some ("Bearer " ++ rest)%string
           /\ authority (Py.replace "Bearer " "" rest)
              = Auth.Answered 200 (Auth.User (Some uid))
           /\ RateLimit.rate_limit_middleware (Some uid) now fresh_now store
              = (RateLimit.Passed, store')
           /\ process body {["user_id" := uid]}
              = match outcome with
                | Endpoint.InternalError e => inl e
                | Endpoint.Processed result => inr result
                | _ => process body {["user_id" := uid]}
                end
     end)
  /\ ((forall rest, auth_header <> Some ("Bearer " ++ rest)%string) ->
      Endpoint.chatkit_endpoint authority process auth_header body now fresh_now store
      = (Endpoint.Unauthorized "authentication_required", store))
  /\ (forall rest,
        auth_header = Some ("Bearer " ++ rest)%string ->
        (forall uid, authority (Py.replace "Bearer " "" rest)
                     <> Auth.Answered 200 (Auth.User (Some uid))) ->
        Endpoint.chatkit_endpoint authority process auth_header body now fresh_now store
        = (Endpoint.Unauthorized "authentication_failed", store)).
Proof.
  assert (Hhead : forall h, h <> "" -> Py.startswith "Bearer " h = true ->
                            exists rest, h = ("Bearer " ++ rest)%string).
  { intros h _ Hp. apply prefix_spec in Hp. exact Hp. }
  repeat apply conj.
  - intros outcome store'. unfold Endpoint.chatkit_endpoint.
    destruct auth_header as [h |]; cbn [Py.truthy negb orb default from_option id];
      [| intros [= <- <-]; reflexivity].
    destruct (String.eqb_spec h "") as [-> | Hne]; cbn [negb orb];
      [intros [= <- <-]; reflexivity |].
    destruct (Py.startswith "Bearer " h) eqn:Hp; cbn [negb];
      [| intros [= <- <-]; reflexivity].
    destruct (Hhead h Hne Hp) as [rest ->]. rewrite replace_bearer.
    destruct (Auth.validate_session authority _) as [e | uid] eqn:Hval;
      [intros [= <- <-]; reflexivity |].
    apply validate_session_accepts in Hval.
    destruct (RateLimit.rate_limit_middleware (Some uid) now fresh_now store)
      as [[| status retry_after] st] eqn:Hlimit.
    + destruct (process body _) as [e | result] eqn:Hproc; intros [= <- <-];
        exists rest, uid; repeat apply conj; auto.
    + pose proof (limiter_status _ _ _ _ _ _ _ Hlimit) as ->.
      intros [= <- <-]. exists rest, uid. repeat apply conj; auto.
  - intros Hnone. unfold Endpoint.chatkit_endpoint.
    destruct auth_header as [h |]; cbn [Py.truthy negb orb default from_option id];
      [| reflexivity].
    destruct (String.eqb_spec h "") as [-> | Hne]; cbn [negb orb]; [reflexivity |].
    destruct (Py.startswith "Bearer " h) eqn:Hp; cbn [negb]; [| reflexivity].
    destruct (Hhead h Hne Hp) as [rest ->]. destruct (Hnone rest eq_refl).
  - intros rest -> Hno. unfold Endpoint.chatkit_endpoint.
    cbn [Py.truthy default from_option id].
    rewrite starts_with_bearer, replace_bearer.
    change (("Bearer " ++ rest =? "")%string) with false. cbn [negb orb].
    destruct (Auth.validate_session authority _) as [e | uid] eqn:Hval; [reflexivity |].
    apply validate_session_accepts in Hval. destruct (Hno uid Hval).
Qed.

End EndpointAdmission.

Lemma endpoint_admission_witness :
  Endpoint.chatkit_endpoint (fun _ => Auth.TimeoutException)
    (fun _ _ => @inr string unit tt) (Some "Bearer tok") "{}" 5 5 ∅
  = (Endpoint.Unauthorized "authentication_failed", ∅)
  /\ Endpoint.chatkit_endpoint (fun _ => Auth.Answered 200 (Auth.User (Some "u1")))
       (fun _ _ => @inr string unit tt) (Some "Basic dXNlcg==") "{}" 5 5 ∅
     = (Endpoint.Unauthorized "authentication_required", ∅).
Proof.
  split.
  - apply (proj2 (proj2 (endpoint_admission (fun _ => Auth.TimeoutException)
                           (fun _ _ => @inr string unit tt)
                           (Some "Bearer tok") "{}" 5 5 ∅)) "tok");
      [reflexivity | discriminate].
  - apply (proj1 (proj2 (endpoint_admission
                           (fun _ => Auth.Answered 200 (Auth.User (Some "u1")))
                           (fun _ _ => @inr string unit tt)
                           (Some "Basic dXNlcg==") "{}" 5 5 ∅))).
    intros rest. discriminate.
Defined.

(** ** Settings *)

Lemma split_first (sep : ascii) (s : string) :
  exists first others, Py.split sep s = first :: others.
Proof.
  induction s as [| c s (first & others & IH)]; cbn [Py.split]; [eauto |].
  destruct (Ascii.eqb c sep); [eauto |]. rewrite IH. eauto.
Qed.

Lemma split_app (sep : ascii) (e t : string) :
  free_of sep e = true ->
  Py.split sep (e ++ String sep t) = e :: Py.split sep t.
Proof.
  induction e as [| c e IH]; intros Hfree.
  - change (Py.split sep (String sep t) = "" :: Py.split sep t).
    cbn [Py.split]. rewrite Ascii.eqb_refl. reflexivity.
  - cbn [free_of] in Hfree. apply andb_true_iff in Hfree as [Hc Hfree].
    change (Py.split sep (String c (e ++ String sep t)) = String c e :: Py.split sep t).
    cbn [Py.split]. destruct (Ascii.eqb c sep); [discriminate |].
    rewrite (IH Hfree). reflexivity.
Qed.

Lemma split_free (sep : ascii) (e : string) :
  free_of sep e = true -> Py.split sep e = [e].
Proof.
  induction e as [| c e IH]; intros Hfree; [reflexivity |].
  cbn [free_of] in Hfree. apply andb_true_iff in Hfree as [Hc Hfree].
  cbn [Py.split]. destruct (Ascii.eqb c sep); [discriminate |].
  rewrite (IH Hfree). reflexivity.
Qed.

Lemma split_join (sep : ascii) (es : list string) :
  es <> [] -> Forall (fun e => free_of sep e = true) es ->
  Py.split sep (Py.join (String sep "") es) = es.
Proof.
  induction es as [| e es IH]; intros Hne Hfree; [contradiction |].
  inversion Hfree as [| ? ? He Hes]; subst.
  destruct es as [| e' es]; [apply split_free; exact He |].
  change (Py.join (String sep "") (e :: e' :: es))
    with (e ++ String sep (Py.join (String sep "") (e' :: es)))%string.
  rewrite (split_app sep e _ He), IH; [reflexivity | discriminate | exact Hes].
Qed.

Lemma rstrip_cons (c : ascii) (s : string) :
  Py.isspace c = false -> Py.rstrip (String c s) = String c (Py.rstrip s).
Proof.
  intros Hc. cbn [Py.rstrip]. rewrite Hc. destruct (Py.rstrip s); reflexivity.
Qed.

Lemma rstrip_rstrip (s : string) : Py.rstrip (Py.rstrip s) = Py.rstrip s.
Proof.
  induction s as [| c s IH]; [reflexivity |].
  cbn [Py.rstrip]. destruct (Py.rstrip s) as [| k ks] eqn:Hk.
  - destruct (Py.isspace c) eqn:Hc; [reflexivity |].
    cbn [Py.rstrip]. rewrite Hc. reflexivity.
  - change (Py.rstrip (String c (String k ks)))
      with (match Py.rstrip (String k ks) with
            | EmptyString => if Py.isspace c then EmptyString else String c EmptyString
            | kept => String c kept
            end).
    rewrite IH. reflexivity.
Qed.

Lemma strip_strip (s : string) : Py.strip (Py.strip s) = Py.strip s.
Proof.
  unfold Py.strip.
  assert (Hl : forall x, Py.lstrip (Py.rstrip (Py.lstrip x)) = Py.rstrip (Py.lstrip x)).
  { intros x. induction x as [| c x IH]; [reflexivity |].
    cbn [Py.lstrip]. destruct (Py.isspace c) eqn:Hc; [exact IH |].
    rewrite (rstrip_cons c x Hc). cbn [Py.lstrip]. rewrite Hc. reflexivity. }
  rewrite Hl. apply rstrip_rstrip.
Qed.

(** X25. Parsing the CORS origins.  [cors_origins_list] never answers an
    empty list (the empty setting gives one empty origin); every origin it
    answers is free of surrounding whitespace; and on origins that contain
    no comma, joined by commas, it answers them stripped, so a list of
    clean origins written out with commas reads back as itself. *)
Theorem cors_origins_parse :
  (forall s, cors_origins_list s <> [])
  /\ cors_origins_list "" = [""]
  /\ (forall s o, In o (cors_origins_list s) -> Py.strip o = o)
  /\ (forall origins,
        origins <> [] ->
        Forall (fun o => free_of "," o = true) origins ->
        cors_origins_list (Py.join "," origins) = map Py.strip origins)
  /\ (forall origins,
        origins <> [] ->
        Forall (fun o => free_of "," o = true /\ Py.strip o = o) origins ->
        cors_origins_list (Py.join "," origins) = origins).
Proof.
  assert (Hjoin : forall origins,
            origins <> [] ->
            Forall (fun o => free_of "," o = true) origins ->
            cors_origins_list (Py.join "," origins) = map Py.strip origins).
  { intros origins Hne Hfree. unfold cors_origins_list.
    rewrite (split_join "," origins Hne Hfree). reflexivity. }
  repeat apply conj.
  - intros s. unfold cors_origins_list.
    destruct (split_first "," s) as (first & others & ->). discriminate.
  - reflexivity.
  - intros s o Hin. unfold cors_origins_list in Hin. apply in_map_iff in Hin.
    destruct Hin as (x & <- & _). apply strip_strip.
  - exact Hjoin.
  - intros origins Hne Hclean. rewrite Hjoin; [| exact Hne |].
    + induction Hclean as [| o l [_ Ho] _ IH]; [contradiction |].
      cbn [map]. rewrite Ho. f_equal.
      destruct l as [| o' l']; [reflexivity | apply IH; discriminate].
    + eapply List.Forall_impl; [| exact Hclean]. intros o [H _]. exact H.
Qed.

Lemma cors_origins_parse_witness :
  cors_origins_list (Py.join "," ["http://localhost:3000"; "https://example.org"])
  = ["http://localhost:3000"; "https://example.org"].
Proof.
  apply (proj2 (proj2 (proj2 (proj2 cors_origins_parse)))); [discriminate |].
  repeat constructor.
Defined.

(** ** Titles and rejected messages *)

Lemma length_lstrip (s : string) : (String.length (Py.lstrip s) <= String.length s)%nat.
Proof.
  induction s as [| c s IH]; cbn [Py.lstrip String.length]; [lia |].
  destruct (Py.isspace c); cbn [String.length]; lia.
Qed.

Lemma length_rstrip (s : string) : (String.length (Py.rstrip s) <= String.length s)%nat.
Proof.
  induction s as [| c s IH]; cbn [Py.rstrip String.length]; [lia |].
  destruct (Py.rstrip s); [destruct (Py.isspace c) |]; cbn [String.length] in *; lia.
Qed.

(** X26. The derived title always fits its column.  The title
    [add_thread_item] derives from a first message has at most 53
    characters, whatever the message, so setting it never trips the
    [String(255)] bound of the title column; without the ellipsis it has no
    whitespace at either end. *)
Theorem derived_title_fits (content : string) (now : Z) (t : Thread.t) :
  Py.len (derive_title content) <= 53
  /\ title_fits (with_title (derive_title content) now t) = true
  /\ (Py.len content <= 50 -> Py.strip (derive_title content) = derive_title content).
Proof.
  assert (Hlen : Py.len (derive_title content) <= 53).
  { unfold derive_title, Py.len, Py.strip.
    pose proof (length_rstrip (Py.lstrip (Py.prefix 50 content))).
    pose proof (length_lstrip (Py.prefix 50 content)).
    pose proof (length_prefix 50 content).
    destruct (50 <? _); rewrite ?length_app; cbn [String.length]; lia. }
  repeat apply conj.
  - exact Hlen.
  - unfold title_fits. cbn [with_title Thread.title]. apply Z.leb_le. lia.
  - intros Hshort. unfold derive_title.
    destruct (Z.ltb_spec 50 (Py.len content)); [lia |]. apply strip_strip.
Qed.

Lemma derived_title_fits_witness :
  Py.strip (derive_title "  What is a Jacobian?  ") = derive_title "  What is a Jacobian?  ".
Proof.
  apply (proj2 (proj2 (derived_title_fits "  What is a Jacobian?  " 0 Sample.untitled))).
  vm_compute. discriminate.
Defined.

(** X27. Messages the schema rejects are never stored.  For a thread that
    is not stored, for a role other than "user" and "assistant" and for a
    text that is empty or longer than 100,000 characters,
    [add_thread_item] never returns normally and leaves both tables as
    they were; so does [save_item] for such a role or text, whether it
    would insert or update. *)
Theorem rejected_messages (tid : string) (item : Item.t) (w : world) :
  (has_thread tid (db w) = false
   \/ chk_messages_role (extract_role item) = false
   \/ chk_messages_content_length (extract_content item "Attribute content missing") = false ->
   (forall r, fst (add_thread_item tid item w) <> inr r)
   /\ db (snd (add_thread_item tid item w)) = db w)
  /\ (chk_messages_role (extract_role item) = false
      \/ chk_messages_content_length (extract_content item "No content") = false ->
      (forall r, fst (save_item tid item w) <> inr r)
      /\ db (snd (save_item tid item w)) = db w).
Proof.
  split.
  - intros Hbad.
    pose proof (add_thread_item_spec tid item w) as Hspec. unfold wp in Hspec.
    destruct (fst (add_thread_item tid item w)) as [e | r] eqn:Hres.
    + split; [discriminate | exact Hspec].
    + exfalso. unfold append_changes in Hspec. cbn [flush] in Hspec.
      destruct (flush_change _ _ (InsertMessage _ _ _ _ _)) as [e | d1] eqn:Hins;
        [discriminate |].
      apply insert_message_inv in Hins.
      destruct Hins as (_ & Hrole & Hlen & _ & _ & Hfk & _).
      destruct Hbad as [H | [H | H]]; congruence.
  - intros Hbad.
    pose proof (save_item_spec tid item w) as Hspec. unfold wp in Hspec.
    destruct (fst (save_item tid item w)) as [e | r] eqn:Hres.
    + split; [discriminate | exact Hspec].
    + exfalso. destruct Hspec as [Hflush _]. unfold upsert_changes in Hflush.
      destruct (List.filter _ (messages (db w))) as [| m l];
        rewrite flush_one in Hflush.
      * apply insert_message_inv in Hflush.
        destruct Hflush as (_ & Hrole & Hlen & _).
        destruct Hbad as [H | H]; congruence.
      * apply (update_message_inv (db_now w)) in Hflush.
        destruct Hflush as (_ & _ & Hrole & Hlen).
        destruct Hbad as [H | H]; congruence.
Qed.

Lemma rejected_messages_witness :
  (forall r, fst (add_thread_item Sample.bob (Sample.user_says Sample.m1 "hello")
                    (Sample.world_with Sample.untitled [])) <> inr r)
  /\ (forall r, fst (save_item Sample.thread1
                       (Item.mk (OtherItem (Some "system")) Sample.m1 (Some (RawStr "hello")))
                       (Sample.world_with Sample.untitled [])) <> inr r).
Proof.
  split.
  - apply (proj1 (rejected_messages Sample.bob (Sample.user_says Sample.m1 "hello")
                    (Sample.world_with Sample.untitled []))).
    left. reflexivity.
  - apply (proj2 (rejected_messages Sample.thread1
                    (Item.mk (OtherItem (Some "system")) Sample.m1 (Some (RawStr "hello")))
                    (Sample.world_with Sample.untitled []))).
    left. reflexivity.
Defined.

(** ** Further edge cases *)

Lemma failed_writes_change_nothing_witness :
  db (snd (add_thread_item Sample.thread1 (Sample.user_says Sample.m1 "What is a Jacobian?")
             (Sample.world_with Sample.untitled [Sample.first_row])))
  = db (Sample.world_with Sample.untitled [Sample.first_row]).
Proof.
  apply (proj1 (proj2 (failed_writes_change_nothing
                         (Sample.world_with Sample.untitled [Sample.first_row])
                         (IntegrityError "messages_pkey") I))
           Sample.thread1 (Sample.user_says Sample.m1 "What is a Jacobian?")).
  reflexivity.
Defined.

(** X28. A page size of zero.  On a healthy store [load_thread_items] with
    limit 0 answers, for a thread that has rows, an empty page with
    [has_more] set and no cursor; a client that follows the cursor repeats
    its first request, so its listing never ends, whatever number of
    requests it is allowed. *)
Theorem zero_limit_page (w : world) (tid : string) :
  faults w = None ->
  thread_rows tid (db w) <> [] ->
  fst (load_thread_items tid (Some 0) None "asc" w) = inr (mk_ItemPage [] true None)
  /\ forall fuel, list_all fuel tid 0 None w = None.
Proof.
  intros Hf Hrows. split; [| exact (zero_limit_never_advances w tid Hf Hrows)].
  pose proof (listing_first_page w tid 0 Hf ltac:(lia)) as H. unfold wp in H.
  destruct H as (-> & _ & _).
  assert (Hlen : (0 <? Z.of_nat (length (order_by Message.sequence_number false
                                           (thread_rows tid (db w))))) = true).
  { apply Z.ltb_lt. rewrite (Permutation_length (order_by_perm _ _ _)).
    destruct (thread_rows tid (db w)); [contradiction | simpl; lia]. }
  unfold page_of. rewrite Hlen. reflexivity.
Qed.

Lemma zero_limit_page_witness :
  fst (load_thread_items Sample.thread1 (Some 0) None "asc"
         (Sample.world_with Sample.untitled Sample.three_rows))
  = inr (mk_ItemPage [] true None)
  /\ list_all 1000 Sample.thread1 0 None
       (Sample.world_with Sample.untitled Sample.three_rows) = None.
Proof.
  destruct (zero_limit_page (Sample.world_with Sample.untitled Sample.three_rows)
              Sample.thread1 eq_refl ltac:(discriminate)) as [Hpage Hnever].
  split; [exact Hpage | apply Hnever].
Defined.
